(** * youtube-transcriber: a shallow embedding of the heuristic core

    The development follows the Python sources:
    - [app/services/url_extractor.py]   ([URLExtractor])
    - [app/services/chapter_service.py] ([ChapterService])
    - [youtube_transcriber.py]          ([SimpleFormatter], [YouTubeTranscriber])
    - [app/main.py]                     (the FastAPI handler [get_transcript])

    Modelling conventions.
    - A Python [str] is a Rocq [string]: an ASCII text as it is, any other
      text as the bytes of its UTF-8 encoding.  The functions of module
      [Py] and the matcher of module [Re] are Python's on ASCII text.  On
      other text they are not: the character tests (whitespace, digits,
      letter case, the classes \s and \d, the folding of [re.IGNORECASE])
      know the ASCII characters only, [String.length] counts bytes, and
      indexing takes a byte.  A statement that depends on these either
      carries the hypothesis that the text is ASCII, or is made for the
      reflow engine over a text library ([SimpleFormatter.Any]), where
      Python's operations on characters are a parameter; what holds of
      the bytes whatever the text (concatenation, [join], the search for
      an ASCII literal) is stated without either.
    - A Python [int] is a [Z]; [//] and [%] by a positive constant are
      [Z.div] and [Z.modulo] (both round towards minus infinity).
    - [None] results are [option]; exceptions are explicit values. *)

From Stdlib Require Import Decimal DecimalString DecimalN DecimalPos DecimalFacts.
From Stdlib Require Import ZArith NArith List String Ascii Bool Lia.
Import ListNotations.

Open Scope string_scope.
Open Scope list_scope.

(* ================================================================== *)
(** * Part I: the program                                              *)
(* ================================================================== *)

(** ** Python string primitives *)

Module Py.

Definition code (c : ascii) : nat := nat_of_ascii c.

Definition between (lo hi : nat) (c : ascii) : bool :=
  (lo <=? code c)%nat && (code c <=? hi)%nat.

(** [str.isdigit], [str.isupper], [str.islower] on one ASCII character
    (a byte above 127 is none of them). *)
Definition isdigit (c : ascii) : bool := between 48 57 c.
Definition isupper (c : ascii) : bool := between 65 90 c.
Definition islower (c : ascii) : bool := between 97 122 c.

(** [str.isspace] on one ASCII character: TAB, LF, VT, FF, CR, the
    separators FS, GS, RS, US, and the space. *)
Definition isspace (c : ascii) : bool := between 9 13 c || between 28 32 c.

Definition lower (c : ascii) : ascii :=
  if isupper c then ascii_of_nat (code c + 32) else c.
Definition upper (c : ascii) : ascii :=
  if islower c then ascii_of_nat (code c - 32) else c.

Fixpoint map_str (f : ascii -> ascii) (s : string) : string :=
  match s with
  | EmptyString => EmptyString
  | String c s' => String (f c) (map_str f s')
  end.

Definition str_lower : string -> string := map_str lower.
Definition str_upper : string -> string := map_str upper.

Fixpoint all_str (p : ascii -> bool) (s : string) : bool :=
  match s with
  | EmptyString => true
  | String c s' => p c && all_str p s'
  end.

Definition is_empty (s : string) : bool :=
  match s with EmptyString => true | _ => false end.

(** [s.isupper()]: no lowercase letter and at least one uppercase letter. *)
Definition str_isupper (s : string) : bool :=
  all_str (fun c => negb (islower c)) s && negb (all_str (fun c => negb (isupper c)) s).

(** Truthiness of a string: [if s:]. *)
Definition truthy (s : string) : bool := negb (is_empty s).

Fixpoint lstrip (s : string) : string :=
  match s with
  | EmptyString => EmptyString
  | String c s' => if isspace c then lstrip s' else s
  end.

Fixpoint rstrip (s : string) : string :=
  match s with
  | EmptyString => EmptyString
  | String c s' =>
      match rstrip s' with
      | EmptyString => if isspace c then EmptyString else String c EmptyString
      | r => String c r
      end
  end.

(** [s.strip()], of the ASCII whitespace *)
Definition strip (s : string) : string := rstrip (lstrip s).

(** [s.replace(a, b)] for single characters [a], [b]. *)
Definition replace_char (a b : ascii) : string -> string :=
  map_str (fun c => if Ascii.eqb c a then b else c).

(** [s.split()]: maximal runs of non-space characters. *)
Fixpoint split_ws_from (cur : string) (s : string) : list string :=
  match s with
  | EmptyString => if is_empty cur then [] else [cur]
  | String c s' =>
      if isspace c
      then (if is_empty cur then split_ws_from EmptyString s'
            else cur :: split_ws_from EmptyString s')
      else split_ws_from (cur ++ String c EmptyString) s'
  end.

Definition split_ws (s : string) : list string := split_ws_from EmptyString s.

(** [s.split(sep)] for a non-empty separator [sep].  [skip] counts the
    characters of a separator occurrence still to be passed over. *)
Fixpoint split_from (sep : string) (skip : nat) (cur : string) (s : string)
  : list string :=
  match s with
  | EmptyString => [cur]
  | String c s' =>
      match skip with
      | S k => split_from sep k cur s'
      | O =>
          if prefix sep s
          then cur :: split_from sep (String.length sep - 1) EmptyString s'
          else split_from sep 0 (cur ++ String c EmptyString) s'
      end
  end.

Definition split (sep : string) (s : string) : list string :=
  split_from sep 0 EmptyString s.

(** [sep.join(l)] *)
Definition join (sep : string) (l : list string) : string := String.concat sep l.

(** [s.startswith(p)] *)
Definition startswith (p s : string) : bool := prefix p s.

(** [s[-1]] when [s] is not empty. *)
Fixpoint last_char (s : string) : option ascii :=
  match s with
  | EmptyString => None
  | String c EmptyString => Some c
  | String _ s' => last_char s'
  end.

(** [c in t] for a character [c] and a string [t]. *)
Fixpoint char_in (c : ascii) (t : string) : bool :=
  match t with
  | EmptyString => false
  | String d t' => Ascii.eqb c d || char_in c t'
  end.

(** The digits part of an integer literal accepted by [int()]: decimal
    digits, single underscores allowed between two digits.  [after_digit]
    tells whether the previous character was a digit.  The result is the
    literal without its underscores. *)
Fixpoint int_digits (after_digit : bool) (s : string) : option string :=
  match s with
  | EmptyString => if after_digit then Some EmptyString else None
  | String c s' =>
      if isdigit c then option_map (String c) (int_digits true s')
      else if Ascii.eqb c "_" && after_digit then int_digits false s'
      else None
  end.

Definition N_of_digits (ds : string) : option N :=
  option_map N.of_uint (NilEmpty.uint_of_string ds).

(** The whitespace that [int()] skips around a literal: TAB, LF, VT, FF,
    CR and the space.  The separators FS, GS, RS and US, which [str.strip]
    removes, are not skipped. *)
Definition isspace_c (c : ascii) : bool := between 9 13 c || Ascii.eqb c " ".

Fixpoint lstrip_c (s : string) : string :=
  match s with
  | EmptyString => EmptyString
  | String c s' => if isspace_c c then lstrip_c s' else s
  end.

Fixpoint rstrip_c (s : string) : string :=
  match s with
  | EmptyString => EmptyString
  | String c s' =>
      match rstrip_c s' with
      | EmptyString => if isspace_c c then EmptyString else String c EmptyString
      | r => String c r
      end
  end.

(** [int(s)] for a string [s]; [None] stands for [ValueError].  Surrounding
    whitespace and one sign are accepted. *)
Definition int (s : string) : option Z :=
  let t := rstrip_c (lstrip_c s) in
  let '(neg, body) :=
    match t with
    | String "-" r => (true, r)
    | String "+" r => (false, r)
    | _ => (false, t)
    end in
  match int_digits false body with
  | None => None
  | Some ds =>
      match N_of_digits ds with
      | None => None
      | Some n => Some (if neg then (- Z.of_N n)%Z else Z.of_N n)
      end
  end.

(** [str(n)] for [n >= 0]. *)
Definition str_of_N (n : N) : string := NilZero.string_of_uint (N.to_uint n).

Fixpoint zeros (k : nat) : string :=
  match k with
  | O => EmptyString
  | S k' => String "0" (zeros k')
  end.

Definition zfill (width : nat) (s : string) : string :=
  zeros (width - String.length s) ++ s.

(** The format specification [{z:02d}]: zero-padded to width 2, the sign
    counted in the width. *)
Definition format_02d (z : Z) : string :=
  if (z <? 0)%Z then String "-" (zfill 1 (str_of_N (Z.abs_N z)))
  else zfill 2 (str_of_N (Z.to_N z)).

(** A number as the metadata provider's JSON has it: an [int], or a finite
    [float] taken as the fraction [num / den]. *)
Record number := mkNumber { num : Z; den : positive }.

Definition of_int (n : Z) : number := mkNumber n 1.

(** [int(x)] for a number [x]: the fraction is cut toward zero. *)
Definition trunc (x : number) : Z := Z.quot (num x) (Z.pos (den x)).

(** The truth value of a number: false for zero only. *)
Definition number_truthy (x : number) : bool := negb (num x =? 0)%Z.

End Py.

(** ** [ChapterService]: timestamps *)

Module Timestamp.

(** [ChapterService._parse_timestamp]; [None] is the Python [None], also
    returned when [int] raises [ValueError]. *)
Definition _parse_timestamp (timestamp_str : string) : option Z :=
  let parts := Py.split ":" timestamp_str in
  match parts with
  | [m; s] =>
      match Py.int m, Py.int s with
      | Some minutes, Some seconds => Some (minutes * 60 + seconds)%Z
      | _, _ => None
      end
  | [h; m; s] =>
      match Py.int h, Py.int m, Py.int s with
      | Some hours, Some minutes, Some seconds =>
          Some (hours * 3600 + minutes * 60 + seconds)%Z
      | _, _, _ => None
      end
  | _ => None
  end.

(** [ChapterService._format_timestamp] *)
Definition _format_timestamp (seconds : Z) : string :=
  let hours := (seconds / 3600)%Z in
  let minutes := ((seconds mod 3600) / 60)%Z in
  let secs := (seconds mod 60)%Z in
  if (hours >? 0)%Z
  then Py.format_02d hours ++ ":" ++ Py.format_02d minutes ++ ":" ++ Py.format_02d secs
  else Py.format_02d minutes ++ ":" ++ Py.format_02d secs.

End Timestamp.

(** ** The regular expressions of the [re] module

    A backtracking matcher in continuation-passing style.  It follows the
    priorities of Python's [re]: alternatives left to right, greedy
    repetitions longest first, lazy repetitions shortest first, and a
    search that returns the match at the leftmost starting position. *)

Module Re.

Record flags := Flags { ignorecase : bool; multiline : bool }.

Definition NOFLAGS := Flags false false.
Definition IGNORECASE := Flags true false.
Definition MULTILINE_IGNORECASE := Flags true true.

(** One-character items. *)
Inductive cset :=
| CLit (c : ascii)             (* a literal character *)
| CClass (p : ascii -> bool)   (* a class: [...], \d, \s *)
| CDot.                        (* . : anything but a newline *)

Inductive regex :=
| Eps
| Chr (cs : cset)
| Seq (r1 r2 : regex)
| Alt (r1 r2 : regex)          (* r1|r2 *)
| Opt (r : regex)              (* r?   *)
| Star (cs : cset)             (* x*   *)
| Plus (cs : cset)             (* x+   *)
| LazyStar (cs : cset)         (* x*?  *)
| LazyPlus (cs : cset)         (* x+?  *)
| Group (n : nat) (r : regex)  (* the n-th capturing group *)
| Bol                          (* ^ *)
| Eol                          (* $ *)
| Ahead (r : regex)            (* (?=r) *)
| Behind (cs : cset).          (* (?<=x) *)

(** A position in the subject: offset, the character before it, what is
    left to read, and the spans of the groups captured so far (the latest
    first). *)
Record state := State {
  pos : nat;
  prev : option ascii;
  rest : string;
  caps : list (nat * (nat * nat))
}.

Definition newline : ascii := "010"%char.

(** Whether the character belongs to the set.  With [re.IGNORECASE] the
    case of the ASCII letters is folded (Python also folds letters outside
    ASCII, some of them onto ASCII letters). *)
Definition test (fl : flags) (cs : cset) (c : ascii) : bool :=
  match cs with
  | CLit x =>
      if ignorecase fl then Ascii.eqb (Py.lower c) (Py.lower x)
      else Ascii.eqb c x
  | CClass p =>
      if ignorecase fl then p c || p (Py.lower c) || p (Py.upper c) else p c
  | CDot => negb (Ascii.eqb c newline)
  end.

Definition at_bol (fl : flags) (st : state) : bool :=
  (pos st =? 0)%nat ||
  (multiline fl && match prev st with Some c => Ascii.eqb c newline | None => false end).

Definition at_eol (fl : flags) (st : state) : bool :=
  match rest st with
  | EmptyString => true
  | String c s' => Ascii.eqb c newline && (multiline fl || Py.is_empty s')
  end.

Definition set_cap (n a b : nat) (st : state) : state :=
  State (pos st) (prev st) (rest st) ((n, (a, b)) :: caps st).

Definition orelse {R : Type} (x y : option R) : option R :=
  match x with Some _ => x | None => y end.

(** x* : as many as possible first. *)
Fixpoint greedy {R : Type} (fl : flags) (cs : cset) (k : state -> option R)
  (p : nat) (pv : option ascii) (cp : list (nat * (nat * nat))) (s : string)
  {struct s} : option R :=
  match s with
  | EmptyString => k (State p pv s cp)
  | String c s' =>
      if test fl cs c
      then orelse (greedy fl cs k (S p) (Some c) cp s') (k (State p pv s cp))
      else k (State p pv s cp)
  end.

(** x*? : as few as possible first. *)
Fixpoint lazy_ {R : Type} (fl : flags) (cs : cset) (k : state -> option R)
  (p : nat) (pv : option ascii) (cp : list (nat * (nat * nat))) (s : string)
  {struct s} : option R :=
  orelse (k (State p pv s cp))
    match s with
    | EmptyString => None
    | String c s' =>
        if test fl cs c then lazy_ fl cs k (S p) (Some c) cp s' else None
    end.

(** One character. *)
Definition one {R : Type} (fl : flags) (cs : cset) (st : state)
  (k : state -> option R) : option R :=
  match rest st with
  | EmptyString => None
  | String c s' =>
      if test fl cs c then k (State (S (pos st)) (Some c) s' (caps st)) else None
  end.

Fixpoint run {R : Type} (fl : flags) (r : regex) (st : state)
  (k : state -> option R) {struct r} : option R :=
  match r with
  | Eps => k st
  | Chr cs => one fl cs st k
  | Seq r1 r2 => run fl r1 st (fun st1 => run fl r2 st1 k)
  | Alt r1 r2 => orelse (run fl r1 st k) (run fl r2 st k)
  | Opt r1 => orelse (run fl r1 st k) (k st)
  | Star cs => greedy fl cs k (pos st) (prev st) (caps st) (rest st)
  | Plus cs =>
      one fl cs st (fun st1 => greedy fl cs k (pos st1) (prev st1) (caps st1) (rest st1))
  | LazyStar cs => lazy_ fl cs k (pos st) (prev st) (caps st) (rest st)
  | LazyPlus cs =>
      one fl cs st (fun st1 => lazy_ fl cs k (pos st1) (prev st1) (caps st1) (rest st1))
  | Group n r1 => run fl r1 st (fun st1 => k (set_cap n (pos st) (pos st1) st1))
  | Bol => if at_bol fl st then k st else None
  | Eol => if at_eol fl st then k st else None
  | Ahead r1 =>
      match run fl r1 st (fun st1 => Some st1) with
      | Some st1 => k (State (pos st) (prev st) (rest st) (caps st1))
      | None => None
      end
  | Behind cs =>
      match prev st with
      | Some c => if test fl cs c then k st else None
      | None => None
      end
  end.

(** A match object: where it starts and the state where it ends. *)
Record mtch := Match { m_start : nat; m_end : state }.

Definition try_at (fl : flags) (r : regex) (p : nat) (pv : option ascii)
  (s : string) : option mtch :=
  option_map (Match p) (run fl r (State p pv s []) (fun st => Some st)).

(** The leftmost match at or after the current position. *)
Fixpoint search_from (fl : flags) (r : regex) (p : nat) (pv : option ascii)
  (s : string) {struct s} : option mtch :=
  match try_at fl r p pv s with
  | Some m => Some m
  | None =>
      match s with
      | EmptyString => None
      | String c s' => search_from fl r (S p) (Some c) s'
      end
  end.

(** [re.search(r, s, fl)] *)
Definition search (fl : flags) (r : regex) (s : string) : option mtch :=
  search_from fl r 0 None s.

(** The non-overlapping matches from left to right, as [re.finditer]
    yields them.  [skip] counts the characters of the last match still to be
    passed over.  (None of the patterns of the program matches the empty
    string; the scan would resume one character after such a match.) *)
Fixpoint finditer_from (fl : flags) (r : regex) (skip : nat) (p : nat)
  (pv : option ascii) (s : string) {struct s} : list mtch :=
  match skip with
  | S k =>
      match s with
      | EmptyString => []
      | String c s' => finditer_from fl r k (S p) (Some c) s'
      end
  | O =>
      match try_at fl r p pv s with
      | Some m =>
          m :: match s with
               | EmptyString => []
               | String c s' =>
                   finditer_from fl r (pos (m_end m) - p - 1) (S p) (Some c) s'
               end
      | None =>
          match s with
          | EmptyString => []
          | String c s' => finditer_from fl r 0 (S p) (Some c) s'
          end
      end
  end.

Definition finditer (fl : flags) (r : regex) (s : string) : list mtch :=
  finditer_from fl r 0 0 None s.

Fixpoint assoc (n : nat) (l : list (nat * (nat * nat))) : option (nat * nat) :=
  match l with
  | [] => None
  | (m, span) :: l' => if (n =? m)%nat then Some span else assoc n l'
  end.

(** [m.group(n)] for a match [m] in [s]; a group that took no part in the
    match gives [None]. *)
Definition group (s : string) (m : mtch) (n : nat) : option string :=
  match assoc n (caps (m_end m)) with
  | Some (a, b) => Some (substring a (b - a) s)
  | None => None
  end.

Definition group_or_empty (s : string) (m : mtch) (n : nat) : string :=
  match group s m n with Some g => g | None => EmptyString end.

(** [re.findall(r, s, fl)] for a pattern with two groups. *)
Definition findall2 (fl : flags) (r : regex) (s : string) : list (string * string) :=
  map (fun m => (group_or_empty s m 1, group_or_empty s m 2)) (finditer fl r s).

(** The pieces of [s] outside the matches: before the first, between two
    consecutive ones, after the last. *)
Fixpoint pieces (s : string) (from : nat) (ms : list mtch) : list string :=
  match ms with
  | [] => [substring from (String.length s - from) s]
  | m :: ms' =>
      substring from (m_start m - from) s :: pieces s (pos (m_end m)) ms'
  end.

(** [re.sub(r, repl, s)] for a replacement without group references. *)
Definition sub (fl : flags) (r : regex) (repl : string) (s : string) : string :=
  Py.join repl (pieces s 0 (finditer fl r s)).

(** [re.split(r, s)] for a pattern without groups. *)
Definition split (fl : flags) (r : regex) (s : string) : list string :=
  pieces s 0 (finditer fl r s).

(** Pattern builders. *)
Fixpoint lits (w : string) : regex :=
  match w with
  | EmptyString => Eps
  | String c EmptyString => Chr (CLit c)
  | String c w' => Seq (Chr (CLit c)) (lits w')
  end.

(** r{n} *)
Fixpoint rep (n : nat) (r : regex) : regex :=
  match n with
  | O => Eps
  | S O => r
  | S n' => Seq r (rep n' r)
  end.

Definition digit : cset := CClass Py.isdigit.   (* \d *)
Definition space : cset := CClass Py.isspace.   (* \s *)

End Re.

Declare Scope re_scope.
Delimit Scope re_scope with re.
Bind Scope re_scope with Re.regex.
Infix "+++" := Re.Seq (at level 60, right associativity) : re_scope.
Infix "<|>" := Re.Alt (at level 70, right associativity) : re_scope.

(** The one-character string of a newline. *)
Definition nl : string := String Re.newline "".

(** ** [ChapterService]: chapters *)

Module Chapters.
Import Timestamp.

(** [ChapterData] of [app/models/transcript.py]. *)
Record ChapterData := mkChapter {
  title : string;
  start_time : Z;
  end_time : option Z;
  timestamp : string
}.

(** A chapter record of the metadata provider: a dictionary whose keys
    ['title'], ['start_time'] and ['end_time'] may each be missing. *)
Record raw_chapter := mkRaw {
  raw_title : option string;
  raw_start_time : option Py.number;
  raw_end_time : option Py.number
}.

(** The value of the key ['title'] or ['uploader'] in the dictionary of
    the metadata provider: a [str], or [None]. *)
Inductive text_value :=
| TextNone
| Text (s : string).

(** The value of the key ['duration']: an [int], a [float], or [None]. *)
Inductive duration_value :=
| DurationNone
| DurationInt (z : Z)
| DurationFloat (x : Py.number).

(** What [ydl.extract_info] returns, as far as the program reads it: a
    dictionary whose keys may each be missing.  The program reads the
    description and the chapters in a way that takes the value [None] like
    a missing key, so these two fields have no value for [None]. *)
Record info_dict := mkInfo {
  info_title : option text_value;
  info_duration : option duration_value;
  info_uploader : option text_value;
  info_description : option string;
  info_chapters : option (list raw_chapter)
}.

Definition get {A : Type} (x : option A) (default : A) : A :=
  match x with Some v => v | None => default end.

(** [chapters[-1].end_time = t] when that field is still [None]. *)
Definition backfill (t : Z) (c : ChapterData) : ChapterData :=
  match end_time c with
  | None => mkChapter (title c) (start_time c) (Some t) (timestamp c)
  | Some _ => c
  end.

(** An update of the last element of a list, [None] when there is none
    ([chapters[-1]] raises [IndexError] on an empty list). *)
Fixpoint update_last {A : Type} (f : A -> A) (l : list A) : option (list A) :=
  match l with
  | [] => None
  | [x] => Some [f x]
  | x :: l' => option_map (cons x) (update_last f l')
  end.

(** [f'Chapter {i+1}'] *)
Definition default_title (i : nat) : string :=
  "Chapter " ++ Py.str_of_N (N.of_nat (i + 1)).

(** [int(chapter.get('end_time', 0)) if chapter.get('end_time') else None]:
    a missing value and the value 0 are both false. *)
Definition truthy_end (e : option Py.number) : option Z :=
  match e with
  | Some v => if Py.number_truthy v then Some (Py.trunc v) else None
  | None => None
  end.

(** One turn of the loop of [_extract_chapters_from_metadata];
    [None] stands for a raised exception. *)
Definition metadata_step (chapters : list ChapterData) (i : nat)
  (chapter : raw_chapter) : option (list ChapterData) :=
  let start_time := Py.trunc (get (raw_start_time chapter) (Py.of_int 0)) in
  let end_time := truthy_end (raw_end_time chapter) in
  let chapters' :=
    if (0 <? i)%nat then update_last (backfill start_time) chapters
    else Some chapters in
  match chapters' with
  | None => None
  | Some cs =>
      Some (cs ++ [mkChapter (get (raw_title chapter) (default_title i))
                             start_time end_time
                             (_format_timestamp start_time)])
  end.

Fixpoint metadata_loop (chapters : list ChapterData) (i : nat)
  (chapters_data : list raw_chapter) : option (list ChapterData) :=
  match chapters_data with
  | [] => Some chapters
  | chapter :: more =>
      match metadata_step chapters i chapter with
      | None => None
      | Some chapters' => metadata_loop chapters' (S i) more
      end
  end.

(** [ChapterService._extract_chapters_from_metadata], given the answer
    of the provider ([None]: the provider raised).  Every exception ends in
    the empty list. *)
Definition _extract_chapters_from_metadata (info : option info_dict)
  : list ChapterData :=
  match info with
  | None => []
  | Some i =>
      match metadata_loop [] 0 (get (info_chapters i) []) with
      | Some chapters => chapters
      | None => []
      end
  end.

(** The three patterns of [_parse_chapters_from_text].  The en dash and the
    em dash of the character classes are the byte sequences of their UTF-8
    encodings. *)
Definition en_dash : string :=
  String (ascii_of_nat 226) (String (ascii_of_nat 128) (String (ascii_of_nat 147) "")).
Definition em_dash : string :=
  String (ascii_of_nat 226) (String (ascii_of_nat 128) (String (ascii_of_nat 148) "")).

Section Patterns.
Import Re.
Local Open Scope re_scope.

(** \d{1,2}:\d{2} *)
Definition short_stamp : regex :=
  Chr digit +++ Opt (Chr digit) +++ Chr (CLit ":") +++ Chr digit +++ Chr digit.

(** (\d{1,2}:\d{2}(?::\d{2})?) *)
Definition stamp_group : regex :=
  Group 1 (short_stamp +++ Opt (Chr (CLit ":") +++ Chr digit +++ Chr digit)).

(** The class of the three dashes: hyphen, en dash, em dash *)
Definition dash : regex := Chr (CLit "-") <|> lits en_dash <|> lits em_dash.

(** (.+?)(?=\n|\d{1,2}:\d{2}|$) *)
Definition title_group : regex :=
  Group 2 (LazyPlus CDot) +++ Ahead (Chr (CLit newline) <|> short_stamp <|> Eol).

Definition patterns : list regex :=
  [ stamp_group +++ Star space +++ dash +++ Star space +++ title_group;
    stamp_group +++ Plus space +++ title_group;
    stamp_group +++ Star space +++ (Chr (CLit ":") <|> dash) +++ Star space
      +++ title_group ].

(** [\n\r\t]+ and \s+ *)
Definition line_breaks : regex :=
  Plus (CClass (fun c => Py.char_in c (String newline (String "013" (String "009" ""))))).
Definition spaces : regex := Plus space.

End Patterns.

(** The title of a match, cleaned up. *)
Definition clean_title (title : string) : string :=
  let title := Py.strip title in
  let title := Re.sub Re.NOFLAGS line_breaks " " title in
  let title := Re.sub Re.NOFLAGS spaces " " title in
  Py.strip title.

(** The body of the inner loop of [_parse_chapters_from_text] for one
    match [(timestamp_str, title)]. *)
Definition description_step (chapters : list ChapterData)
  (m : string * string) : list ChapterData :=
  let '(timestamp_str, title) := m in
  let start_time := _parse_timestamp (Py.strip timestamp_str) in
  let title := clean_title title in
  match start_time with
  | Some start_time =>
      if Py.truthy title then
        let chapters :=
          (* [if chapters and chapters[-1].end_time is None] *)
          match update_last (backfill start_time) chapters with
          | Some cs => cs
          | None => chapters
          end in
        chapters ++ [mkChapter title start_time None timestamp_str]
      else chapters
  | None => chapters
  end.

Definition nonempty {A : Type} (l : list A) : bool :=
  match l with [] => false | _ => true end.

(** The loop over the patterns; the list [chapters] is shared by all turns. *)
Fixpoint patterns_loop (chapters : list ChapterData) (ps : list Re.regex)
  (text : string) : list ChapterData :=
  match ps with
  | [] => chapters
  | pattern :: more =>
      let matches := Re.findall2 Re.MULTILINE_IGNORECASE pattern text in
      if nonempty matches then
        let chapters := fold_left description_step matches chapters in
        if nonempty chapters then chapters          (* break *)
        else patterns_loop chapters more text
      else patterns_loop chapters more text
  end.

(** [ChapterService._parse_chapters_from_text] *)
Definition _parse_chapters_from_text (text : string) : list ChapterData :=
  patterns_loop [] patterns text.

(** [ChapterService._extract_chapters_from_description] *)
Definition _extract_chapters_from_description (info : option info_dict)
  : list ChapterData :=
  match info with
  | None => []
  | Some i =>
      let description := get (info_description i) "" in
      if Py.truthy description then _parse_chapters_from_text description
      else []
  end.

End Chapters.

(** ** Exceptions *)

Inductive exn :=
| HTTPException (status_code : Z) (detail : string)
| ValueError
| IndexError
| AttributeError
| TypeError
| ValidationError      (* of the response model *)
| Exception (msg : string).

Inductive result (A : Type) :=
| Ok (a : A)
| Raise (e : exn).
Arguments Ok {A} a.
Arguments Raise {A} e.

Definition bind {A B : Type} (x : result A) (f : A -> result B) : result B :=
  match x with
  | Ok a => f a
  | Raise e => Raise e
  end.

(** [try: body  except Exception as e: handler(e)] *)
Definition try_except {A : Type} (body : result A) (handler : exn -> result A)
  : result A :=
  match body with
  | Ok a => Ok a
  | Raise e => handler e
  end.

Notation "x <- c1 ;; c2" := (bind c1 (fun x => c2))
  (at level 61, c1 at next level, right associativity).

(** [l[i]] *)
Definition index {A : Type} (l : list A) (i : nat) : result A :=
  match nth_error l i with
  | Some a => Ok a
  | None => Raise IndexError
  end.

(** ** [urllib.parse], as far as the extractor uses it *)

Record ParseResult := mkParse {
  scheme : string;
  netloc : string;
  path : string;
  params : string;
  query : string;
  fragment : string;
  hostname : option string
}.

(** The two library functions the extractor calls.  The extractor is
    defined over any such pair; [Urllib.lib] below is a model of the
    functions of the standard library. *)
Record UrlLib := mkLib {
  urlparse : string -> result ParseResult;
  parse_qs : string -> result (list (string * list string))
}.

Module Urllib.

(** [s.partition(c)]: what is before the first [c], whether [c] was found,
    what is after it. *)
Fixpoint partition (c : ascii) (s : string) : string * bool * string :=
  match s with
  | EmptyString => (EmptyString, false, EmptyString)
  | String d s' =>
      if Ascii.eqb d c then (EmptyString, true, s')
      else let '(a, found, b) := partition c s' in (String d a, found, b)
  end.

(** [s.rpartition(c)[2]]: what is after the last [c], all of [s] without. *)
Fixpoint after_last (c : ascii) (s : string) : string :=
  match s with
  | EmptyString => EmptyString
  | String d s' =>
      if Py.char_in c s' then after_last c s'
      else if Ascii.eqb d c then s' else s
  end.

(** The text up to the first of the characters of [stops], and the rest. *)
Fixpoint span_until (stops : string) (s : string) : string * string :=
  match s with
  | EmptyString => (EmptyString, EmptyString)
  | String d s' =>
      if Py.char_in d stops then (EmptyString, s)
      else let '(a, b) := span_until stops s' in (String d a, b)
  end.

Fixpoint remove_chars (bad : string) (s : string) : string :=
  match s with
  | EmptyString => EmptyString
  | String d s' =>
      if Py.char_in d bad then remove_chars bad s' else String d (remove_chars bad s')
  end.

Definition isalpha (c : ascii) : bool := Py.islower c || Py.isupper c.
Definition scheme_char (c : ascii) : bool :=
  isalpha c || Py.isdigit c || Py.char_in c "+-.".

(** [_splitparams] *)
Definition splitparams (url : string) : string * string :=
  if Py.char_in "/" url then
    let tail := after_last "/" url in
    let head := substring 0 (String.length url - String.length tail) url in
    let '(a, found, b) := partition ";" tail in
    if found then ((head ++ a)%string, b) else (url, EmptyString)
  else
    let '(a, _, b) := partition ";" url in (a, b).

(** The [hostname] property of a parse result. *)
Definition hostname_of (netloc : string) : option string :=
  let hostport := after_last "@" netloc in
  let '(_, have_open_br, bracketed) := partition "[" hostport in
  let host :=
    if have_open_br then fst (fst (partition "]" bracketed))
    else fst (fst (partition ":" hostport)) in
  if Py.is_empty host then None
  else
    let '(h, percent, zone) := partition "%" host in
    Some (Py.str_lower h ++ (if percent then "%" else "") ++ zone)%string.

(** [urllib.parse.urlparse(url)].  Leading control characters and spaces
    are dropped, the characters TAB, CR and LF are removed.  A host in
    square brackets must be an IP literal: as such a host is never one of
    the names the extractor looks for, every bracket is modelled as the
    [ValueError] of an invalid one. *)
Definition urlparse (url : string) : result ParseResult :=
  let url := Py.lstrip url in
  let url := remove_chars (String Re.newline (String "013" (String "009" ""))) url in
  let '(before, found, after) := partition ":" url in
  let '(scheme, url) :=
    match before with
    | String c _ =>
        if found && isalpha c && Py.all_str scheme_char before
        then (Py.str_lower before, after) else (EmptyString, url)
    | EmptyString => (EmptyString, url)
    end in
  let '(netloc, url) :=
    if prefix "//" url
    then span_until "/?#" (substring 2 (String.length url - 2) url)
    else (EmptyString, url) in
  if Py.char_in "[" netloc || Py.char_in "]" netloc then Raise ValueError
  else
    let '(url, _, fragment) := partition "#" url in
    let '(url, _, query) := partition "?" url in
    let '(url, params) :=
      if (String.eqb scheme "http" || String.eqb scheme "https") && Py.char_in ";" url
      then splitparams url else (url, EmptyString) in
    Ok (mkParse scheme netloc url params query fragment (hostname_of netloc)).

Definition hex_value (c : ascii) : option nat :=
  if Py.isdigit c then Some (Py.code c - 48)
  else if Py.between 97 102 c then Some (Py.code c - 87)
  else if Py.between 65 70 c then Some (Py.code c - 55)
  else None.

(** [unquote]: every %XX with two hexadecimal digits is the byte XX. *)
Fixpoint unquote (s : string) : string :=
  match s with
  | String "%" (String a (String b s') as t) =>
      match hex_value a, hex_value b with
      | Some x, Some y =>
          (* the two digits are consumed: skip them in the recursive result *)
          String (ascii_of_nat (16 * x + y))
            (match unquote t with
             | String _ (String _ r) => r
             | r => r
             end)
      | _, _ => String "%" (unquote t)
      end
  | String c s' => String c (unquote s')
  | EmptyString => EmptyString
  end.

Fixpoint add_value (name value : string) (d : list (string * list string))
  : list (string * list string) :=
  match d with
  | [] => [(name, [value])]
  | (n, vs) :: d' =>
      if String.eqb n name then (n, vs ++ [value]) :: d'
      else (n, vs) :: add_value name value d'
  end.

(** [urllib.parse.parse_qs(qs)]: fields separated by [&]; a field without
    [=] or with a blank value is left out. *)
Definition parse_qs (qs : string) : result (list (string * list string)) :=
  Ok (fold_left
        (fun d field =>
           let '(n, found, v) := partition "=" field in
           if found && Py.truthy v
           then add_value (unquote (Py.replace_char "+" " " n))
                          (unquote (Py.replace_char "+" " " v)) d
           else d)
        (Py.split "&" qs) []).

Definition lib : UrlLib := mkLib urlparse parse_qs.

End Urllib.

(** [not x] for an optional string: [None] and the empty string are
    false. *)
Definition falsy (x : option string) : bool :=
  match x with
  | None => true
  | Some v => Py.is_empty v
  end.

(** ** [URLExtractor] *)

Module URLExtractor.

Section Patterns.
Import Re.
Local Open Scope re_scope.

(** [a-zA-Z0-9_-] *)
Definition id_char (c : ascii) : bool :=
  Py.islower c || Py.isupper c || Py.isdigit c || Py.char_in c "_-".

(** ([a-zA-Z0-9_-]{11}) *)
Definition id_group : regex := Group 1 (rep 11 (Chr (CClass id_char))).

(** (?:https?://)? and (?:www\.)? *)
Definition opt_scheme : regex := Opt (lits "http" +++ Opt (Chr (CLit "s")) +++ lits "://").
Definition opt_www : regex := Opt (lits "www.").

(** What precedes the group, in each pattern of [self.url_patterns]. *)
Definition url_prefixes : list regex :=
  [ opt_scheme +++ opt_www +++ lits "youtube.com/watch?v=";
    opt_scheme +++ lits "youtu.be/";
    opt_scheme +++ opt_www +++ lits "youtube.com/embed/";
    opt_scheme +++ opt_www +++ lits "youtube.com/shorts/";
    opt_scheme +++ opt_www +++ lits "youtube.com/live/";
    opt_scheme +++ lits "m.youtube.com/watch?v=" ].

(** [self.url_patterns]; the last one is ^([a-zA-Z0-9_-]{11})$ *)
Definition url_patterns : list regex :=
  map (fun pre => pre +++ id_group) url_prefixes ++ [Bol +++ id_group +++ Eol].

End Patterns.

(** [URLExtractor._is_valid_video_id]; [re.match] tries the start only. *)
Definition _is_valid_video_id (video_id : string) : bool :=
  if Py.is_empty video_id then false
  else
    match Re.try_at Re.NOFLAGS
            (Re.Seq Re.Bol (Re.Seq (Re.rep 11 (Re.Chr (Re.CClass id_char))) Re.Eol))
            0 None video_id with
    | Some _ => true
    | None => false
    end.

(** [URLExtractor._extract_with_patterns] *)
Fixpoint try_patterns (ps : list Re.regex) (url : string) : option string :=
  match ps with
  | [] => None
  | pattern :: more =>
      match Re.search Re.IGNORECASE pattern url with
      | Some m =>
          match Re.group url m 1 with
          | Some video_id =>
              if _is_valid_video_id video_id then Some video_id
              else try_patterns more url
          | None => try_patterns more url
          end
      | None => try_patterns more url
      end
  end.

Definition _extract_with_patterns (url : string) : option string :=
  try_patterns url_patterns url.

Definition youtube_hosts : list string :=
  ["www.youtube.com"; "youtube.com"; "m.youtube.com"].

Definition host_in (h : option string) (l : list string) : bool :=
  match h with
  | Some x => existsb (String.eqb x) l
  | None => false
  end.

Fixpoint lookup (k : string) (d : list (string * list string)) : option (list string) :=
  match d with
  | [] => None
  | (n, vs) :: d' => if String.eqb n k then Some vs else lookup k d'
  end.

Definition validated (video_id : string) : option string :=
  if _is_valid_video_id video_id then Some video_id else None.

(** [URLExtractor.get_video_url] *)
Definition get_video_url (video_id : string) : result string :=
  if negb (_is_valid_video_id video_id) then Raise ValueError
  else Ok ("https://www.youtube.com/watch?v=" ++ video_id)%string.

Definition youtube_domains : list string :=
  ["youtube.com"; "www.youtube.com"; "m.youtube.com"; "youtu.be"].

(** [parsed_url.path.split(marker)[1].split('?')[0]] *)
Definition after_marker (marker : string) (path : string) : result string :=
  part <- index (Py.split marker path) 1 ;;
  index (Py.split "?" part) 0.

Section WithLibrary.
Variable L : UrlLib.

(** The body of the [try] block of [URLExtractor._extract_with_urlparse]:
    [Ok (Some v)] for [return v], [Ok None] when the block ends without a
    [return]. *)
Definition urlparse_body (url : string) : result (option string) :=
  let url :=
    if Py.startswith "http://" url || Py.startswith "https://" url then url
    else ("https://" ++ url)%string in
  parsed_url <- urlparse L url ;;
  if host_in (hostname parsed_url) youtube_hosts then
    if String.eqb (path parsed_url) "/watch" then
      query_params <- parse_qs L (query parsed_url) ;;
      match lookup "v" query_params with
      | None => Ok None                      (* the default [None] is false *)
      | Some vs =>
          video_id <- index vs 0 ;;
          Ok (if Py.truthy video_id then validated video_id else None)
      end
    else if Py.startswith "/embed/" (path parsed_url) then
      video_id <- after_marker "/embed/" (path parsed_url) ;;
      Ok (validated video_id)
    else if Py.startswith "/shorts/" (path parsed_url) then
      video_id <- after_marker "/shorts/" (path parsed_url) ;;
      Ok (validated video_id)
    else if Py.startswith "/live/" (path parsed_url) then
      video_id <- after_marker "/live/" (path parsed_url) ;;
      Ok (validated video_id)
    else Ok None
  else if host_in (hostname parsed_url) ["youtu.be"] then
    Ok (validated (substring 1 (String.length (path parsed_url) - 1) (path parsed_url)))
  else Ok None.

(** [URLExtractor._extract_with_urlparse]: an exception is logged and
    [None] is returned. *)
Definition _extract_with_urlparse (url : string) : result (option string) :=
  try_except (urlparse_body url) (fun _ => Ok None).

(** [URLExtractor.extract_video_id] (the class of [youtube_transcriber.py]
    has the same steps written in one method). *)
Definition extract_video_id (url : string) : result (option string) :=
  if Py.is_empty url then Ok None
  else
    let url := Py.strip url in
    let video_id := _extract_with_patterns url in
    if negb (falsy video_id) then Ok video_id
    else
      video_id <- _extract_with_urlparse url ;;
      if negb (falsy video_id) then Ok video_id else Ok None.

(** [URLExtractor.is_youtube_url]: [False] for an empty string and when
    the parsing raises. *)
Definition is_youtube_url (url : string) : bool :=
  if Py.is_empty url then false
  else
    let url :=
      if Py.startswith "http://" url || Py.startswith "https://" url then url
      else ("https://" ++ url)%string in
    match urlparse L url with
    | Ok parsed_url => host_in (hostname parsed_url) youtube_domains
    | Raise _ => false
    end.

End WithLibrary.

End URLExtractor.

(** ** [SimpleFormatter]

    The code is embedded twice: first with the functions of [Py] and [Re],
    which can be run and are Python's on ASCII text; then, in [Any], with
    Python's operations on characters as a parameter, for any text. *)

Module SimpleFormatter.

(** What a text field holds: a [str] or [None] (values of other types are
    not modelled). *)
Inductive value :=
| Str (s : string)
| NoneValue.

(** A transcript segment, by the three cases [format_transcript] tells
    apart: an object with an attribute [text], a dictionary (whose key
    ['text'] may be missing), anything else (used through [str]). *)
Inductive segment :=
| SegObject (text : value)
| SegDict (text : option value)
| SegOther (str : string).

Definition segment_text (seg : segment) : value :=
  match seg with
  | SegObject text => text
  | SegDict (Some text) => text
  | SegDict None => Str ""             (* [segment.get('text', '')] *)
  | SegOther str => Str str
  end.

Section Patterns.
Import Re.
Local Open Scope re_scope.

(** \[.*?\] *)
Definition bracketed : regex := Chr (CLit "[") +++ LazyStar CDot +++ Chr (CLit "]").
(** \s+ *)
Definition spaces : regex := Plus space.
(** (?<=[.!?])\s+ *)
Definition sentence_gap : regex :=
  Behind (CClass (fun c => Py.char_in c ".!?")) +++ Plus space.

End Patterns.

(** [text.replace('\n', ' ').strip()], then
    [re.sub(r'\[.*?\]', '', text).strip()] *)
Definition clean_text (text : value) : result string :=
  match text with
  | Str text =>
      let text := Py.strip (Py.replace_char Re.newline " " text) in
      Ok (Py.strip (Re.sub Re.NOFLAGS bracketed "" text))
  | NoneValue => Raise AttributeError     (* [None] has no [replace] *)
  end.

(** One turn of the first loop: a cleaned text that is not empty is
    appended to [all_text]. *)
Definition collect_step (all_text : list string) (seg : segment) : result (list string) :=
  text <- clean_text (segment_text seg) ;;
  Ok (if Py.truthy text then all_text ++ [text] else all_text).

Fixpoint collect_loop (all_text : list string) (segments : list segment)
  : result (list string) :=
  match segments with
  | [] => Ok all_text
  | seg :: more =>
      all_text <- collect_step all_text seg ;;
      collect_loop all_text more
  end.

Definition full_text_of (segments : list segment) : result string :=
  all_text <- collect_loop [] segments ;;
  let full_text := Py.join " " all_text in
  Ok (Re.sub Re.NOFLAGS spaces " " full_text).

Definition split_sentences (full_text : string) : list string :=
  Re.split Re.NOFLAGS sentence_gap full_text.

(** [s[0]] *)
Definition first_char (s : string) : result ascii :=
  match s with
  | String c _ => Ok c
  | EmptyString => Raise IndexError
  end.

(** [i + 1 < len(words) and words[i + 1][0].isupper()] *)
Definition next_is_upper (words : list string) (i : nat) : result bool :=
  if (i + 1 <? List.length words)%nat then
    w <- index words (i + 1) ;;
    c <- first_char w ;;
    Ok (Py.isupper c)
  else Ok false.

(** One turn of the re-segmentation loop, on the pair
    [(sentences, current_sentence)]. *)
Definition reseg_step (words : list string)
  (st : list string * list string) (i : nat) (word : string)
  : result (list string * list string) :=
  let '(sentences, current_sentence) := st in
  let current_sentence := current_sentence ++ [word] in
  if (15 <=? List.length current_sentence)%nat then
    let sentence_text := Py.join " " current_sentence in
    up <- next_is_upper words i ;;
    if up then Ok (sentences ++ [sentence_text], [])
    else if (20 <=? List.length current_sentence)%nat
         then Ok (sentences ++ [sentence_text], [])
         else Ok (sentences, current_sentence)
  else Ok (sentences, current_sentence).

Fixpoint reseg_loop (words : list string) (st : list string * list string)
  (i : nat) (todo : list string) : result (list string * list string) :=
  match todo with
  | [] => Ok st
  | word :: more =>
      st' <- reseg_step words st i word ;;
      reseg_loop words st' (S i) more
  end.

(** The body of [if len(sentences) <= 3 and len(full_text) > 200]. *)
Definition resegment (full_text : string) : result (list string) :=
  let words := Py.split_ws full_text in
  st <- reseg_loop words ([], []) 0 words ;;
  let '(sentences, current_sentence) := st in
  Ok (if Chapters.nonempty current_sentence
      then sentences ++ [Py.join " " current_sentence]
      else sentences).

(** The sentences handed to the paragraph loop ([len(full_text)] is the
    length of an ASCII text). *)
Definition sentences_of (full_text : string) : result (list string) :=
  let sentences := split_sentences full_text in
  if (List.length sentences <=? 3)%nat && (200 <? String.length full_text)%nat
  then resegment full_text
  else Ok sentences.

Definition markers : list string :=
  ["now "; "next,"; "however,"; "but "; "so "; "therefore"; "furthermore";
   "additionally"; "finally"; "in conclusion"; "let me"; "let's"; "okay";
   "alright"; "well,"].

Definition starts_with_marker (sentence : string) : bool :=
  existsb (fun m => Py.startswith m (Py.str_lower sentence)) markers.

(** One turn of the paragraph loop, on [(paragraphs, current_paragraph)]. *)
Definition para_step (st : list string * list string) (sentence : string)
  : list string * list string :=
  let '(paragraphs, current_paragraph) := st in
  let sentence := Py.strip sentence in
  if Py.is_empty sentence then st            (* continue *)
  else
    let current_paragraph := current_paragraph ++ [sentence] in
    let paragraph_text := Py.join " " current_paragraph in
    if (4 <=? List.length current_paragraph)%nat then
      (paragraphs ++ [paragraph_text], [])
    else if (500 <? String.length paragraph_text)%nat
            && (2 <=? List.length current_paragraph)%nat then
      (paragraphs ++ [paragraph_text], [])
    else if starts_with_marker sentence then
      if (1 <? List.length current_paragraph)%nat then
        let popped := removelast current_paragraph in
        let paragraphs :=
          if Chapters.nonempty popped then paragraphs ++ [Py.join " " popped]
          else paragraphs in
        (paragraphs, [sentence])
      else (paragraphs, current_paragraph)
    else (paragraphs, current_paragraph).

Definition paragraphs_of (sentences : list string) : list string :=
  let '(paragraphs, current_paragraph) := fold_left para_step sentences ([], []) in
  if Chapters.nonempty current_paragraph
  then paragraphs ++ [Py.join " " current_paragraph]
  else paragraphs.

(** [para[0].upper() + para[1:] if len(para) > 1 else para.upper()] *)
Definition capitalize (para : string) : result string :=
  if (1 <? String.length para)%nat then
    c <- first_char para ;;
    Ok (String (Py.upper c) (substring 1 (String.length para - 1) para))
  else Ok (Py.str_upper para).

(** [para[-1]] *)
Definition final_char (para : string) : result ascii :=
  match Py.last_char para with
  | Some c => Ok c
  | None => Raise IndexError
  end.

(** One turn of the last loop. *)
Definition finish_step (formatted_paragraphs : list string) (para : string)
  : result (list string) :=
  let para := Py.strip para in
  if Py.truthy para then
    para <- capitalize para ;;
    c <- final_char para ;;
    let para := if negb (Py.char_in c ".!?") then (para ++ ".")%string else para in
    Ok (formatted_paragraphs ++ [para])
  else Ok formatted_paragraphs.

Fixpoint finish_loop (formatted_paragraphs : list string) (paragraphs : list string)
  : result (list string) :=
  match paragraphs with
  | [] => Ok formatted_paragraphs
  | para :: more =>
      formatted_paragraphs <- finish_step formatted_paragraphs para ;;
      finish_loop formatted_paragraphs more
  end.

(** The list [formatted_paragraphs] at the end of [format_transcript]. *)
Definition formatted_paragraphs_of (segments : list segment) : result (list string) :=
  full_text <- full_text_of segments ;;
  sentences <- sentences_of full_text ;;
  finish_loop [] (paragraphs_of sentences).

Definition blank_line : string := String Re.newline (String Re.newline "").

(** [SimpleFormatter.format_transcript] *)
Definition format_transcript (segments : list segment) : result string :=
  match segments with
  | [] => Ok ""
  | _ =>
      formatted_paragraphs <- formatted_paragraphs_of segments ;;
      Ok (Py.join blank_line formatted_paragraphs)
  end.

(** The transcript library's [TextFormatter.format_transcript]: the texts of
    the segments joined with newlines ([str.join] takes only [str] items). *)
Fixpoint text_lines (segments : list segment) : result (list string) :=
  match segments with
  | [] => Ok []
  | seg :: more =>
      match segment_text seg with
      | Str text => lines <- text_lines more ;; Ok (text :: lines)
      | NoneValue => Raise TypeError
      end
  end.

(** ** The same code on any text

    The definitions above run on ASCII text: [Py.strip], [Py.split_ws],
    [Py.upper], [Py.isupper] and the class \s know the ASCII characters
    only, and [String.length] counts bytes.  For a [str] with other
    characters a text is the [string] of its UTF-8 encoding.  On such
    strings concatenation, [join], [replace('\n', ' ')], [startswith] with
    an ASCII prefix, the pattern \[.*?\] (whose dot leaves out the newline
    only) and the test [para[-1] in '.!?'] are those of the bytes.  What
    depends on the characters of the text is Python's library, a
    parameter. *)
Record TextLib := mkTextLib {
  lib_strip : string -> string;                 (* [s.strip()] *)
  lib_split : string -> list string;            (* [s.split()] *)
  lib_len : string -> nat;                      (* [len(s)] *)
  lib_lower : string -> string;                 (* [s.lower()] *)
  lib_upper : string -> string;                 (* [s.upper()] *)
  lib_isupper : string -> bool;                 (* [s.isupper()] *)
  lib_first : string -> option string;          (* [s[0]], [None] for IndexError *)
  lib_rest : string -> string;                  (* [s[1:]] *)
  lib_sub_spaces : string -> string;            (* [re.sub(r'\s+', ' ', s)] *)
  lib_split_sentences : string -> list string   (* [re.split(r'(?<=[.!?])\s+', s)] *)
}.

Module Any.
Section Lib.
Variable L : TextLib.

Definition clean_text (text : value) : result string :=
  match text with
  | Str text =>
      let text := lib_strip L (Py.replace_char Re.newline " " text) in
      Ok (lib_strip L (Re.sub Re.NOFLAGS bracketed "" text))
  | NoneValue => Raise AttributeError
  end.

Definition collect_step (all_text : list string) (seg : segment) : result (list string) :=
  text <- clean_text (segment_text seg) ;;
  Ok (if Py.truthy text then all_text ++ [text] else all_text).

Fixpoint collect_loop (all_text : list string) (segments : list segment)
  : result (list string) :=
  match segments with
  | [] => Ok all_text
  | seg :: more =>
      all_text <- collect_step all_text seg ;;
      collect_loop all_text more
  end.

Definition full_text_of (segments : list segment) : result string :=
  all_text <- collect_loop [] segments ;;
  let full_text := Py.join " " all_text in
  Ok (lib_sub_spaces L full_text).

(** [s[0]] *)
Definition first_char (s : string) : result string :=
  match lib_first L s with
  | Some c => Ok c
  | None => Raise IndexError
  end.

(** [i + 1 < len(words) and words[i + 1][0].isupper()] *)
Definition next_is_upper (words : list string) (i : nat) : result bool :=
  if (i + 1 <? List.length words)%nat then
    w <- index words (i + 1) ;;
    c <- first_char w ;;
    Ok (lib_isupper L c)
  else Ok false.

Definition reseg_step (words : list string)
  (st : list string * list string) (i : nat) (word : string)
  : result (list string * list string) :=
  let '(sentences, current_sentence) := st in
  let current_sentence := current_sentence ++ [word] in
  if (15 <=? List.length current_sentence)%nat then
    let sentence_text := Py.join " " current_sentence in
    up <- next_is_upper words i ;;
    if up then Ok (sentences ++ [sentence_text], [])
    else if (20 <=? List.length current_sentence)%nat
         then Ok (sentences ++ [sentence_text], [])
         else Ok (sentences, current_sentence)
  else Ok (sentences, current_sentence).

Fixpoint reseg_loop (words : list string) (st : list string * list string)
  (i : nat) (todo : list string) : result (list string * list string) :=
  match todo with
  | [] => Ok st
  | word :: more =>
      st' <- reseg_step words st i word ;;
      reseg_loop words st' (S i) more
  end.

(** The body of [if len(sentences) <= 3 and len(full_text) > 200]. *)
Definition resegment (full_text : string) : result (list string) :=
  let words := lib_split L full_text in
  st <- reseg_loop words ([], []) 0 words ;;
  let '(sentences, current_sentence) := st in
  Ok (if Chapters.nonempty current_sentence
      then sentences ++ [Py.join " " current_sentence]
      else sentences).

Definition sentences_of (full_text : string) : result (list string) :=
  let sentences := lib_split_sentences L full_text in
  if (List.length sentences <=? 3)%nat && (200 <? lib_len L full_text)%nat
  then resegment full_text
  else Ok sentences.

Definition starts_with_marker (sentence : string) : bool :=
  existsb (fun m => Py.startswith m (lib_lower L sentence)) markers.

Definition para_step (st : list string * list string) (sentence : string)
  : list string * list string :=
  let '(paragraphs, current_paragraph) := st in
  let sentence := lib_strip L sentence in
  if Py.is_empty sentence then st            (* continue *)
  else
    let current_paragraph := current_paragraph ++ [sentence] in
    let paragraph_text := Py.join " " current_paragraph in
    if (4 <=? List.length current_paragraph)%nat then
      (paragraphs ++ [paragraph_text], [])
    else if (500 <? lib_len L paragraph_text)%nat
            && (2 <=? List.length current_paragraph)%nat then
      (paragraphs ++ [paragraph_text], [])
    else if starts_with_marker sentence then
      if (1 <? List.length current_paragraph)%nat then
        let popped := removelast current_paragraph in
        let paragraphs :=
          if Chapters.nonempty popped then paragraphs ++ [Py.join " " popped]
          else paragraphs in
        (paragraphs, [sentence])
      else (paragraphs, current_paragraph)
    else (paragraphs, current_paragraph).

Definition paragraphs_of (sentences : list string) : list string :=
  let '(paragraphs, current_paragraph) := fold_left para_step sentences ([], []) in
  if Chapters.nonempty current_paragraph
  then paragraphs ++ [Py.join " " current_paragraph]
  else paragraphs.

(** [para[0].upper() + para[1:] if len(para) > 1 else para.upper()] *)
Definition capitalize (para : string) : result string :=
  if (1 <? lib_len L para)%nat then
    c <- first_char para ;;
    Ok (lib_upper L c ++ lib_rest L para)%string
  else Ok (lib_upper L para).

Definition finish_step (formatted_paragraphs : list string) (para : string)
  : result (list string) :=
  let para := lib_strip L para in
  if Py.truthy para then
    para <- capitalize para ;;
    c <- final_char para ;;
    let para := if negb (Py.char_in c ".!?") then (para ++ ".")%string else para in
    Ok (formatted_paragraphs ++ [para])
  else Ok formatted_paragraphs.

Fixpoint finish_loop (formatted_paragraphs : list string) (paragraphs : list string)
  : result (list string) :=
  match paragraphs with
  | [] => Ok formatted_paragraphs
  | para :: more =>
      formatted_paragraphs <- finish_step formatted_paragraphs para ;;
      finish_loop formatted_paragraphs more
  end.

Definition formatted_paragraphs_of (segments : list segment) : result (list string) :=
  full_text <- full_text_of segments ;;
  sentences <- sentences_of full_text ;;
  finish_loop [] (paragraphs_of sentences).

(** [SimpleFormatter.format_transcript] *)
Definition format_transcript (segments : list segment) : result string :=
  match segments with
  | [] => Ok ""
  | _ =>
      formatted_paragraphs <- formatted_paragraphs_of segments ;;
      Ok (Py.join blank_line formatted_paragraphs)
  end.

End Lib.
End Any.

(** Python's library on ASCII text. *)
Definition ascii_lib : TextLib :=
  mkTextLib Py.strip Py.split_ws String.length Py.str_lower Py.str_upper
            Py.str_isupper
            (fun s => match s with
                      | String c _ => Some (String c "")
                      | EmptyString => None
                      end)
            (fun s => substring 1 (String.length s - 1) s)
            (Re.sub Re.NOFLAGS spaces " ")
            split_sentences.

End SimpleFormatter.

(** ** The providers and the effects of a request

    A request runs in a monad that carries the log of what it did to the
    outside world and may end in an exception. *)

Inductive event :=
| MetadataCall (video_id : string)      (* [ydl.extract_info] *)
| TranscriptCall (video_id : string)    (* [YouTubeTranscriptApi().list] *)
| FetchCall (language : string)         (* [transcript.fetch] *)
| Stdout (text : string)                (* [print(text)] *)
| Stderr (text : string)                (* [print(text, file=sys.stderr)] *)
| FileWrite (name text : string).

Definition is_provider_call (e : event) : bool :=
  match e with
  | MetadataCall _ | TranscriptCall _ | FetchCall _ => true
  | _ => false
  end.

Definition M (A : Type) : Type := list event -> result A * list event.

Definition ret {A : Type} (a : A) : M A := fun log => (Ok a, log).
Definition raise {A : Type} (e : exn) : M A := fun log => (Raise e, log).
Definition emit (e : event) : M unit := fun log => (Ok tt, log ++ [e]).
Definition lift {A : Type} (x : result A) : M A := fun log => (x, log).

Definition bindM {A B : Type} (x : M A) (f : A -> M B) : M B :=
  fun log =>
    match x log with
    | (Ok a, log') => f a log'
    | (Raise e, log') => (Raise e, log')
    end.

Definition try_exceptM {A : Type} (body : M A) (handler : exn -> M A) : M A :=
  fun log =>
    match body log with
    | (Ok a, log') => (Ok a, log')
    | (Raise e, log') => handler e log'
    end.

Notation "x <~ c1 ;; c2" := (bindM c1 (fun x => c2))
  (at level 61, c1 at next level, right associativity).
Notation "c1 ;;; c2" := (bindM c1 (fun _ => c2))
  (at level 61, right associativity).

(** A caption track of the transcript provider. *)
Record track := mkTrack {
  language : string;
  language_code : string;
  is_generated : bool;
  fetch : result (list SimpleFormatter.segment)
}.

(** What the program gets from outside: the answers of the two providers,
    [str(e)] for an exception, and what the validation of the response
    model makes of a [float] given for a field declared [int] (the integer,
    or [None] when it refuses the value: the choice of the validation
    library, which differs between its versions). *)
Record Providers := mkProviders {
  extract_info : string -> result Chapters.info_dict;
  list_tracks : string -> result (list track);
  str_of_exn : exn -> string;
  int_of_float : Py.number -> option Z
}.

Section Services.
Variable L : UrlLib.
Variable P : Providers.

Definition call_extract_info (video_id : string) : M Chapters.info_dict :=
  emit (MetadataCall video_id) ;;; lift (extract_info P video_id).

(** The choice of a track, common to [TranscriptService._extract_transcript]
    and [YouTubeTranscriber.extract_transcript]: English ([find_transcript]
    looks among the manual tracks, then among the generated ones), else a
    manual English track, else a generated English track, else the first
    track; [None] when there is no track. *)
Definition find_track (p : track -> bool) (tracks : list track) : result track :=
  match find p tracks with
  | Some t => Ok t
  | None => Raise (Exception "NoTranscriptFound")
  end.

Definition is_en (t : track) : bool := String.eqb (language_code t) "en".

Definition find_manually_created_transcript (tracks : list track) : result track :=
  find_track (fun t => is_en t && negb (is_generated t)) tracks.
Definition find_generated_transcript (tracks : list track) : result track :=
  find_track (fun t => is_en t && is_generated t) tracks.
Definition find_transcript (tracks : list track) : result track :=
  try_except (find_manually_created_transcript tracks)
             (fun _ => find_generated_transcript tracks).

Definition select_track (tracks : list track) : option track :=
  match find_transcript tracks with
  | Ok t => Some t
  | Raise _ =>
      match find_manually_created_transcript tracks with
      | Ok t => Some t
      | Raise _ =>
          match find_generated_transcript tracks with
          | Ok t => Some t
          | Raise _ => hd_error tracks
          end
      end
  end.

Definition list_and_select (video_id : string) : M (option track) :=
  emit (TranscriptCall video_id) ;;;
  tracks <~ lift (list_tracks P video_id) ;;
  ret (select_track tracks).

Definition fetch_track (t : track) : M (list SimpleFormatter.segment) :=
  emit (FetchCall (language t)) ;;; lift (fetch t).

(** *** [app/services]: [TranscriptService] and [ChapterService] *)

Record transcript_data := mkData {
  data_transcript : string;
  data_title : Chapters.text_value;
  data_duration : Chapters.duration_value
}.

(** [TranscriptService._clean_transcript] *)
Definition _clean_transcript (transcript : string) : string :=
  if Py.is_empty transcript then ""
  else
    let lines := Py.split nl transcript in
    let cleaned_lines :=
      fold_left
        (fun cleaned line =>
           let line := Py.strip line in
           if Py.truthy line && negb (Py.startswith "[" line)
              && negb (Py.startswith "(" line)
           then cleaned ++ [Py.join " " (Py.split_ws line)]
           else cleaned)
        lines [] in
    Py.join SimpleFormatter.blank_line cleaned_lines.

(** [TranscriptService._get_video_metadata]: title and duration, the
    defaults for a missing key and when the provider fails. *)
Definition _get_video_metadata (video_id : string)
  : M (Chapters.text_value * Chapters.duration_value) :=
  try_exceptM
    (info <~ call_extract_info video_id ;;
     ret (Chapters.get (Chapters.info_title info) (Chapters.Text ""),
          Chapters.get (Chapters.info_duration info) (Chapters.DurationInt 0)))
    (fun _ => ret (Chapters.Text "", Chapters.DurationInt 0)).

(** [TranscriptService._extract_transcript]; the library's [TextFormatter]
    joins the texts of the segments with newlines. *)
Definition _extract_transcript (video_id : string) : M string :=
  try_exceptM
    (transcript <~ list_and_select video_id ;;
     match transcript with
     | None => raise (Exception "No transcript available for this video")
     | Some t =>
         transcript_data <~ fetch_track t ;;
         lines <~ lift (SimpleFormatter.text_lines transcript_data) ;;
         let formatted_transcript := Py.join nl lines in
         ret (_clean_transcript formatted_transcript)
     end)
    (fun e => raise (Exception ("Failed to extract transcript: " ++ str_of_exn P e)%string)).

(** [TranscriptService.get_transcript] *)
Definition service_get_transcript (video_id : string) : M transcript_data :=
  try_exceptM
    (metadata <~ _get_video_metadata video_id ;;
     transcript_text <~ _extract_transcript video_id ;;
     ret (mkData transcript_text (fst metadata) (snd metadata)))
    (fun e => raise (Exception ("Failed to extract transcript: " ++ str_of_exn P e)%string)).

(** The provider's answer as the chapter strategies take it. *)
Definition ask_info (video_id : string) : M (option Chapters.info_dict) :=
  try_exceptM (info <~ call_extract_info video_id ;; ret (Some info))
              (fun _ => ret None).

(** [ChapterService.get_chapters]: each strategy asks the provider anew. *)
Definition get_chapters (video_id : string) : M (list Chapters.ChapterData) :=
  info <~ ask_info video_id ;;
  let chapters := Chapters._extract_chapters_from_metadata info in
  if Chapters.nonempty chapters then ret chapters
  else
    info <~ ask_info video_id ;;
    ret (Chapters._extract_chapters_from_description info).

(** *** [app/main.py] *)

Record TranscriptResponse := mkResponse {
  resp_video_id : string;
  resp_title : string;
  resp_transcript : string;
  resp_chapters : list Chapters.ChapterData;
  resp_duration : Z
}.

(** The validation of the fields [title: str] and [duration: int] of the
    response model; the other fields are given values of their types. *)
Definition valid_title (title : Chapters.text_value) : option string :=
  match title with
  | Chapters.Text s => Some s
  | Chapters.TextNone => None
  end.

Definition valid_duration (duration : Chapters.duration_value) : option Z :=
  match duration with
  | Chapters.DurationInt z => Some z
  | Chapters.DurationFloat x => int_of_float P x
  | Chapters.DurationNone => None
  end.

(** [TranscriptResponse(video_id=..., title=..., transcript=...,
    chapters=..., duration=...)] *)
Definition make_response (video_id : string) (title : Chapters.text_value)
  (transcript : string) (chapters : list Chapters.ChapterData)
  (duration : Chapters.duration_value) : result TranscriptResponse :=
  match valid_title title, valid_duration duration with
  | Some title, Some duration =>
      Ok (mkResponse video_id title transcript chapters duration)
  | _, _ => Raise ValidationError
  end.

(** The handler of [POST /api/transcript]. *)
Definition get_transcript (request_url : string) : M TranscriptResponse :=
  try_exceptM
    (video_id <~ lift (URLExtractor.extract_video_id L request_url) ;;
     if falsy video_id then raise (HTTPException 400 "Invalid YouTube URL")
     else
       let video_id := Chapters.get video_id "" in
       transcript_data <~ service_get_transcript video_id ;;
       chapters <~ get_chapters video_id ;;
       lift (make_response video_id (data_title transcript_data)
                           (data_transcript transcript_data) chapters
                           (data_duration transcript_data)))
    (fun e => raise (HTTPException 500 (str_of_exn P e))).

(** The status code of the HTTP response: that of the [HTTPException],
    200 for a returned value. *)
Definition status_of {A : Type} (r : result A) : Z :=
  match r with
  | Ok _ => 200
  | Raise (HTTPException status_code _) => status_code
  | Raise _ => 500
  end.

(** *** [youtube_transcriber.py]: [YouTubeTranscriber] *)

(** The dictionary [get_video_metadata] returns: it always has the keys
    ['title'] and ['duration']; the key ['uploader'] is missing when the
    provider failed. *)
Record metadata := mkMeta {
  meta_title : Chapters.text_value;
  meta_duration : Chapters.duration_value;
  meta_uploader : option Chapters.text_value
}.

Definition get_video_metadata (video_id : string) : M metadata :=
  try_exceptM
    (info <~ call_extract_info video_id ;;
     ret (mkMeta (Chapters.get (Chapters.info_title info) (Chapters.Text "Untitled"))
                 (Chapters.get (Chapters.info_duration info) (Chapters.DurationInt 0))
                 (Some (Chapters.get (Chapters.info_uploader info)
                                     (Chapters.Text "Unknown")))))
    (fun e =>
       emit (Stderr ("Warning: Could not fetch video metadata: " ++ str_of_exn P e)%string) ;;;
       ret (mkMeta (Chapters.Text "Unknown Title") (Chapters.DurationInt 0) None)).

Definition extract_transcript (video_id : string) : M (option string) :=
  try_exceptM
    (transcript <~ list_and_select video_id ;;
     match transcript with
     | None => ret None
     | Some t =>
         (if negb (existsb is_en [t])
          then emit (Stderr ("Using transcript in language: " ++ language t)%string)
          else ret tt) ;;;
         transcript_data <~ fetch_track t ;;
         formatted_transcript <~ lift (SimpleFormatter.format_transcript transcript_data) ;;
         ret (Some formatted_transcript)
     end)
    (fun e =>
       emit (Stderr ("Error extracting transcript: " ++ str_of_exn P e)%string) ;;;
       ret None).

Definition when (b : bool) (c : M unit) : M unit := if b then c else ret tt.

Fixpoint repeat_char (c : ascii) (n : nat) : string :=
  match n with
  | O => EmptyString
  | S n' => String c (repeat_char c n')
  end.

(** [f'{v}'] for a title or an uploader. *)
Definition str_of_text (v : Chapters.text_value) : string :=
  match v with
  | Chapters.Text s => s
  | Chapters.TextNone => "None"
  end.

(** The line of the duration, if any: [if metadata.get('duration')] skips
    [None] and zero; the fields are written with [{:02d}], which raises
    [ValueError] for a [float]. *)
Definition duration_lines (duration : Chapters.duration_value) : result (list string) :=
  match duration with
  | Chapters.DurationNone => Ok []
  | Chapters.DurationInt z =>
      if (z =? 0)%Z then Ok []
      else Ok [("Duration: " ++ Timestamp._format_timestamp z)%string]
  | Chapters.DurationFloat x =>
      if Py.number_truthy x then Raise ValueError else Ok []
  end.

(** The lines of the banner of [process_url]. *)
Definition banner (md : metadata) (video_id : string) : result (list string) :=
  duration <- duration_lines (meta_duration md) ;;
  Ok ([repeat_char "=" 80;
       ("Title: " ++ str_of_text (meta_title md))%string;
       ("Uploader: " ++ str_of_text (Chapters.get (meta_uploader md)
                                                  (Chapters.Text "Unknown")))%string]
      ++ duration
      ++ [("URL: https://www.youtube.com/watch?v=" ++ video_id)%string;
          repeat_char "=" 80;
          ""]).

Section AutoName.
Import Re.
Local Open Scope re_scope.
Definition word_char (c : ascii) : bool :=
  Py.islower c || Py.isupper c || Py.isdigit c || Ascii.eqb c "_".
(** [^\w\s-] and [-\s]+ *)
Definition unsafe_char : regex :=
  Chr (CClass (fun c => negb (word_char c || Py.isspace c || Ascii.eqb c "-"))).
Definition dashes : regex := Plus (CClass (fun c => Ascii.eqb c "-" || Py.isspace c)).
End AutoName.

(** The file name for [output_file == 'auto']; [now] is the text of
    [datetime.now().strftime('%Y%m%d_%H%M%S')].  [re.sub] raises
    [TypeError] for a title that is [None]. *)
Definition auto_name (now : string) (md : option metadata) : result string :=
  title <- match md with
           | Some m =>
               match meta_title m with
               | Chapters.Text s => Ok s
               | Chapters.TextNone => Raise TypeError
               end
           | None => Ok "transcript"%string
           end ;;
  let safe_title := Re.sub Re.NOFLAGS unsafe_char "" title in
  let safe_title := substring 0 100 (Re.sub Re.NOFLAGS dashes "-" safe_title) in
  Ok (safe_title ++ "_" ++ now ++ ".txt")%string.

(** [YouTubeTranscriber.process_url]; [md = None] is the empty dictionary
    of a run without metadata. *)
Definition process_url (now : string) (url : string) (output_file : option string)
  (include_metadata quiet : bool) : M bool :=
  when (negb quiet) (emit (Stdout ("Processing: " ++ url)%string)) ;;;
  video_id <~ lift (URLExtractor.extract_video_id L url) ;;
  if falsy video_id then
    emit (Stderr ("Error: Could not extract video ID from URL: " ++ url)%string) ;;;
    ret false
  else
    let video_id := Chapters.get video_id "" in
    when (negb quiet) (emit (Stdout ("Video ID: " ++ video_id)%string)) ;;;
    md <~ (if include_metadata
           then (m <~ get_video_metadata video_id ;; ret (Some m))
           else ret None) ;;
    transcript <~ extract_transcript video_id ;;
    if falsy transcript then
      emit (Stderr ("Error: No transcript available for video ID: " ++ video_id)%string) ;;;
      ret false
    else
      let transcript := Chapters.get transcript "" in
      banner_lines <~ lift match md with
                           | Some m => if include_metadata then banner m video_id else Ok []
                           | None => Ok []
                           end ;;
      let output_lines := banner_lines ++ [transcript] in
      let output_text := Py.join nl output_lines in
      match output_file with
      | Some name =>
          if Py.is_empty name then emit (Stdout output_text) ;;; ret true
          else
            name <~ lift (if String.eqb name "auto" then auto_name now md else Ok name) ;;
            emit (FileWrite name output_text) ;;;
            when (negb quiet) (emit (Stdout ("Transcript saved to: " ++ name)%string)) ;;;
            ret true
      | None => emit (Stdout output_text) ;;; ret true
      end.

(** *** [YouTubeTranscriber.process_batch] *)

(** [os.path.join(a, b)], on a POSIX system. *)
Definition path_join (a b : string) : string :=
  if Py.startswith "/" b then b
  else if Py.is_empty a
          || match Py.last_char a with Some c => Ascii.eqb c "/" | None => false end
  then (a ++ b)%string
  else (a ++ "/" ++ b)%string.

(** What a batch does to the outside world. *)
Inductive batch_event :=
| MakeDirs (dir : string)        (* [os.makedirs(dir)] *)
| Progress (text : string)       (* [print(text, end='')] *)
| OfUrl (e : event).             (* an effect of [process_url] *)

(** [results[url] = success]: a key that is already there keeps its place. *)
Fixpoint dict_set (url : string) (success : bool) (results : list (string * bool))
  : list (string * bool) :=
  match results with
  | [] => [(url, success)]
  | (k, v) :: more =>
      if String.eqb k url then (k, success) :: more
      else (k, v) :: dict_set url success more
  end.

(** The progress mark of the [i]-th URL of [n]: a newline, then [i/n] in
    square brackets and a space. *)
Definition progress_text (i n : nat) : string :=
  (nl ++ "[" ++ Py.str_of_N (N.of_nat i) ++ "/" ++ Py.str_of_N (N.of_nat n) ++ "] ")%string.

(** The loop of [process_batch], from the [i]-th URL on; [clock i] is the
    text of the time at which the [i]-th URL is processed. *)
Fixpoint batch_loop (clock : nat -> string) (n : nat) (output_dir : option string)
  (include_metadata quiet : bool) (i : nat) (urls : list string)
  (results : list (string * bool)) (log : list batch_event)
  : result (list (string * bool)) * list batch_event :=
  match urls with
  | [] => (Ok results, log)
  | url :: more =>
      let log := if negb quiet then log ++ [Progress (progress_text i n)] else log in
      let output_file :=
        if negb (falsy output_dir)
        then Some (path_join (Chapters.get output_dir "") "auto")
        else None in
      match process_url (clock i) url output_file include_metadata quiet [] with
      | (Ok success, effects) =>
          batch_loop clock n output_dir include_metadata quiet (S i) more
                     (dict_set url success results) (log ++ map OfUrl effects)
      | (Raise e, effects) => (Raise e, log ++ map OfUrl effects)
      end
  end.

(** [YouTubeTranscriber.process_batch]; [dir_exists] is the answer of
    [os.path.exists(output_dir)]. *)
Definition process_batch (clock : nat -> string) (dir_exists : bool)
  (urls : list string) (output_dir : option string)
  (include_metadata quiet : bool)
  : result (list (string * bool)) * list batch_event :=
  let log :=
    if negb (falsy output_dir) && negb dir_exists
    then [MakeDirs (Chapters.get output_dir "")] else [] in
  batch_loop clock (List.length urls) output_dir include_metadata quiet 1 urls [] log.

End Services.

(* ================================================================== *)
(** * Part II: the terms of the statements                            *)
(* ================================================================== *)

Section StringsTerms.
Local Open Scope nat_scope.
Local Open Scope string_scope.

(** A text of ASCII characters. *)
Definition ascii_only (s : string) : bool :=
  Py.all_str (fun c => (Py.code c <? 128)%nat) s.

(** The number that a string of decimal digits writes: the digits are
    read from the left, each one after ten times what was read before. *)
Definition digit_value (c : ascii) : N := N.of_nat (Py.code c - 48).

Fixpoint decimal_from (acc : N) (s : string) : N :=
  match s with
  | EmptyString => acc
  | String c s' => decimal_from (10 * acc + digit_value c) s'
  end.

Definition decimal (s : string) : N := decimal_from 0 s.

(** The same reading of a list of digits. *)
Fixpoint uint_value (acc : N) (d : Decimal.uint) : N :=
  match d with
  | Nil => acc
  | D0 d' => uint_value (10 * acc) d'
  | D1 d' => uint_value (10 * acc + 1) d'
  | D2 d' => uint_value (10 * acc + 2) d'
  | D3 d' => uint_value (10 * acc + 3) d'
  | D4 d' => uint_value (10 * acc + 4) d'
  | D5 d' => uint_value (10 * acc + 5) d'
  | D6 d' => uint_value (10 * acc + 6) d'
  | D7 d' => uint_value (10 * acc + 7) d'
  | D8 d' => uint_value (10 * acc + 8) d'
  | D9 d' => uint_value (10 * acc + 9) d'
  end.

Definition lacks (c : ascii) (s : string) : bool :=
  Py.all_str (fun d => negb (Ascii.eqb d c)) s.

End StringsTerms.

Section TimestampsTerms.
Import Timestamp.
Local Open Scope nat_scope.
Local Open Scope string_scope.

(** The digit of [d], for [0 <= d <= 9], and a number below 100 written
    with two digits. *)
Definition digit_char (d : Z) : ascii := ascii_of_nat (48 + Z.to_nat d).

Definition two_digits (n : Z) : string :=
  String (digit_char (n / 10)) (String (digit_char (n mod 10)) "").

Definition is_field (f : string) : bool := Py.truthy f && Py.all_str Py.isdigit f.

(** A colon-delimited timestamp with 2 or 3 numeric groups. *)
Definition valid_timestamp (s : string) : bool :=
  let parts := Py.split ":" s in
  ((List.length parts =? 2)%nat || (List.length parts =? 3)%nat) && forallb is_field parts.

(** The fields [format] writes. *)
Definition below_60 (f : string) : bool :=
  match f with
  | String a (String b EmptyString) => Py.between 48 53 a && Py.isdigit b
  | _ => false
  end.
Definition hours_field (f : string) : bool :=
  match f with
  | String a (String b EmptyString) =>
      Py.isdigit a && Py.isdigit b && negb (String.eqb f "00")
  | String a (String _ (String _ _)) =>
      Py.all_str Py.isdigit f && negb (Ascii.eqb a "0")
  | _ => false
  end.
Definition canonical_timestamp (s : string) : bool :=
  match Py.split ":" s with
  | [m; x] => below_60 m && below_60 x
  | [h; m; x] => hours_field h && below_60 m && below_60 x
  | _ => false
  end.

End TimestampsTerms.

Section ChaptersTerms.
Import Timestamp Chapters.
Local Open Scope nat_scope.
Local Open Scope string_scope.
Local Open Scope list_scope.

(** [int(chapter.get('start_time', 0))] *)
Definition start_of (c : raw_chapter) : Z :=
  Py.trunc (get (raw_start_time c) (Py.of_int 0)).
Definition own_end (c : raw_chapter) : option Z := truthy_end (raw_end_time c).

(** The chapter of the [i]-th record, with the end it finally has. *)
Definition chapter_of (i : nat) (c : raw_chapter) (e : option Z) : ChapterData :=
  mkChapter (get (raw_title c) (default_title i)) (start_of c) e
            (_format_timestamp (start_of c)).

(** Each chapter closed by its own end, else by the start of its successor. *)
Fixpoint linked (i : nat) (l : list raw_chapter) : list ChapterData :=
  match l with
  | [] => []
  | c :: rest =>
      chapter_of i c
        (match own_end c with
         | Some e => Some e
         | None => option_map start_of (hd_error rest)
         end)
      :: linked (S i) rest
  end.

(** [acc] once the next record [l] is known. *)
Definition closed_by (acc : list ChapterData) (l : list raw_chapter) : list ChapterData :=
  match l with
  | [] => acc
  | c :: _ => get (update_last (backfill (start_of c)) acc) acc
  end.

Fixpoint nondecreasing (l : list Z) : bool :=
  match l with
  | a :: (b :: _) as t => (a <=? b)%Z && nondecreasing t
  | _ => true
  end.

(** The matches of the description that become chapters:
    (title, start, timestamp text). *)
Definition kept_match (m : string * string) : list (string * Z * string) :=
  match _parse_timestamp (Py.strip (fst m)) with
  | Some t =>
      if Py.truthy (clean_title (snd m)) then [(clean_title (snd m), t, fst m)] else []
  | None => []
  end.

Definition kept (ms : list (string * string)) : list (string * Z * string) :=
  flat_map kept_match ms.

(** Chapters in a chain: each ends where the next one starts. *)
Fixpoint chain (k : list (string * Z * string)) : list ChapterData :=
  match k with
  | [] => []
  | (t, s, ts) :: rest =>
      mkChapter t s (option_map (fun x => snd (fst x)) (hd_error rest)) ts :: chain rest
  end.

(** The chapters of the matches of one pattern. *)
Definition chapters_of_matches (ms : list (string * string)) : list ChapterData :=
  fold_left description_step ms [].

Fixpoint first_nonempty {A : Type} (ls : list (list A)) : list A :=
  match ls with
  | [] => []
  | [] :: more => first_nonempty more
  | l :: _ => l
  end.



(** [ends_linked R]: every chapter ends where the next one starts, the last
    one has no end. *)
Definition ends_linked (R : list ChapterData) : Prop :=
  forall i r, nth_error R i = Some r ->
    end_time r = option_map start_time (nth_error R (S i)).

Definition example_metadata : list raw_chapter :=
  [ mkRaw (Some "A") (Some (Py.of_int 0)) None;
    mkRaw (Some "B") (Some (Py.of_int 30)) None;
    mkRaw (Some "C") (Some (Py.of_int 90)) (Some (Py.of_int 120)) ].

Definition info_with (chapters_data : list raw_chapter) : info_dict :=
  mkInfo None None None None (Some chapters_data).

Definition chained (R : list ChapterData) : Prop :=
  forall i r r', nth_error R i = Some r -> nth_error R (S i) = Some r' ->
    end_time r = Some (start_time r').

Definition only_last_open (R : list ChapterData) : Prop :=
  forall i r, nth_error R i = Some r -> end_time r = None -> nth_error R (S i) = None.

(** The invariant of the data model, as the spec words it. *)
Definition chapter_invariant (R : list ChapterData) : Prop :=
  nondecreasing (map start_time R) = true /\ chained R /\ only_last_open R.


End ChaptersTerms.

Section ReflowTerms.
Import SimpleFormatter.
Local Open Scope nat_scope.
Local Open Scope string_scope.
Local Open Scope list_scope.

Definition starts_upper (w : option string) : bool :=
  match w with
  | Some (String c _) => Py.isupper c
  | _ => false
  end.

(** The candidate of [n] words is closed when it has reached 15 words and
    the following word starts with an uppercase letter, or has reached 20. *)
Definition closes (n : nat) (next : option string) : bool :=
  ((15 <=? n)%nat && starts_upper next) || (20 <=? n)%nat.

(** The re-segmentation as the spec words it: words are added to the
    candidate [cand], which is closed as soon as [closes] holds; the words
    left at the end form a last sentence. *)
Fixpoint reseg_spec (cand : list string) (ws : list string) : list string :=
  match ws with
  | [] => if Chapters.nonempty cand then [Py.join " " cand] else []
  | w :: rest =>
      if closes (List.length (cand ++ [w])) (hd_error rest)
      then Py.join " " (cand ++ [w]) :: reseg_spec [] rest
      else reseg_spec (cand ++ [w]) rest
  end.

Definition good_start (p : string) : bool :=
  match p with
  | String c _ => negb (Py.islower c)
  | EmptyString => false
  end.

Definition starts_with_uppercase (p : string) : bool :=
  match p with
  | String c _ => Py.isupper c
  | EmptyString => false
  end.

(** The text of the segment is a [str]. *)
Definition text_is_str (seg : segment) : bool :=
  match segment_text seg with
  | Str _ => true
  | NoneValue => false
  end.

Definition good_end (p : string) : bool :=
  match Py.last_char p with
  | Some c => Py.char_in c ".!?"
  | None => false
  end.

(** The same vocabulary with the tests on characters taken from a text
    library. *)
Definition starts_upper_in (L : TextLib) (w : option string) : bool :=
  match w with
  | Some w =>
      match lib_first L w with
      | Some c => lib_isupper L c
      | None => false
      end
  | None => false
  end.

Definition closes_in (L : TextLib) (n : nat) (next : option string) : bool :=
  ((15 <=? n)%nat && starts_upper_in L next) || (20 <=? n)%nat.

Fixpoint reseg_spec_in (L : TextLib) (cand : list string) (ws : list string)
  : list string :=
  match ws with
  | [] => if Chapters.nonempty cand then [Py.join " " cand] else []
  | w :: rest =>
      if closes_in L (List.length (cand ++ [w])) (hd_error rest)
      then Py.join " " (cand ++ [w]) :: reseg_spec_in L [] rest
      else reseg_spec_in L (cand ++ [w]) rest
  end.

(** What a text library of Python obeys: [split()] gives no empty word; a
    text that is not empty has a first character, [s == s[0] + s[1:]], and
    [s[1:]] is empty when [len(s) <= 1]; the upper-casing of a text that is
    not empty is not empty. *)
Record text_laws (L : TextLib) : Prop := mkLaws {
  laws_words : forall s w, In w (lib_split L s) -> w <> ""%string;
  laws_first : forall s, s <> ""%string -> lib_first L s <> None;
  laws_first_rest : forall s c, lib_first L s = Some c ->
                 c <> ""%string /\ s = (c ++ lib_rest L s)%string;
  laws_short_rest : forall s, lib_len L s <= 1 -> lib_rest L s = ""%string;
  laws_upper : forall s, s <> ""%string -> lib_upper L s <> ""%string
}.

(** A paragraph with its first character upper-cased. *)
Definition capitalized (L : TextLib) (para : string) : string :=
  match lib_first L para with
  | Some c => (lib_upper L c ++ lib_rest L para)%string
  | None => para
  end.

(** A paragraph as it is written out: its first character upper-cased, and
    a full stop added unless it ends in '.', '!' or '?'. *)
Definition finished (L : TextLib) (para : string) : string :=
  let p := capitalized L para in
  if good_end p then p else (p ++ ".")%string.

(** The paragraphs that are written out: those that are not blank,
    stripped. *)
Definition written (L : TextLib) (paragraphs : list string) : list string :=
  filter Py.truthy (map (lib_strip L) paragraphs).

Definition good_paragraph (p : string) : bool := good_start p && good_end p.

Definition long_text : string :=
  "one two three four five six seven eight nine ten eleven twelve thirteen fourteen fifteen Sixteen seventeen eighteen nineteen twenty twentyone twentytwo twentythree twentyfour twentyfive twentysix twentyseven twentyeight twentynine thirty thirtyone thirtytwo thirtythree thirtyfour thirtyfive thirtysix thirtyseven thirtyeight".

End ReflowTerms.

Section RequestsTerms.
Local Open Scope nat_scope.
Local Open Scope string_scope.
Local Open Scope list_scope.

Definition no_provider : Providers :=
  mkProviders (fun _ => Raise (Exception "unreachable"))
              (fun _ => Raise (Exception "unreachable"))
              (fun _ => "400: Invalid YouTube URL"%string)
              (fun _ => None).

End RequestsTerms.

Section MatcherTerms.
Import Re.
Local Open Scope nat_scope.
Local Open Scope string_scope.
Local Open Scope list_scope.

Fixpoint greedy_all (fl : flags) (cs : cset) (p : nat) (pv : option ascii)
  (cp : list (nat * (nat * nat))) (s : string) : list state :=
  match s with
  | EmptyString => [State p pv s cp]
  | String c s' =>
      if test fl cs c
      then greedy_all fl cs (S p) (Some c) cp s' ++ [State p pv s cp]
      else [State p pv s cp]
  end.

Fixpoint lazy_all (fl : flags) (cs : cset) (p : nat) (pv : option ascii)
  (cp : list (nat * (nat * nat))) (s : string) : list state :=
  State p pv s cp ::
  match s with
  | EmptyString => []
  | String c s' => if test fl cs c then lazy_all fl cs (S p) (Some c) cp s' else []
  end.

Definition one_all (fl : flags) (cs : cset) (st : state) : list state :=
  match rest st with
  | EmptyString => []
  | String c s' =>
      if test fl cs c then [State (S (pos st)) (Some c) s' (caps st)] else []
  end.

Fixpoint run_all (fl : flags) (r : regex) (st : state) : list state :=
  match r with
  | Eps => [st]
  | Chr cs => one_all fl cs st
  | Seq r1 r2 => flat_map (run_all fl r2) (run_all fl r1 st)
  | Alt r1 r2 => run_all fl r1 st ++ run_all fl r2 st
  | Opt r1 => run_all fl r1 st ++ [st]
  | Star cs => greedy_all fl cs (pos st) (prev st) (caps st) (rest st)
  | Plus cs =>
      flat_map (fun st1 => greedy_all fl cs (pos st1) (prev st1) (caps st1) (rest st1))
               (one_all fl cs st)
  | LazyStar cs => lazy_all fl cs (pos st) (prev st) (caps st) (rest st)
  | LazyPlus cs =>
      flat_map (fun st1 => lazy_all fl cs (pos st1) (prev st1) (caps st1) (rest st1))
               (one_all fl cs st)
  | Group n r1 => map (fun st1 => set_cap n (pos st) (pos st1) st1) (run_all fl r1 st)
  | Bol => if at_bol fl st then [st] else []
  | Eol => if at_eol fl st then [st] else []
  | Ahead r1 =>
      match run_all fl r1 st with
      | [] => []
      | st1 :: _ => [State (pos st) (prev st) (rest st) (caps st1)]
      end
  | Behind cs =>
      match prev st with
      | Some c => if test fl cs c then [st] else []
      | None => []
      end
  end.

(** The first success of [k] along a list. *)
Fixpoint first_some {A R : Type} (k : A -> option R) (l : list A) : option R :=
  match l with
  | [] => None
  | x :: l' => orelse (k x) (first_some k l')
  end.

(** What a match consumes: a state of [run_all] is further on in the same
    subject. *)
Definition ahead_of (st st1 : state) : Prop :=
  exists u, rest st = (u ++ rest st1)%string /\ pos st1 = pos st + String.length u.

(** A character the pattern cannot do without. *)
Fixpoint mandatory (x : ascii) (r : regex) : bool :=
  match r with
  | Chr (CLit y) => Ascii.eqb x y
  | Seq r1 r2 => mandatory x r1 || mandatory x r2
  | Alt r1 r2 => mandatory x r1 && mandatory x r2
  | Group _ r1 => mandatory x r1
  | _ => false
  end.

Definition without (fl : flags) (x : ascii) (s : string) : bool :=
  Py.all_str (fun c => negb (test fl (CLit x) c)) s.


End MatcherTerms.

Section ExtractorTerms.
Import Re URLExtractor.
Local Open Scope nat_scope.
Local Open Scope string_scope.
Local Open Scope list_scope.

Inductive verdict :=
| Hit (g : nat)     (* [pre] matches and ends where [t] starts, at [g] *)
| Miss              (* [pre] matches nowhere *)
| Unknown.

Fixpoint scan (fl : flags) (pre : regex) (p : nat) (pv : option ascii)
  (w t : string) : verdict :=
  match w with
  | EmptyString => Miss
  | String c w' =>
      match run_all fl pre (State p pv (w ++ t) []) with
      | [] => scan fl pre (S p) (Some c) w' t
      | st1 :: _ => if (pos st1 =? p + String.length w)%nat then Hit (pos st1) else Unknown
      end
  end.

Fixpoint scan_list (fl : flags) (pres : list regex) (w t : string) : verdict :=
  match pres with
  | [] => Miss
  | pre :: more =>
      match scan fl pre 0 None w t with
      | Hit g => Hit g
      | Miss => scan_list fl more w t
      | Unknown => Unknown
      end
  end.

(** The span of group 1 in the match of the first pattern that matches. *)
Fixpoint first_span (fl : flags) (ps : list regex) (s : string) : option (nat * nat) :=
  match ps with
  | [] => None
  | p :: more =>
      match search fl p s with
      | Some m =>
          match assoc 1 (caps (m_end m)) with
          | Some span => Some span
          | None => first_span fl more s
          end
      | None => first_span fl more s
      end
  end.

Definition is_id (s : string) : bool :=
  (String.length s =? 11)%nat && Py.all_str id_char s.

(** The supported shapes: an optional scheme, an optional www., one of
    the six hosts with its path; or nothing, for a bare identifier. *)
Definition schemes : list string := [""; "http://"; "https://"]%string.
Definition www_prefixes : list string := [""; "www."]%string.
Definition cores : list string :=
  ["youtube.com/watch?v="; "youtu.be/"; "youtube.com/embed/"; "youtube.com/shorts/";
   "youtube.com/live/"; "m.youtube.com/watch?v="]%string.

Definition url_shapes : list string :=
  flat_map (fun sch =>
    flat_map (fun www => map (fun core => (sch ++ www ++ core)%string) cores) www_prefixes)
    schemes.




Definition lower_state (st : state) : state :=
  State (pos st) (option_map Py.lower (prev st)) (Py.str_lower (rest st)) (caps st).

Definition lower_match (m : mtch) : mtch := Match (m_start m) (lower_state (m_end m)).





End ExtractorTerms.

Section IdentifiersTerms.
Import Re URLExtractor.
Local Open Scope nat_scope.
Local Open Scope string_scope.
Local Open Scope list_scope.

(** The URL [get_video_url] builds for an identifier. *)
Definition watch_url (video_id : string) : string :=
  "https://www.youtube.com/watch?v=" ++ video_id.

End IdentifiersTerms.

Section ChapterListTerms.
Import Timestamp Chapters.
Local Open Scope nat_scope.
Local Open Scope string_scope.
Local Open Scope list_scope.

(** The answer of the metadata provider as the chapter strategies take
    it: [None] when the provider raised. *)
Definition answer_of (r : result info_dict) : option info_dict :=
  match r with
  | Ok info => Some info
  | Raise _ => None
  end.

(** The seconds of the groups of a timestamp, each group read as a
    decimal numeral. *)
Definition seconds_of (groups : list string) : Z :=
  match map (fun g => Z.of_N (decimal g)) groups with
  | [m; x] => m * 60 + x
  | [h; m; x] => h * 3600 + m * 60 + x
  | _ => 0
  end.

Definition kept_ok (x : string * Z * string) : Prop :=
  let '(t, s, ts) := x in
  Py.truthy t = true /\ _parse_timestamp (Py.strip ts) = Some s.

End ChapterListTerms.

Section TranscriberTerms.
Local Open Scope nat_scope.
Local Open Scope string_scope.
Local Open Scope list_scope.

(** The events that write a file, print on the standard output, ask the
    metadata provider. *)
Definition is_write (e : event) : bool :=
  match e with FileWrite _ _ => true | _ => false end.
Definition is_stdout (e : event) : bool :=
  match e with Stdout _ => true | _ => false end.
Definition is_metadata_call (e : event) : bool :=
  match e with MetadataCall _ => true | _ => false end.

(** What [extract_transcript] returns, whatever the log. *)
Definition transcript_of (P : Providers) (video_id : string) : option string :=
  match fst (extract_transcript P video_id []) with
  | Ok t => t
  | Raise _ => None
  end.

(** A provider of one English track with the given segments, whose
    metadata provider fails. *)
Definition one_track (segments : list SimpleFormatter.segment) : Providers :=
  mkProviders (fun _ => Raise (Exception "no metadata"))
              (fun _ => Ok [mkTrack "English" "en" false (Ok segments)])
              (fun _ => "error"%string)
              (fun _ => None).

Definition hello : list SimpleFormatter.segment :=
  [SimpleFormatter.SegObject (SimpleFormatter.Str "hello world")].

(** The dictionary [get_video_metadata] returns, whatever the log. *)
Definition metadata_of (P : Providers) (video_id : string) : metadata :=
  match extract_info P video_id with
  | Ok info =>
      mkMeta (Chapters.get (Chapters.info_title info) (Chapters.Text "Untitled"))
             (Chapters.get (Chapters.info_duration info) (Chapters.DurationInt 0))
             (Some (Chapters.get (Chapters.info_uploader info) (Chapters.Text "Unknown")))
  | Raise _ => mkMeta (Chapters.Text "Unknown Title") (Chapters.DurationInt 0) None
  end.

(** The duration is a [float] that is not zero; the title is [None]. *)
Definition float_duration (m : metadata) : bool :=
  match meta_duration m with
  | Chapters.DurationFloat x => Py.number_truthy x
  | _ => false
  end.

Definition none_title (m : metadata) : bool :=
  match meta_title m with
  | Chapters.TextNone => true
  | Chapters.Text _ => false
  end.

Definition asks_auto (out : option string) : bool :=
  match out with
  | Some name => String.eqb name "auto"
  | None => false
  end.

(** How a run of [process_url] ends once the identifier is known. *)
Definition outcome (P : Providers) (video_id : string) (out : option string)
  (md : bool) : result bool :=
  if falsy (transcript_of P video_id) then Ok false
  else if md && float_duration (metadata_of P video_id) then Raise ValueError
  else if md && asks_auto out && none_title (metadata_of P video_id) then Raise TypeError
  else Ok true.

(** The effects that neither write a file nor print on the standard
    output. *)
Definition is_silent (e : event) : bool := negb (is_write e) && negb (is_stdout e).

(** A provider of one English track with the given segments, whose
    metadata has a duration that is a [float] and no title. *)
Definition half_second : Py.number := Py.mkNumber 425 2.

Definition float_provider (segments : list SimpleFormatter.segment) : Providers :=
  mkProviders
    (fun _ => Ok (Chapters.mkInfo (Some Chapters.TextNone)
                                  (Some (Chapters.DurationFloat half_second))
                                  None None None))
    (fun _ => Ok [mkTrack "English" "en" false (Ok segments)])
    (fun _ => "error"%string)
    (fun _ => None).

(** The output file that [process_batch] hands to [process_url]. *)
Definition batch_file (output_dir : option string) : option string :=
  if negb (falsy output_dir)
  then Some (path_join (Chapters.get output_dir "") "auto")
  else None.

(** The transcript service can answer for [video_id]. *)
Definition transcript_available (P : Providers) (video_id : string) : Prop :=
  exists tracks t segments lines,
    list_tracks P video_id = Ok tracks /\ select_track tracks = Some t /\
    fetch t = Ok segments /\ SimpleFormatter.text_lines segments = Ok lines.

(** The title and the duration that the handler gives to the response
    model: those of the provider, the defaults for a missing key and when
    the provider fails. *)
Definition response_title (P : Providers) (video_id : string) : Chapters.text_value :=
  match extract_info P video_id with
  | Ok info => Chapters.get (Chapters.info_title info) (Chapters.Text "")
  | Raise _ => Chapters.Text ""
  end.

Definition response_duration (P : Providers) (video_id : string)
  : Chapters.duration_value :=
  match extract_info P video_id with
  | Ok info => Chapters.get (Chapters.info_duration info) (Chapters.DurationInt 0)
  | Raise _ => Chapters.DurationInt 0
  end.

(** The response model accepts them. *)
Definition response_valid (P : Providers) (video_id : string) : Prop :=
  valid_title (response_title P video_id) <> None /\
  valid_duration P (response_duration P video_id) <> None.

End TranscriberTerms.

Section ParagraphsTerms.
Import SimpleFormatter.
Local Open Scope nat_scope.
Local Open Scope string_scope.
Local Open Scope list_scope.

(** A word: not empty, without whitespace. *)
Definition is_word (w : string) : bool :=
  Py.truthy w && Py.all_str (fun c => negb (Py.isspace c)) w.

(** The sentences of the re-segmentation, each as the list of its words. *)
Fixpoint reseg_groups (cand : list string) (ws : list string) : list (list string) :=
  match ws with
  | [] => if Chapters.nonempty cand then [cand] else []
  | w :: rest =>
      if closes (List.length (cand ++ [w])) (hd_error rest)
      then (cand ++ [w]) :: reseg_groups [] rest
      else reseg_groups (cand ++ [w]) rest
  end.

(** All the elements but the last one. *)
Definition all_but_last {A : Type} (P : A -> Prop) (l : list A) : Prop :=
  forall i x, nth_error l i = Some x -> S i < List.length l -> P x.

(** The sentences that the paragraph loop takes: trimmed, the empty ones
    left out. *)
Definition taken (sentences : list string) : list string :=
  filter Py.truthy (map Py.strip sentences).

Definition groups_ok (G : list (list string)) : Prop :=
  Forall (fun g => 1 <= List.length g <= 4) G.

End ParagraphsTerms.

Section CleaningTerms.
Local Open Scope nat_scope.
Local Open Scope string_scope.
Local Open Scope list_scope.

(** What the loop of [_clean_transcript] keeps of one line. *)
Definition clean_line (line : string) : list string :=
  let line := Py.strip line in
  if Py.truthy line && negb (Py.startswith "[" line) && negb (Py.startswith "(" line)
  then [Py.join " " (Py.split_ws line)]
  else [].

(** A line that the cleaning leaves as it is: no bracket or parenthesis in
    front, no whitespace around it, single spaces between its words. *)
Definition tidy (line : string) : Prop :=
  Py.startswith "[" line = false /\ Py.startswith "(" line = false /\
  Py.strip line = line /\ Py.join " " (Py.split_ws line) = line.

Definition good_line (c : string) : Prop :=
  tidy c /\ Py.is_empty c = false /\ lacks Re.newline c = true.

End CleaningTerms.

Section CapturesTerms.
Import Re.
Local Open Scope nat_scope.
Local Open Scope string_scope.
Local Open Scope list_scope.

(** The strings a pattern can consume, whatever is around them. *)
Fixpoint consumes (fl : flags) (r : regex) (u : string) : Prop :=
  match r with
  | Eps => u = ""%string
  | Chr cs => exists c, u = String c "" /\ test fl cs c = true
  | Seq r1 r2 => exists u1 u2, u = (u1 ++ u2)%string /\ consumes fl r1 u1 /\ consumes fl r2 u2
  | Alt r1 r2 => consumes fl r1 u \/ consumes fl r2 u
  | Opt r1 => u = ""%string \/ consumes fl r1 u
  | Star cs | LazyStar cs => Py.all_str (test fl cs) u = true
  | Plus cs | LazyPlus cs => u <> ""%string /\ Py.all_str (test fl cs) u = true
  | Group _ r1 => consumes fl r1 u
  | Bol | Eol | Ahead _ | Behind _ => u = ""%string
  end.

(** The numbers of the groups of a pattern. *)
Fixpoint groups_of (r : regex) : list nat :=
  match r with
  | Seq r1 r2 | Alt r1 r2 => groups_of r1 ++ groups_of r2
  | Opt r1 | Ahead r1 => groups_of r1
  | Group n r1 => n :: groups_of r1
  | _ => []
  end.

(** A match of a search in the subject [s]: found by [try_at] at a position
    of [s]. *)
Definition match_in (fl : flags) (r : regex) (s : string) (m : mtch) : Prop :=
  exists w0 pv t, s = (w0 ++ t)%string /\ try_at fl r (String.length w0) pv t = Some m.

End CapturesTerms.

Section OutputTerms.
Import Re.
Local Open Scope nat_scope.
Local Open Scope string_scope.
Local Open Scope list_scope.

(** A character that is not whitespace, or the space character. *)
Definition plain (c : ascii) : bool := negb (Py.isspace c) || Ascii.eqb c " ".

(** A character of a safe file name: a letter, a digit, the underscore or
    the hyphen. *)
Definition name_char (c : ascii) : bool := word_char c || Ascii.eqb c "-".

(** The lines of paragraphs written with an empty line between two of
    them. *)
Fixpoint with_blanks (paras : list string) : list string :=
  match paras with
  | [] => [""%string]
  | [para] => [para]
  | para :: more => para :: ""%string :: with_blanks more
  end.

(** Three segments of a transcript, and the text made of them. *)
Definition sample_segments : list SimpleFormatter.segment :=
  [SimpleFormatter.SegObject (SimpleFormatter.Str "now we begin. this is");
   SimpleFormatter.SegDict
     (Some (SimpleFormatter.Str (String Re.newline "the first part. [Music]")));
   SimpleFormatter.SegObject
     (SimpleFormatter.Str "however, that is all. So we stop. And rest. Bye")].

Definition sample_text : string :=
  "Now we begin. this is the first part." ++ SimpleFormatter.blank_line ++
  "However, that is all." ++ SimpleFormatter.blank_line ++
  "So we stop. And rest. Bye.".

(** The part of the automatic file name that comes from the title. *)
Definition safe_title (title : string) : string :=
  substring 0 100 (sub NOFLAGS dashes "-" (sub NOFLAGS unsafe_char "" title)).

End OutputTerms.

Section TitlesTerms.
Import Re Timestamp Chapters.
Local Open Scope nat_scope.
Local Open Scope string_scope.
Local Open Scope list_scope.








End TitlesTerms.

(* ================================================================== *)
(** * Part III: properties                                            *)
(* ================================================================== *)

Ltac each_char c :=
  destruct c as [[|] [|] [|] [|] [|] [|] [|] [|]].

Section StringsFacts.
Local Open Scope nat_scope.
Local Open Scope string_scope.

(** ** Strings *)

Lemma all_str_app p a b :
  Py.all_str p (a ++ b) = Py.all_str p a && Py.all_str p b.
Proof.
  induction a as [|c a IH]; simpl; [reflexivity|].
  now rewrite IH, andb_assoc.
Qed.

Lemma all_str_weaken (p q : ascii -> bool) s :
  (forall c, p c = true -> q c = true) ->
  Py.all_str p s = true -> Py.all_str q s = true.
Proof.
  intros Hpq. induction s as [|c s IH]; simpl; [reflexivity|].
  intros H. apply andb_true_iff in H as [Hc Hs].
  now rewrite (Hpq _ Hc), IH.
Qed.

Lemma append_nil_r s : s ++ "" = s.
Proof. induction s; simpl; congruence. Qed.

Lemma append_assoc (a b c : string) : (a ++ b) ++ c = a ++ (b ++ c).
Proof. induction a; simpl; congruence. Qed.

Lemma length_append (a b : string) :
  String.length (a ++ b) = String.length a + String.length b.
Proof. induction a; simpl; congruence. Qed.

Lemma digit_not_space c : Py.isdigit c = true -> Py.isspace c = false.
Proof. each_char c; vm_compute; congruence. Qed.

Lemma digit_not_colon c : Py.isdigit c = true -> negb (Ascii.eqb c ":") = true.
Proof. each_char c; vm_compute; congruence. Qed.

Lemma rstrip_no_space s :
  Py.all_str (fun c => negb (Py.isspace c)) s = true -> Py.rstrip s = s.
Proof.
  induction s as [|c s IH]; simpl; [reflexivity|].
  intros H. apply andb_true_iff in H as [Hc Hs].
  rewrite (IH Hs). destruct s; [|reflexivity].
  apply negb_true_iff in Hc. now rewrite Hc.
Qed.

Lemma lstrip_no_space c s : Py.isspace c = false -> Py.lstrip (String c s) = String c s.
Proof. intros H. simpl. now rewrite H. Qed.

Lemma all_lstrip q s : Py.all_str q s = true -> Py.all_str q (Py.lstrip s) = true.
Proof.
  induction s as [|c s IH]; [reflexivity|]. cbn [Py.lstrip]. intros H.
  destruct (Py.isspace c); [|exact H].
  cbn [Py.all_str] in H. apply andb_true_iff in H as [_ H]. now apply IH.
Qed.

Lemma all_rstrip q s : Py.all_str q s = true -> Py.all_str q (Py.rstrip s) = true.
Proof.
  induction s as [|c s IH]; [reflexivity|]. cbn [Py.rstrip Py.all_str]. intros H.
  apply andb_true_iff in H as [Hc Hs]. specialize (IH Hs).
  destruct (Py.rstrip s) as [|d r'].
  - destruct (Py.isspace c); [reflexivity|]. cbn [Py.all_str]. now rewrite Hc.
  - cbn [Py.all_str] in *. now rewrite Hc, IH.
Qed.

Lemma all_strip q s : Py.all_str q s = true -> Py.all_str q (Py.strip s) = true.
Proof. intros H. unfold Py.strip. now apply all_rstrip, all_lstrip. Qed.

Lemma strip_digits s : Py.all_str Py.isdigit s = true -> Py.strip s = s.
Proof.
  intros H. unfold Py.strip.
  assert (Hs : Py.all_str (fun c => negb (Py.isspace c)) s = true).
  { revert H. apply all_str_weaken. intros c Hc. now rewrite (digit_not_space c Hc). }
  destruct s as [|c s]; [reflexivity|].
  rewrite lstrip_no_space.
  - now apply rstrip_no_space.
  - simpl in H. apply andb_true_iff in H as [Hc _]. now apply digit_not_space.
Qed.

Lemma rstrip_c_digits s : Py.all_str Py.isdigit s = true -> Py.rstrip_c s = s.
Proof.
  induction s as [|c s IH]; simpl; [reflexivity|].
  intros H. apply andb_true_iff in H as [Hc Hs].
  rewrite (IH Hs). destruct s; [|reflexivity].
  each_char c; first [discriminate Hc | reflexivity].
Qed.

Lemma strip_c_digits s :
  Py.all_str Py.isdigit s = true -> Py.rstrip_c (Py.lstrip_c s) = s.
Proof.
  intros H. destruct s as [|c s]; [reflexivity|].
  assert (Hl : Py.lstrip_c (String c s) = String c s).
  { simpl in H. apply andb_true_iff in H as [Hc _]. cbn [Py.lstrip_c].
    each_char c; first [discriminate Hc | reflexivity]. }
  rewrite Hl. now apply rstrip_c_digits.
Qed.

(** ** Decimal numerals *)

Lemma int_digits_all b s :
  Py.all_str Py.isdigit s = true -> (b = true \/ s <> "") ->
  Py.int_digits b s = Some s.
Proof.
  revert b. induction s as [|c s IH]; intros b H Hb; simpl.
  - destruct Hb as [-> | Hb]; [reflexivity | congruence].
  - simpl in H. apply andb_true_iff in H as [Hc Hs].
    rewrite Hc, (IH true Hs); [reflexivity | now left].
Qed.

Lemma int_of_digits s n :
  Py.all_str Py.isdigit s = true -> s <> "" ->
  Py.N_of_digits s = Some n -> Py.int s = Some (Z.of_N n).
Proof.
  intros H Hne Hn. unfold Py.int. rewrite (strip_c_digits s H).
  destruct s as [|c s]; [congruence|].
  assert (Hd : Py.int_digits false (String c s) = Some (String c s))
    by (apply int_digits_all; [assumption | now right]).
  simpl in H. apply andb_true_iff in H as [Hc _].
  each_char c; try discriminate Hc; cbv beta iota; rewrite Hd, Hn; reflexivity.
Qed.

Lemma digits_of_uint d : Py.all_str Py.isdigit (NilEmpty.string_of_uint d) = true.
Proof. induction d; simpl; auto. Qed.

Lemma str_of_N_empty n : Py.str_of_N n = NilEmpty.string_of_uint (N.to_uint n).
Proof.
  unfold Py.str_of_N. destruct n as [|p]; [reflexivity|].
  simpl. pose proof (DecimalPos.Unsigned.to_uint_nonnil p) as Hp.
  destruct (Pos.to_uint p); [congruence | reflexivity ..].
Qed.

Lemma str_of_N_digits n : Py.all_str Py.isdigit (Py.str_of_N n) = true.
Proof. rewrite str_of_N_empty. apply digits_of_uint. Qed.

Lemma str_of_N_nonempty n : Py.str_of_N n <> "".
Proof.
  rewrite str_of_N_empty. destruct n as [|p]; [discriminate|].
  simpl. pose proof (DecimalPos.Unsigned.to_uint_nonnil p) as Hp.
  destruct (Pos.to_uint p); [congruence | discriminate ..].
Qed.

Lemma N_of_digits_str n : Py.N_of_digits (Py.str_of_N n) = Some n.
Proof.
  rewrite str_of_N_empty. unfold Py.N_of_digits.
  now rewrite NilEmpty.usu; simpl; rewrite DecimalN.Unsigned.of_to.
Qed.

Lemma N_of_digits_zero s : Py.N_of_digits (String "0" s) = Py.N_of_digits s.
Proof.
  unfold Py.N_of_digits. simpl.
  now destruct (NilEmpty.uint_of_string s).
Qed.

Lemma N_of_digits_zeros k s : Py.N_of_digits (Py.zeros k ++ s) = Py.N_of_digits s.
Proof. induction k; simpl; [reflexivity|]. now rewrite N_of_digits_zero. Qed.

Lemma zeros_digits k : Py.all_str Py.isdigit (Py.zeros k) = true.
Proof. induction k; simpl; auto. Qed.

Lemma zfill_digits w n : Py.all_str Py.isdigit (Py.zfill w (Py.str_of_N n)) = true.
Proof.
  unfold Py.zfill. rewrite all_str_app, zeros_digits, str_of_N_digits. reflexivity.
Qed.

Lemma zfill_nonempty w n : Py.zfill w (Py.str_of_N n) <> "".
Proof.
  unfold Py.zfill. pose proof (str_of_N_nonempty n).
  destruct (Py.zeros _); simpl; [assumption | discriminate].
Qed.

Lemma format_02d_nonneg z :
  (0 <= z)%Z -> Py.format_02d z = Py.zfill 2 (Py.str_of_N (Z.to_N z)).
Proof.
  intros Hz. unfold Py.format_02d.
  destruct (Z.ltb_spec z 0); [lia | reflexivity].
Qed.

Lemma format_02d_digits z : (0 <= z)%Z -> Py.all_str Py.isdigit (Py.format_02d z) = true.
Proof. intros Hz. rewrite format_02d_nonneg by assumption. apply zfill_digits. Qed.

(** [int] reads back what [{:02d}] writes. *)
Lemma int_format_02d z : (0 <= z)%Z -> Py.int (Py.format_02d z) = Some z.
Proof.
  intros Hz. rewrite format_02d_nonneg by assumption.
  rewrite (int_of_digits _ (Z.to_N z)).
  - now rewrite Z2N.id.
  - apply zfill_digits.
  - apply zfill_nonempty.
  - unfold Py.zfill. now rewrite N_of_digits_zeros, N_of_digits_str.
Qed.

(** ** [str.split] on a colon *)

Lemma prefix_colon c s :
  prefix ":" (String c s) = Ascii.eqb c ":".
Proof.
  change (prefix ":" (String c s)) with (if ascii_dec ":" c then prefix "" s else false).
  destruct (ascii_dec ":" c) as [<- | Hne].
  - now destruct s.
  - symmetry. apply Ascii.eqb_neq. congruence.
Qed.

Lemma split_colon_last a cur :
  lacks ":" a = true -> Py.split_from ":" 0 cur a = [cur ++ a].
Proof.
  revert cur. induction a as [|c a IH]; intros cur H.
  - simpl. now rewrite append_nil_r.
  - simpl in H. apply andb_true_iff in H as [Hc Ha].
    cbn [Py.split_from]. rewrite prefix_colon.
    apply negb_true_iff in Hc. rewrite Hc.
    rewrite (IH _ Ha), append_assoc. reflexivity.
Qed.

Lemma split_colon_app a cur t :
  lacks ":" a = true ->
  Py.split_from ":" 0 cur (a ++ String ":" t) = (cur ++ a) :: Py.split_from ":" 0 "" t.
Proof.
  revert cur. induction a as [|c a IH]; intros cur H.
  - cbn [Py.split_from append]. rewrite prefix_colon, append_nil_r. reflexivity.
  - simpl in H. apply andb_true_iff in H as [Hc Ha].
    cbn [Py.split_from append]. rewrite prefix_colon.
    apply negb_true_iff in Hc. rewrite Hc.
    rewrite (IH _ Ha), append_assoc. reflexivity.
Qed.

Lemma digits_lack_colon s : Py.all_str Py.isdigit s = true -> lacks ":" s = true.
Proof. apply all_str_weaken. exact digit_not_colon. Qed.

(** ** Timestamps *)

Import Timestamp.

Lemma parse_two_fields a b x y :
  lacks ":" a = true -> lacks ":" b = true ->
  Py.int a = Some x -> Py.int b = Some y ->
  _parse_timestamp (a ++ ":" ++ b) = Some (x * 60 + y)%Z.
Proof.
  intros Ha Hb Hx Hy. unfold _parse_timestamp, Py.split.
  change (a ++ ":" ++ b) with (a ++ String ":" b).
  rewrite split_colon_app, split_colon_last by assumption.
  simpl. now rewrite Hx, Hy.
Qed.

Lemma parse_three_fields a b c x y z :
  lacks ":" a = true -> lacks ":" b = true -> lacks ":" c = true ->
  Py.int a = Some x -> Py.int b = Some y -> Py.int c = Some z ->
  _parse_timestamp (a ++ ":" ++ b ++ ":" ++ c) = Some (x * 3600 + y * 60 + z)%Z.
Proof.
  intros Ha Hb Hc Hx Hy Hz. unfold _parse_timestamp, Py.split.
  change (a ++ ":" ++ b ++ ":" ++ c) with (a ++ String ":" (b ++ String ":" c)).
  rewrite !split_colon_app, split_colon_last by assumption.
  simpl. now rewrite Hx, Hy, Hz.
Qed.

Lemma seconds_split s :
  (0 <= s)%Z ->
  (s / 3600 * 3600 + s mod 3600 / 60 * 60 + s mod 60 = s)%Z.
Proof.
  intros Hs.
  assert (H60 : (s mod 60 = (s mod 3600) mod 60)%Z).
  { symmetry. apply Z.mod_mod_divide. exists 60%Z. reflexivity. }
  pose proof (Z.div_mod s 3600 ltac:(lia)).
  pose proof (Z.div_mod (s mod 3600) 60 ltac:(lia)).
  lia.
Qed.

Lemma parse_format s : (0 <= s)%Z -> _parse_timestamp (_format_timestamp s) = Some s.
Proof.
  intros Hs. unfold _format_timestamp.
  assert (Hh : (0 <= s / 3600)%Z) by (apply Z.div_pos; lia).
  assert (Hm : (0 <= s mod 3600 / 60)%Z).
  { apply Z.div_pos; [|lia]. apply Z.mod_pos_bound. lia. }
  assert (Hc : (0 <= s mod 60)%Z) by (apply Z.mod_pos_bound; lia).
  destruct (Z.gtb_spec (s / 3600) 0) as [Hpos | Hzero].
  - rewrite (parse_three_fields _ _ _ (s / 3600) (s mod 3600 / 60) (s mod 60))%Z;
      try (apply digits_lack_colon, format_02d_digits; assumption);
      try (apply int_format_02d; assumption).
    f_equal. apply seconds_split. assumption.
  - rewrite (parse_two_fields _ _ (s mod 3600 / 60) (s mod 60))%Z;
      try (apply digits_lack_colon, format_02d_digits; assumption);
      try (apply int_format_02d; assumption).
    f_equal. pose proof (seconds_split s Hs). lia.
Qed.

(** ** The value of a decimal numeral *)

Lemma of_lu_revapp_value d : forall d',
  DecimalPos.Unsigned.of_lu (Decimal.revapp d d')
  = uint_value (DecimalPos.Unsigned.of_lu d') d.
Proof.
  induction d; intros d'; cbn [Decimal.revapp uint_value]; [reflexivity|..];
    rewrite IHd; cbn [DecimalPos.Unsigned.of_lu]; f_equal; lia.
Qed.

Lemma of_uint_value d : N.of_uint d = uint_value 0 d.
Proof.
  change (N.of_uint d) with (Pos.of_uint d).
  rewrite DecimalPos.Unsigned.of_uint_alt. unfold Decimal.rev.
  now rewrite of_lu_revapp_value.
Qed.

Lemma uint_of_digits_value s :
  Py.all_str Py.isdigit s = true ->
  exists d, NilEmpty.uint_of_string s = Some d /\
            forall acc, uint_value acc d = decimal_from acc s.
Proof.
  induction s as [|c s IH]; intros H.
  - exists Nil. split; [reflexivity | intros acc; reflexivity].
  - cbn [Py.all_str] in H. apply andb_true_iff in H as [Hc Hs].
    destruct (IH Hs) as (d & Hd & Hv). cbn [NilEmpty.uint_of_string]. rewrite Hd.
    each_char c; try discriminate Hc;
      (eexists; split; [reflexivity|]; intros acc;
       cbn [uint_value decimal_from]; rewrite Hv; f_equal;
       unfold digit_value; cbn; lia).
Qed.

Lemma N_of_digits_decimal s :
  Py.all_str Py.isdigit s = true -> Py.N_of_digits s = Some (decimal s).
Proof.
  intros H. destruct (uint_of_digits_value s H) as (d & Hd & Hv).
  unfold Py.N_of_digits, decimal. rewrite Hd. cbn [option_map].
  now rewrite of_uint_value, Hv.
Qed.

(** [int] reads a string of digits as the number it writes in base ten,
    leading zeros included. *)
Lemma int_decimal s :
  Py.all_str Py.isdigit s = true -> s <> "" ->
  Py.int s = Some (Z.of_N (decimal s)).
Proof.
  intros H Hne. apply int_of_digits; [exact H | exact Hne |].
  now apply N_of_digits_decimal.
Qed.

Lemma decimal_str_of_N n : decimal (Py.str_of_N n) = n.
Proof.
  pose proof (N_of_digits_decimal _ (str_of_N_digits n)) as H.
  rewrite N_of_digits_str in H. now injection H as <-.
Qed.

Lemma digit_value_bound c : Py.isdigit c = true -> (digit_value c <= 9)%N.
Proof. each_char c; intros H; try discriminate H; vm_compute; discriminate. Qed.

Lemma decimal_from_bound s : forall acc,
  Py.all_str Py.isdigit s = true ->
  (decimal_from acc s < (acc + 1) * 10 ^ N.of_nat (String.length s))%N.
Proof.
  induction s as [|c s IH]; intros acc H.
  - cbn [decimal_from String.length]. change (N.of_nat 0) with 0%N. rewrite N.pow_0_r. lia.
  - cbn [Py.all_str] in H. apply andb_true_iff in H as [Hc Hs].
    cbn [decimal_from String.length].
    pose proof (IH (10 * acc + digit_value c)%N Hs) as Hb.
    pose proof (digit_value_bound c Hc) as Hd.
    rewrite Nat2N.inj_succ, N.pow_succ_r'.
    eapply N.lt_le_trans; [exact Hb|].
    replace ((acc + 1) * (10 * 10 ^ N.of_nat (String.length s)))%N
      with ((10 * acc + 10) * 10 ^ N.of_nat (String.length s))%N by lia.
    apply N.mul_le_mono_r. lia.
Qed.

(** A number from 100 on is written with three digits or more. *)
Lemma str_of_N_long n : (100 <= n)%N -> 3 <= String.length (Py.str_of_N n).
Proof.
  intros Hn.
  pose proof (decimal_from_bound _ 0%N (str_of_N_digits n)) as Hb.
  fold (decimal (Py.str_of_N n)) in Hb. rewrite decimal_str_of_N in Hb.
  destruct (String.length (Py.str_of_N n)) as [|[|[|k]]]; try lia;
    vm_compute in Hb; revert Hb; cbn; lia.
Qed.

End StringsFacts.

Section TimestampsFacts.
Import Timestamp.
Local Open Scope nat_scope.
Local Open Scope string_scope.

Lemma digit_cases c :
  Py.isdigit c = true ->
  In c ["0"; "1"; "2"; "3"; "4"; "5"; "6"; "7"; "8"; "9"]%char.
Proof. each_char c; intros H; try discriminate H; simpl; tauto. Qed.

Lemma format_02d_two_digits n :
  (0 <= n < 100)%Z -> Py.format_02d n = two_digits n.
Proof.
  intros Hn. rewrite <- (Z2Nat.id n) by lia.
  assert (Hk : Z.to_nat n < 100) by lia.
  generalize dependent (Z.to_nat n). clear. intros k Hk.
  do 100 (destruct k as [|k]; [vm_compute; reflexivity|]). lia.
Qed.

(** A field of two digits is what [{:02d}] writes for its value. *)
Lemma two_digit_field a b :
  Py.isdigit a = true -> Py.isdigit b = true ->
  exists v, Py.int (String a (String b "")) = Some v /\ (0 <= v < 100)%Z /\
            Py.format_02d v = String a (String b "") /\
            (v = 0%Z <-> String a (String b "") = "00") /\
            (Py.between 48 53 a = true -> (v < 60)%Z).
Proof.
  intros Ha Hb. apply digit_cases in Ha, Hb. simpl in Ha, Hb.
  repeat (destruct Ha as [<- | Ha]; [|]); try contradiction;
  repeat (destruct Hb as [<- | Hb]; [|]); try contradiction;
  (eexists; split; [vm_compute; reflexivity|];
   split; [lia|]; split; [vm_compute; reflexivity|];
   split; [split; intros H; try discriminate H; try lia; try reflexivity
          | intros H; vm_compute in H; first [discriminate H | lia]]).
Qed.

(** ** join after split *)

Lemma split_from_colon_nonnil cur s : Py.split_from ":" 0 cur s <> [].
Proof.
  revert cur. induction s as [|c s IH]; intros cur; cbn [Py.split_from].
  - discriminate.
  - rewrite prefix_colon. destruct (Ascii.eqb c ":"); [discriminate | apply IH].
Qed.

Lemma join_cons sep x l :
  l <> [] -> Py.join sep (x :: l) = x ++ sep ++ Py.join sep l.
Proof. destruct l; [congruence | reflexivity]. Qed.

Lemma join_split_colon s cur :
  Py.join ":" (Py.split_from ":" 0 cur s) = cur ++ s.
Proof.
  revert cur. induction s as [|c s IH]; intros cur; cbn [Py.split_from].
  - now rewrite append_nil_r.
  - rewrite prefix_colon. destruct (Ascii.eqb_spec c ":") as [-> | Hne].
    + rewrite join_cons by apply split_from_colon_nonnil.
      cbn [String.length Nat.sub]. rewrite IH. reflexivity.
    + rewrite IH, append_assoc. reflexivity.
Qed.

Lemma join_split s : Py.join ":" (Py.split ":" s) = s.
Proof. unfold Py.split. now rewrite join_split_colon. Qed.

(** ** Fields of a number of seconds *)

Lemma fields_of_seconds h m x :
  (0 <= h)%Z -> (0 <= m < 60)%Z -> (0 <= x < 60)%Z ->
  let s := (h * 3600 + m * 60 + x)%Z in
  (s / 3600 = h /\ s mod 3600 / 60 = m /\ s mod 60 = x)%Z.
Proof.
  intros Hh Hm Hx s.
  assert (H1 : (s / 3600 = h)%Z).
  { symmetry. apply (Z.div_unique s 3600 h (m * 60 + x)); subst s; lia. }
  assert (H2 : (s mod 3600 = m * 60 + x)%Z).
  { symmetry. apply (Z.mod_unique s 3600 h (m * 60 + x)); subst s; lia. }
  repeat split.
  - exact H1.
  - rewrite H2. symmetry. apply (Z.div_unique (m * 60 + x) 60 m x); lia.
  - symmetry. apply (Z.mod_unique s 60 (h * 60 + m) x); subst s; lia.
Qed.

(** ** The hours field *)

Lemma uint_of_digits s :
  Py.all_str Py.isdigit s = true -> exists d, NilEmpty.uint_of_string s = Some d.
Proof.
  induction s as [|c s IH]; simpl; intros H.
  - now exists Nil.
  - apply andb_true_iff in H as [Hc Hs]. destruct (IH Hs) as [d ->].
    apply digit_cases in Hc. simpl in Hc.
    repeat (destruct Hc as [<- | Hc]; [eexists; reflexivity|]). contradiction.
Qed.

Lemma plain_hours a t :
  Py.all_str Py.isdigit (String a t) = true -> Ascii.eqb a "0" = false ->
  exists v, Py.int (String a t) = Some v /\ (0 < v)%Z /\
            Py.str_of_N (Z.to_N v) = String a t.
Proof.
  intros Hd Ha.
  destruct (uint_of_digits _ Hd) as [d Hparse].
  assert (Hnorm : unorm d = d /\ d <> D0 Nil).
  { simpl in Hd. apply andb_true_iff in Hd as [Hc _].
    simpl in Hparse. destruct (NilEmpty.uint_of_string t) as [d'|]; [|discriminate].
    apply uint_of_char_spec in Hparse.
    destruct Hparse as [H|H]; [destruct H as [-> _]; discriminate Ha|].
    repeat (destruct H as [H|H]; [destruct H as [_ ->]; split; [reflexivity | discriminate]|]).
    destruct H as [_ ->]. split; [reflexivity | discriminate]. }
  destruct Hnorm as [Hnorm Hnz].
  exists (Z.of_N (N.of_uint d)). split; [|split].
  - apply int_of_digits; [assumption | discriminate |].
    unfold Py.N_of_digits. now rewrite Hparse.
  - assert (N.of_uint d <> 0%N); [|lia].
    intros H0. pose proof (DecimalN.Unsigned.to_of d) as Hto.
    rewrite H0, Hnorm in Hto. simpl in Hto. congruence.
  - rewrite N2Z.id, str_of_N_empty, DecimalN.Unsigned.to_of, Hnorm.
    now apply NilEmpty.sus.
Qed.

Lemma hours_field_ok h :
  hours_field h = true ->
  exists v, Py.int h = Some v /\ (0 < v)%Z /\ Py.format_02d v = h.
Proof.
  destruct h as [|a [|b [|c t]]]; try discriminate.
  - (* two digits *)
    unfold hours_field. intros H.
    apply andb_true_iff in H as [H Hnz]. apply andb_true_iff in H as [Ha Hb].
    destruct (two_digit_field a b Ha Hb) as (v & Hint & Hv & Hfmt & Hzero & _).
    exists v. repeat split; try assumption.
    apply negb_true_iff, String.eqb_neq in Hnz.
    assert (v <> 0%Z) by (intros E; apply Hnz, Hzero, E). lia.
  - (* three digits or more *)
    unfold hours_field. intros H. apply andb_true_iff in H as [Hd Ha].
    apply negb_true_iff in Ha.
    destruct (plain_hours a _ Hd Ha) as (v & Hint & Hv & Hstr).
    exists v. repeat split; try assumption.
    rewrite format_02d_nonneg by lia. rewrite Hstr. reflexivity.
Qed.

Lemma below_60_ok f :
  below_60 f = true ->
  exists v, Py.int f = Some v /\ (0 <= v < 60)%Z /\ Py.format_02d v = f.
Proof.
  destruct f as [|a [|b [|c t]]]; try discriminate.
  unfold below_60. intros H. apply andb_true_iff in H as [Ha Hb].
  assert (Ha' : Py.isdigit a = true).
  { revert Ha. clear. each_char a; vm_compute; congruence. }
  destruct (two_digit_field a b Ha' Hb) as (v & Hint & Hv & Hfmt & _ & Hlt).
  exists v. repeat split; try assumption; try lia. now apply Hlt.
Qed.

(** [format] undoes [parse] on the timestamps in the form [format] writes. *)
Lemma format_parse_canonical s :
  canonical_timestamp s = true ->
  option_map _format_timestamp (_parse_timestamp s) = Some s.
Proof.
  unfold canonical_timestamp. intros H.
  pose proof (join_split s) as Hjoin.
  unfold _parse_timestamp.
  destruct (Py.split ":" s) as [|f1 [|f2 [|f3 [|f4 l]]]]; try discriminate.
  - apply andb_true_iff in H as [Hm Hx].
    destruct (below_60_ok _ Hm) as (m & -> & Hmr & Hmf).
    destruct (below_60_ok _ Hx) as (x & -> & Hxr & Hxf).
    simpl. f_equal. unfold _format_timestamp.
    destruct (fields_of_seconds 0 m x ltac:(lia) Hmr Hxr) as (E1 & E2 & E3).
    simpl in E1, E2, E3. rewrite E1, E2, E3. simpl.
    rewrite Hmf, Hxf. exact Hjoin.
  - apply andb_true_iff in H as [H Hx]. apply andb_true_iff in H as [Hh Hm].
    destruct (hours_field_ok _ Hh) as (h & -> & Hhr & Hhf).
    destruct (below_60_ok _ Hm) as (m & -> & Hmr & Hmf).
    destruct (below_60_ok _ Hx) as (x & -> & Hxr & Hxf).
    simpl. f_equal. unfold _format_timestamp.
    destruct (fields_of_seconds h m x ltac:(lia) Hmr Hxr) as (E1 & E2 & E3).
    cbv zeta in E1, E2, E3. rewrite E1, E2, E3.
    destruct (Z.gtb_spec h 0); [|lia].
    rewrite Hhf, Hmf, Hxf. exact Hjoin.
Qed.

Lemma format_shape_short s :
  (0 <= s < 3600)%Z ->
  _format_timestamp s = two_digits (s / 60) ++ ":" ++ two_digits (s mod 60).
Proof.
  intros Hs. unfold _format_timestamp.
  rewrite (Z.div_small s 3600), (Z.mod_small s 3600) by lia. simpl.
  rewrite !format_02d_two_digits; [reflexivity | |].
  - pose proof (Z.mod_pos_bound s 60). lia.
  - split; [apply Z.div_pos; lia | apply Z.div_lt_upper_bound; lia].
Qed.

Lemma format_shape_long s :
  (3600 <= s)%Z ->
  _format_timestamp s =
    Py.format_02d (s / 3600) ++ ":" ++ two_digits (s mod 3600 / 60) ++ ":"
      ++ two_digits (s mod 60).
Proof.
  intros Hs. unfold _format_timestamp.
  assert (1 <= s / 3600)%Z by (apply Z.div_le_lower_bound; lia).
  destruct (Z.gtb_spec (s / 3600) 0); [|lia].
  rewrite (format_02d_two_digits (s mod 3600 / 60)), (format_02d_two_digits (s mod 60));
    [reflexivity | |].
  - pose proof (Z.mod_pos_bound s 60). lia.
  - pose proof (Z.mod_pos_bound s 3600 ltac:(lia)).
    split; [apply Z.div_pos; lia | apply Z.div_lt_upper_bound; lia].
Qed.

(** C8, as stated, fails: from 100 hours on the field of the hours has
    three digits or more; 360000 seconds are written "100:00:00" (and read
    back as 360000). *)
Lemma C8_counterexample :
  _format_timestamp 360000 = "100:00:00"%string /\
  Py.split ":" (_format_timestamp 360000) = ["100"; "00"; "00"]%string /\
  _parse_timestamp (_format_timestamp 360000) = Some 360000%Z.
Proof. repeat split; vm_compute; reflexivity. Qed.

(** C8, amended: for every non-negative number of seconds [s], parsing the
    text that [_format_timestamp] writes for [s] gives [s] back; the text
    is MM:SS below one hour and HH:MM:SS from one hour on, minutes and
    seconds as two digits; the hours are written with two digits below 100
    hours, and from 100 hours on as their decimal numeral, which has
    three digits or more. *)
Theorem C8_parse_format_roundtrip (s : Z) :
  (0 <= s)%Z ->
  _parse_timestamp (_format_timestamp s) = Some s /\
  ((s < 3600)%Z ->
     _format_timestamp s = two_digits (s / 60) ++ ":" ++ two_digits (s mod 60)) /\
  ((3600 <= s)%Z ->
     _format_timestamp s =
       Py.format_02d (s / 3600) ++ ":" ++ two_digits (s mod 3600 / 60) ++ ":"
         ++ two_digits (s mod 60)) /\
  ((s < 360000)%Z -> Py.format_02d (s / 3600) = two_digits (s / 3600)) /\
  ((360000 <= s)%Z ->
     Py.format_02d (s / 3600) = Py.str_of_N (Z.to_N (s / 3600)) /\
     decimal (Py.format_02d (s / 3600)) = Z.to_N (s / 3600) /\
     3 <= String.length (Py.format_02d (s / 3600))).
Proof.
  intros Hs. split; [|split; [|split; [|split]]].
  - now apply parse_format.
  - intros H. apply format_shape_short. lia.
  - apply format_shape_long.
  - intros H. apply format_02d_two_digits.
    split; [apply Z.div_pos; lia | apply Z.div_lt_upper_bound; lia].
  - intros H.
    assert (Hh : (100 <= s / 3600)%Z) by (apply Z.div_le_lower_bound; lia).
    assert (Hl : 3 <= String.length (Py.str_of_N (Z.to_N (s / 3600))))
      by (apply str_of_N_long; lia).
    assert (Hf : Py.format_02d (s / 3600) = Py.str_of_N (Z.to_N (s / 3600))).
    { unfold Py.format_02d. destruct (Z.ltb_spec (s / 3600) 0); [lia|].
      unfold Py.zfill.
      replace (2 - String.length (Py.str_of_N (Z.to_N (s / 3600)))) with 0 by lia.
      reflexivity. }
    rewrite Hf. split; [reflexivity|]. split; [apply decimal_str_of_N | exact Hl].
Qed.

Lemma C8_witness :
  (0 <= 3725)%Z /\
  _parse_timestamp (_format_timestamp 3725) = Some 3725%Z /\
  _format_timestamp 3725 = "01:02:05".
Proof.
  split; [lia|].
  destruct (C8_parse_format_roundtrip 3725 ltac:(lia)) as (H & _).
  split; [exact H | reflexivity].
Defined.

Lemma below_60_field f : below_60 f = true -> is_field f = true.
Proof.
  destruct f as [|a [|b [|c t]]]; try discriminate.
  unfold below_60, is_field. intros H. apply andb_true_iff in H as [Ha Hb].
  cbn [Py.truthy Py.is_empty negb Py.all_str andb]. rewrite Hb.
  revert Ha. clear. each_char a; vm_compute; congruence.
Qed.

Lemma hours_field_field f : hours_field f = true -> is_field f = true.
Proof.
  destruct f as [|a [|b [|c t]]]; try discriminate; unfold hours_field, is_field; intros H.
  - apply andb_true_iff in H as [H _]. apply andb_true_iff in H as [Ha Hb].
    cbn [Py.truthy Py.is_empty negb Py.all_str andb]. now rewrite Ha, Hb.
  - apply andb_true_iff in H as [H _]. cbn [Py.truthy Py.is_empty negb andb]. exact H.
Qed.

Lemma canonical_valid s : canonical_timestamp s = true -> valid_timestamp s = true.
Proof.
  unfold canonical_timestamp, valid_timestamp.
  destruct (Py.split ":" s) as [|f1 [|f2 [|f3 [|f4 l]]]]; try discriminate; intros H.
  - apply andb_true_iff in H as [H1 H2].
    cbn. now rewrite (below_60_field _ H1), (below_60_field _ H2).
  - apply andb_true_iff in H as [H H3]. apply andb_true_iff in H as [H1 H2].
    cbn. now rewrite (hours_field_field _ H1), (below_60_field _ H2), (below_60_field _ H3).
Qed.

(** C7, as stated, fails: "1:30" is a colon-delimited timestamp with two
    numeric groups, and formatting what it parses to gives "01:30". *)
Lemma C7_counterexample :
  valid_timestamp "1:30" = true /\
  option_map _format_timestamp (_parse_timestamp "1:30") = Some "01:30" /\
  option_map _format_timestamp (_parse_timestamp "1:30") <> Some "1:30".
Proof.
  split; [reflexivity|]. split; [reflexivity|]. vm_compute. discriminate.
Qed.

(** C7, amended: on every timestamp in the form [_format_timestamp] itself
    writes (two-digit minutes and seconds below 60, and in front of them
    nothing or an hours field that is not 00 and has two digits, or more
    without a leading zero), formatting what [_parse_timestamp] returns
    gives the timestamp back; [_parse_timestamp] returns [None] for
    "1:2:3:4" and for "ab:cd". *)
Theorem C7_format_parse_canonical (s : string) :
  canonical_timestamp s = true ->
  valid_timestamp s = true /\
  option_map _format_timestamp (_parse_timestamp s) = Some s /\
  _parse_timestamp "1:2:3:4" = None /\
  _parse_timestamp "ab:cd" = None.
Proof.
  intros H. split; [now apply canonical_valid|].
  split; [now apply format_parse_canonical|]. split; reflexivity.
Qed.

Lemma C7_witness :
  canonical_timestamp "01:02:05" = true /\
  option_map _format_timestamp (_parse_timestamp "01:02:05") = Some "01:02:05".
Proof.
  split; [reflexivity|].
  exact (proj1 (proj2 (C7_format_parse_canonical "01:02:05" eq_refl))).
Defined.

End TimestampsFacts.

Section ChaptersFacts.
Import Timestamp Chapters.
Local Open Scope nat_scope.
Local Open Scope string_scope.
Local Open Scope list_scope.

(** ** The metadata strategy *)

Lemma update_last_snoc {A : Type} (f : A -> A) l x :
  update_last f (l ++ [x]) = Some (l ++ [f x]).
Proof.
  induction l as [|y l IH]; [reflexivity|].
  cbn [Datatypes.app update_last]. rewrite IH.
  destruct l; reflexivity.
Qed.

Lemma metadata_loop_linked l : forall acc i,
  (acc = [] /\ i = 0) \/ (acc <> [] /\ 0 < i) ->
  metadata_loop acc i l = Some (closed_by acc l ++ linked i l).
Proof.
  induction l as [|c rest IH]; intros acc i Hinv.
  - simpl. now rewrite app_nil_r.
  - cbn [metadata_loop]. unfold metadata_step.
    assert (Hstep : exists acc',
      (if (0 <? i)%nat then update_last (backfill (start_of c)) acc else Some acc) = Some acc'
      /\ closed_by acc (c :: rest) = acc').
    { destruct Hinv as [[-> ->] | [Hne Hi]].
      - exists []. split; reflexivity.
      - destruct (Nat.ltb_spec 0 i); [|lia].
        destruct (exists_last Hne) as (l' & x & ->).
        exists (l' ++ [backfill (start_of c) x]).
        unfold closed_by. rewrite update_last_snoc. split; reflexivity. }
    destruct Hstep as (acc' & Hup & Hclosed).
    fold (start_of c). rewrite Hup.
    rewrite IH by (right; split; [now destruct acc' | lia]).
    rewrite Hclosed. f_equal.
    destruct rest as [|c' rest']; cbn [closed_by linked hd_error option_map].
    + rewrite app_nil_r. f_equal. unfold chapter_of, own_end.
      destruct (truthy_end (raw_end_time c)); reflexivity.
    + rewrite update_last_snoc. cbn [get]. rewrite <- app_assoc. cbn [Datatypes.app].
      do 2 f_equal. unfold backfill, chapter_of, own_end. simpl.
      destruct (truthy_end (raw_end_time c)); reflexivity.
Qed.

Lemma extract_metadata_linked info :
  _extract_chapters_from_metadata (Some info) = linked 0 (get (info_chapters info) []).
Proof.
  unfold _extract_chapters_from_metadata.
  rewrite metadata_loop_linked by (left; split; reflexivity).
  destruct (get (info_chapters info) []); reflexivity.
Qed.

Lemma linked_nth l : forall i0 i c,
  nth_error l i = Some c ->
  nth_error (linked i0 l) i =
    Some (chapter_of (i0 + i) c
            (match own_end c with
             | Some e => Some e
             | None => option_map start_of (nth_error l (S i))
             end)).
Proof.
  induction l as [|x l IH]; intros i0 i c H.
  - destruct i; discriminate.
  - destruct i as [|i].
    + injection H as ->. cbn [linked nth_error]. rewrite Nat.add_0_r.
      destruct l; reflexivity.
    + cbn [linked nth_error] in *. rewrite (IH (S i0) i c H).
      now rewrite Nat.add_succ_r.
Qed.

Lemma linked_starts l : forall i0, map start_time (linked i0 l) = map start_of l.
Proof. induction l as [|x l IH]; intros i0; simpl; [reflexivity | now rewrite IH]. Qed.

Lemma linked_length l : forall i0, List.length (linked i0 l) = List.length l.
Proof. induction l as [|x l IH]; intros i0; simpl; [reflexivity | now rewrite IH]. Qed.

Lemma linked_ext l l' : forall i0,
  Forall2 (fun a b => raw_title a = raw_title b /\ start_of a = start_of b
                      /\ own_end a = own_end b) l l' ->
  linked i0 l = linked i0 l'.
Proof.
  intros i0 H. revert i0. induction H as [|a b l l' (Ht & Hs & He) Hrest IH]; intros i0.
  - reflexivity.
  - assert (Hhd : option_map start_of (hd_error l) = option_map start_of (hd_error l')).
    { destruct Hrest as [|a' b' ? ? (_ & Hs' & _) _]; simpl; congruence. }
    cbn [linked]. rewrite (IH (S i0)), Hhd. unfold chapter_of.
    rewrite Ht, Hs, He. reflexivity.
Qed.

(** C4: in the metadata strategy the chapter of a record without [end_time]
    ends at the [start_time] of the following record, and has no end when
    it is the last one; a record without title is named "Chapter N", N its
    1-based position; the three records A (0), B (30), C (90 to 120) give
    the ends 30, 90 and 120. *)
Theorem C4_metadata_backfill (info : info_dict) (i : nat) (c : raw_chapter) :
  nth_error (get (info_chapters info) []) i = Some c ->
  exists r,
    nth_error (_extract_chapters_from_metadata (Some info)) i = Some r /\
    start_time r = start_of c /\
    (raw_end_time c = None ->
       end_time r =
         option_map start_of
                    (nth_error (get (info_chapters info) []) (S i))) /\
    (raw_title c = None ->
       title r = ("Chapter " ++ Py.str_of_N (N.of_nat (i + 1)))%string) /\
    (forall t, raw_title c = Some t -> title r = t) /\
    map end_time (_extract_chapters_from_metadata (Some (info_with example_metadata)))
      = [Some 30%Z; Some 90%Z; Some 120%Z].
Proof.
  intros H. rewrite extract_metadata_linked.
  eexists. split; [apply (linked_nth _ 0 i c H)|].
  cbn [chapter_of start_time end_time title Nat.add].
  split; [reflexivity|]. split; [|split; [|split]].
  - intros He. unfold own_end. rewrite He. reflexivity.
  - intros Ht. rewrite Ht. reflexivity.
  - intros t Ht. rewrite Ht. reflexivity.
  - reflexivity.
Qed.

Lemma C4_witness :
  exists r,
    nth_error (_extract_chapters_from_metadata (Some (info_with example_metadata))) 1 = Some r /\
    end_time r = Some 90%Z.
Proof.
  destruct (C4_metadata_backfill (info_with example_metadata) 1
              (mkRaw (Some "B") (Some (Py.of_int 30)) None) eq_refl)
    as (r & Hr & _ & He & _).
  exists r. split; [exact Hr | exact (He eq_refl)].
Defined.

(** C10: a record whose [end_time] is present and equal to 0 gives the same
    chapters as the record without [end_time]: its chapter ends at the
    start of the following record, if there is one, and has no end
    otherwise; the 0 is not kept. *)
Theorem C10_zero_end_is_absent (l1 l2 : list raw_chapter) (c : raw_chapter)
  (e : Py.number) :
  raw_end_time c = Some e -> Py.num e = 0%Z ->
  _extract_chapters_from_metadata (Some (info_with (l1 ++ c :: l2))) =
  _extract_chapters_from_metadata
    (Some (info_with (l1 ++ mkRaw (raw_title c) (raw_start_time c) None :: l2))) /\
  exists r,
    nth_error (_extract_chapters_from_metadata (Some (info_with (l1 ++ c :: l2))))
              (List.length l1) = Some r /\
    end_time r = option_map start_of (hd_error l2).
Proof.
  intros He Hz.
  assert (H0 : truthy_end (raw_end_time c) = None).
  { rewrite He. unfold truthy_end, Py.number_truthy. now rewrite Hz. }
  rewrite !extract_metadata_linked. cbn [info_with info_chapters get].
  split.
  - apply linked_ext. apply Forall2_app.
    + clear. induction l1; constructor; auto.
    + constructor.
      * unfold start_of, own_end. rewrite H0. simpl. auto.
      * clear. induction l2; constructor; auto.
  - eexists. split.
    + apply linked_nth. rewrite nth_error_app2, Nat.sub_diag by lia. reflexivity.
    + cbn [chapter_of end_time]. unfold own_end. rewrite H0.
      rewrite nth_error_app2 by lia.
      replace (S (List.length l1) - List.length l1) with 1 by lia.
      destruct l2; reflexivity.
Qed.

Lemma C10_witness :
  map end_time
    (_extract_chapters_from_metadata
       (Some (info_with [mkRaw (Some "A") (Some (Py.of_int 0)) (Some (Py.of_int 0));
                         mkRaw (Some "B") (Some (Py.of_int 30)) None])))
  = [Some 30%Z; None].
Proof.
  pose proof (C10_zero_end_is_absent [] [mkRaw (Some "B") (Some (Py.of_int 30)) None]
                (mkRaw (Some "A") (Some (Py.of_int 0)) (Some (Py.of_int 0)))
                (Py.of_int 0) eq_refl eq_refl) as [H _].
  cbn [Datatypes.app] in H. rewrite H. reflexivity.
Defined.

(** ** The description strategy *)

Lemma update_last_cons {A : Type} (f : A -> A) x y l :
  get (update_last f (x :: y :: l)) (x :: y :: l)
  = x :: get (update_last f (y :: l)) (y :: l).
Proof.
  destruct (exists_last (l := y :: l) ltac:(discriminate)) as (l' & z & E).
  change (update_last f (x :: y :: l)) with (option_map (cons x) (update_last f (y :: l))).
  rewrite E, update_last_snoc. reflexivity.
Qed.

Lemma chain_snoc k t s ts :
  chain (k ++ [(t, s, ts)])
  = get (update_last (backfill s) (chain k)) (chain k) ++ [mkChapter t s None ts].
Proof.
  induction k as [|[[t0 s0] ts0] k IH]; [reflexivity|].
  cbn [chain Datatypes.app]. rewrite IH. clear IH.
  destruct k as [|[[t1 s1] ts1] k'].
  - reflexivity.
  - cbn [Datatypes.app hd_error option_map chain]. rewrite update_last_cons. reflexivity.
Qed.

Lemma description_step_kept k m :
  description_step (chain k) m = chain (k ++ kept_match m).
Proof.
  destruct m as [ts title]. unfold description_step, kept_match. cbn [fst snd].
  destruct (_parse_timestamp (Py.strip ts)) as [s|]; [|now rewrite app_nil_r].
  destruct (Py.truthy (clean_title title)); [|now rewrite app_nil_r].
  rewrite chain_snoc. unfold get. reflexivity.
Qed.

Lemma fold_description_kept ms : forall k,
  fold_left description_step ms (chain k) = chain (k ++ kept ms).
Proof.
  induction ms as [|m ms IH]; intros k; cbn [fold_left kept flat_map].
  - now rewrite app_nil_r.
  - rewrite description_step_kept, IH, <- app_assoc. reflexivity.
Qed.

Lemma chapters_of_matches_chain ms : chapters_of_matches ms = chain (kept ms).
Proof. exact (fold_description_kept ms []). Qed.

Lemma chain_nth k : forall i t s ts,
  nth_error k i = Some (t, s, ts) ->
  nth_error (chain k) i =
    Some (mkChapter t s (option_map (fun x => snd (fst x)) (nth_error k (S i))) ts).
Proof.
  induction k as [|[[t0 s0] ts0] k IH]; intros i t s ts H.
  - destruct i; discriminate.
  - destruct i as [|i].
    + injection H as -> -> ->. cbn [chain nth_error]. destruct k; reflexivity.
    + cbn [chain nth_error] in *. now apply IH.
Qed.

Lemma chain_length k : List.length (chain k) = List.length k.
Proof. induction k as [|[[t s] ts] k IH]; simpl; congruence. Qed.

Lemma chain_starts k : map start_time (chain k) = map (fun x => snd (fst x)) k.
Proof. induction k as [|[[t s] ts] k IH]; simpl; congruence. Qed.

Lemma chain_ends_linked k : ends_linked (chain k).
Proof.
  intros i r Hr.
  destruct (nth_error k i) as [[[t s] ts]|] eqn:Hk.
  - rewrite (chain_nth k i t s ts Hk) in Hr.
    apply (f_equal (fun o => match o with Some x => x | None => r end)) in Hr.
    subst r. cbn [end_time].
    destruct (nth_error k (S i)) as [[[t' s'] ts']|] eqn:Hk'.
    + rewrite (chain_nth k (S i) t' s' ts' Hk'). reflexivity.
    + apply (proj1 (nth_error_None _ _)) in Hk'. rewrite <- chain_length in Hk'.
      apply (proj2 (nth_error_None _ _)) in Hk'. now rewrite Hk'.
  - apply (proj1 (nth_error_None _ _)) in Hk. rewrite <- chain_length in Hk.
    apply (proj2 (nth_error_None _ _)) in Hk. congruence.
Qed.

(** The loop over the patterns stops at the first pattern whose matches
    leave a chapter. *)
Lemma patterns_loop_first ps text :
  patterns_loop [] ps text =
  first_nonempty
    (map (fun p => chapters_of_matches (Re.findall2 Re.MULTILINE_IGNORECASE p text)) ps).
Proof.
  induction ps as [|p ps IH]; [reflexivity|].
  cbn [patterns_loop map first_nonempty]. unfold chapters_of_matches.
  destruct (Re.findall2 Re.MULTILINE_IGNORECASE p text) as [|m ms] eqn:E.
  - cbn [nonempty fold_left]. exact IH.
  - cbn [nonempty].
    destruct (fold_left description_step (m :: ms) []) as [|c cs]; cbn [nonempty].
    + exact IH.
    + reflexivity.
Qed.

Lemma first_nonempty_in {A : Type} (ls : list (list A)) :
  first_nonempty ls = [] \/ In (first_nonempty ls) ls.
Proof.
  induction ls as [|l ls IH]; [now left|].
  destruct l; cbn [first_nonempty].
  - destruct IH; [now left | right; now right].
  - right. now left.
Qed.

Lemma parse_chapters_chain text :
  exists ms, _parse_chapters_from_text text = chain (kept ms).
Proof.
  unfold _parse_chapters_from_text. rewrite patterns_loop_first.
  destruct (first_nonempty_in
    (map (fun p => chapters_of_matches (Re.findall2 Re.MULTILINE_IGNORECASE p text)) patterns))
    as [-> | Hin].
  - now exists [].
  - apply in_map_iff in Hin as (p & <- & _).
    eexists. apply chapters_of_matches_chain.
Qed.

Lemma ends_linked_chained R : ends_linked R -> chained R /\ only_last_open R.
Proof.
  intros H. split.
  - intros i r r' Hr Hr'. rewrite (H i r Hr), Hr'. reflexivity.
  - intros i r Hr He. rewrite (H i r Hr) in He.
    destruct (nth_error R (S i)); [discriminate | reflexivity].
Qed.

(** C6, as stated, fails: the description "5:00 - B\n1:00 - A" gives the
    starts 300, 60; and in the metadata strategy a record that comes with
    its own end keeps it (25 here, the next chapter starts at 30). *)
Lemma C6_counterexample :
  map start_time (_parse_chapters_from_text ("5:00 - B" ++ nl ++ "1:00 - A")%string)
    = [300%Z; 60%Z] /\
  ~ chapter_invariant (_parse_chapters_from_text ("5:00 - B" ++ nl ++ "1:00 - A")%string) /\
  ~ chapter_invariant
      (_extract_chapters_from_metadata
         (Some (info_with [mkRaw (Some "A") (Some (Py.of_int 0)) (Some (Py.of_int 25));
                           mkRaw (Some "B") (Some (Py.of_int 30)) None]))).
Proof.
  split; [vm_compute; reflexivity|]. split.
  - intros [H _]. vm_compute in H. discriminate H.
  - intros (_ & H & _).
    specialize (H 0 (mkChapter "A" 0 (Some 25%Z) "00:00") (mkChapter "B" 30 None "00:30")
                  eq_refl eq_refl).
    discriminate H.
Qed.

(** C6, amended: each strategy lists the chapters in the order of its input,
    so the starts are non-decreasing when those of the input are.  In the
    description strategy every chapter but the last ends at the start of
    the next one and the last has no end.  In the metadata strategy a
    chapter keeps the non-zero end of its record and otherwise ends at the
    start of the next one; in both, only the last chapter may have no end. *)
Theorem C6_chapter_order_and_ends (text : string) (info : info_dict) :
  let D := _parse_chapters_from_text text in
  let cs := get (info_chapters info) [] in
  let R := _extract_chapters_from_metadata (Some info) in
  (exists ms, D = chain (kept ms) /\
     (ms = [] \/ exists p, In p patterns /\ ms = Re.findall2 Re.MULTILINE_IGNORECASE p text) /\
     map start_time D = map (fun x => snd (fst x)) (kept ms)) /\
  chained D /\ only_last_open D /\
  map start_time R = map start_of cs /\
  (nondecreasing (map start_of cs) = true ->
     nondecreasing (map start_time R) = true) /\
  (forall i r c, nth_error R i = Some r -> nth_error cs i = Some c ->
     end_time r = match truthy_end (raw_end_time c) with
                  | Some e => Some e
                  | None => option_map start_time (nth_error R (S i))
                  end) /\
  only_last_open R.
Proof.
  intros D cs R.
  assert (HD : exists ms, D = chain (kept ms) /\
     (ms = [] \/ exists p, In p patterns /\ ms = Re.findall2 Re.MULTILINE_IGNORECASE p text)).
  { subst D. unfold _parse_chapters_from_text. rewrite patterns_loop_first.
    destruct (first_nonempty_in
      (map (fun p => chapters_of_matches (Re.findall2 Re.MULTILINE_IGNORECASE p text)) patterns))
      as [-> | Hin].
    - exists []. split; [reflexivity | now left].
    - apply in_map_iff in Hin as (p & <- & Hp).
      eexists. split; [apply chapters_of_matches_chain|]. right. now exists p. }
  destruct HD as (ms & HD & Hms).
  assert (HR : R = linked 0 cs) by apply extract_metadata_linked.
  assert (Hnth : forall i r c, nth_error R i = Some r -> nth_error cs i = Some c ->
     end_time r = match truthy_end (raw_end_time c) with
                  | Some e => Some e
                  | None => option_map start_time (nth_error R (S i))
                  end).
  { intros i r c Hr Hc. rewrite HR in *. rewrite (linked_nth cs 0 i c Hc) in Hr.
    apply (f_equal (fun o => match o with Some x => x | None => r end)) in Hr.
    subst r. cbn [chapter_of end_time]. unfold own_end.
    destruct (truthy_end (raw_end_time c)); [reflexivity|].
    destruct (nth_error cs (S i)) as [c'|] eqn:Hc'.
    - rewrite (linked_nth cs 0 (S i) c' Hc'). reflexivity.
    - apply (proj1 (nth_error_None _ _)) in Hc'. rewrite <- (linked_length cs 0) in Hc'.
      apply (proj2 (nth_error_None _ _)) in Hc'. now rewrite Hc'. }
  assert (Hstarts : map start_time R = map start_of cs).
  { rewrite HR. apply linked_starts. }
  split; [|split; [|split; [|split; [|split; [|split]]]]].
  - exists ms. split; [exact HD|]. split; [exact Hms|]. rewrite HD. apply chain_starts.
  - rewrite HD. apply ends_linked_chained, chain_ends_linked.
  - rewrite HD. apply ends_linked_chained, chain_ends_linked.
  - exact Hstarts.
  - intros H. now rewrite Hstarts.
  - exact Hnth.
  - intros i r Hr He.
    destruct (nth_error cs i) as [c|] eqn:Hc.
    + rewrite (Hnth i r c Hr Hc) in He.
      destruct (truthy_end (raw_end_time c)); [discriminate|].
      destruct (nth_error R (S i)); [discriminate | reflexivity].
    + apply (proj1 (nth_error_None _ _)) in Hc.
      rewrite HR in Hr. rewrite <- (linked_length cs 0) in Hc.
      apply (proj2 (nth_error_None _ _)) in Hc. congruence.
Qed.

Lemma C6_witness :
  nondecreasing
    (map start_time (_extract_chapters_from_metadata (Some (info_with example_metadata))))
  = true.
Proof.
  destruct (C6_chapter_order_and_ends "" (info_with example_metadata))
    as (_ & _ & _ & _ & H & _).
  exact (H eq_refl).
Defined.

End ChaptersFacts.

Section ReflowFacts.
Import SimpleFormatter.
Local Open Scope nat_scope.
Local Open Scope string_scope.
Local Open Scope list_scope.

(** ** Words *)

Lemma split_ws_from_nonempty s : forall cur,
  Forall (fun w => w <> ""%string) (Py.split_ws_from cur s).
Proof.
  induction s as [|c s IH]; intros cur; cbn [Py.split_ws_from].
  - destruct cur; cbn [Py.is_empty]; constructor; [discriminate | constructor].
  - destruct (Py.isspace c).
    + destruct cur; cbn [Py.is_empty]; [apply IH|].
      constructor; [discriminate | apply IH].
    + apply IH.
Qed.

Lemma split_ws_nonempty s : Forall (fun w => w <> ""%string) (Py.split_ws s).
Proof. apply split_ws_from_nonempty. Qed.

(** ** The re-segmentation loop *)

Lemma next_is_upper_spec done w rest :
  Forall (fun w => w <> ""%string) (done ++ w :: rest) ->
  next_is_upper (done ++ w :: rest) (List.length done) = Ok (starts_upper (hd_error rest)).
Proof.
  intros Hne. unfold next_is_upper.
  rewrite length_app. cbn [List.length].
  destruct rest as [|w' rest'].
  - cbn [List.length]. destruct (Nat.ltb_spec (List.length done + 1) (List.length done + 1));
      [lia | reflexivity].
  - cbn [List.length].
    destruct (Nat.ltb_spec (List.length done + 1) (List.length done + S (S (List.length rest'))));
      [|lia].
    assert (Hidx : nth_error (done ++ w :: w' :: rest') (List.length done + 1) = Some w').
    { rewrite nth_error_app2 by lia.
      replace (List.length done + 1 - List.length done) with 1 by lia. reflexivity. }
    unfold index. rewrite Hidx. cbn [bind].
    apply Forall_app in Hne as [_ Hne].
    inversion Hne as [|? ? _ Hne']. inversion Hne' as [|? ? Hw' _].
    destruct w'; [congruence | reflexivity].
Qed.

Lemma reseg_loop_spec todo : forall done sentences cand,
  Forall (fun w => w <> ""%string) (done ++ todo) ->
  exists s' c',
    reseg_loop (done ++ todo) (sentences, cand) (List.length done) todo = Ok (s', c') /\
    s' ++ (if Chapters.nonempty c' then [Py.join " " c'] else [])
      = sentences ++ reseg_spec cand todo.
Proof.
  induction todo as [|w rest IH]; intros done sentences cand Hne.
  - exists sentences, cand. split; reflexivity.
  - cbn [reseg_loop reseg_spec]. unfold reseg_step.
    rewrite (next_is_upper_spec done w rest Hne).
    assert (Hnext : forall st,
      exists s' c',
        reseg_loop (done ++ w :: rest) st (S (List.length done)) rest = Ok (s', c') /\
        s' ++ (if Chapters.nonempty c' then [Py.join " " c'] else [])
          = fst st ++ reseg_spec (snd st) rest).
    { intros [s0 c0].
      replace (done ++ w :: rest) with ((done ++ [w]) ++ rest) in *
        by (rewrite <- app_assoc; reflexivity).
      replace (S (List.length done)) with (List.length (done ++ [w]))
        by (rewrite length_app; simpl; lia).
      apply IH. assumption. }
    unfold closes.
    destruct (15 <=? List.length (cand ++ [w]))%nat eqn:E15; cbn [bind andb orb].
    + destruct (starts_upper (hd_error rest)) eqn:Eup; cbn [orb].
      * destruct (Hnext (sentences ++ [Py.join " " (cand ++ [w])], [])) as (s' & c' & Hl & Hs).
        exists s', c'. split; [exact Hl|]. rewrite Hs. cbn [fst snd].
        rewrite <- app_assoc. reflexivity.
      * destruct (20 <=? List.length (cand ++ [w]))%nat eqn:E20.
        -- destruct (Hnext (sentences ++ [Py.join " " (cand ++ [w])], [])) as (s' & c' & Hl & Hs).
           exists s', c'. split; [exact Hl|]. rewrite Hs. cbn [fst snd].
           rewrite <- app_assoc. reflexivity.
        -- destruct (Hnext (sentences, cand ++ [w])) as (s' & c' & Hl & Hs).
           exists s', c'. split; [exact Hl | exact Hs].
    + assert (E20 : (20 <=? List.length (cand ++ [w]))%nat = false).
      { apply Nat.leb_gt. apply Nat.leb_gt in E15. lia. }
      rewrite E20.
      destruct (Hnext (sentences, cand ++ [w])) as (s' & c' & Hl & Hs).
      exists s', c'. split; [exact Hl | exact Hs].
Qed.

Lemma resegment_spec full_text :
  resegment full_text = Ok (reseg_spec [] (Py.split_ws full_text)).
Proof.
  unfold resegment.
  destruct (reseg_loop_spec (Py.split_ws full_text) [] [] [] (split_ws_nonempty full_text))
    as (s' & c' & Hl & Hs).
  cbn [Datatypes.app List.length] in Hl. rewrite Hl. cbn [bind].
  f_equal. destruct (Chapters.nonempty c'); [exact Hs|].
  rewrite app_nil_r in Hs. exact Hs.
Qed.

Lemma sentences_of_ok full_text : exists ss, sentences_of full_text = Ok ss.
Proof.
  unfold sentences_of.
  destruct (_ && _); [rewrite resegment_spec|]; eexists; reflexivity.
Qed.

(** ** The finishing loop *)

Lemma upper_not_lower c : Py.islower (Py.upper c) = false.
Proof. each_char c; reflexivity. Qed.

Lemma last_char_cons c s : exists c', Py.last_char (String c s) = Some c'.
Proof.
  revert c. induction s as [|d s IH]; intros c.
  - now exists c.
  - destruct (IH d) as [c' H]. exists c'. cbn [Py.last_char]. exact H.
Qed.

Lemma last_char_snoc s c : Py.last_char (s ++ String c "")%string = Some c.
Proof.
  induction s as [|d s IH]; [reflexivity|].
  cbn [append Py.last_char]. rewrite IH.
  destruct (s ++ String c "")%string eqn:E; [|reflexivity].
  destruct s; discriminate E.
Qed.

Lemma capitalize_shape c rest :
  exists r, capitalize (String c rest) = Ok (String (Py.upper c) r).
Proof.
  unfold capitalize. destruct (1 <? String.length (String c rest))%nat eqn:E.
  - cbn [first_char bind]. eexists. reflexivity.
  - destruct rest; [|discriminate E]. exists ""%string. reflexivity.
Qed.

Lemma finish_step_good acc para :
  Forall (fun p => good_paragraph p = true) acc ->
  exists acc', finish_step acc para = Ok acc' /\
               Forall (fun p => good_paragraph p = true) acc'.
Proof.
  intros Hacc. unfold finish_step.
  destruct (Py.strip para) as [|c rest] eqn:Es; cbn [Py.truthy Py.is_empty negb].
  - exists acc. split; [reflexivity | assumption].
  - destruct (capitalize_shape c rest) as [r ->]. cbn [bind].
    unfold final_char.
    destruct (last_char_cons (Py.upper c) r) as [c' Hc']. rewrite Hc'. cbn [bind].
    eexists. split; [reflexivity|].
    apply Forall_app. split; [assumption|]. constructor; [|constructor].
    unfold good_paragraph. apply andb_true_iff. split.
    + destruct (negb (Py.char_in c' ".!?")); cbn [append good_start];
        now rewrite upper_not_lower.
    + unfold good_end. destruct (Py.char_in c' ".!?") eqn:Ein; cbn [negb].
      * now rewrite Hc'.
      * change (String (Py.upper c) r ++ ".")%string
          with (String (Py.upper c) r ++ String "." "")%string.
        rewrite last_char_snoc. reflexivity.
Qed.

Lemma finish_loop_good paras : forall acc,
  Forall (fun p => good_paragraph p = true) acc ->
  exists out, finish_loop acc paras = Ok out /\
              Forall (fun p => good_paragraph p = true) out.
Proof.
  induction paras as [|para more IH]; intros acc Hacc; cbn [finish_loop].
  - exists acc. split; [reflexivity | assumption].
  - destruct (finish_step_good acc para Hacc) as (acc' & -> & Hacc'). cbn [bind].
    now apply IH.
Qed.

Lemma collect_loop_ok segments : forall acc,
  forallb text_is_str segments = true ->
  exists all_text, collect_loop acc segments = Ok all_text.
Proof.
  induction segments as [|seg more IH]; intros acc H; cbn [collect_loop].
  - now exists acc.
  - cbn [forallb] in H. apply andb_true_iff in H as [Hseg Hmore].
    unfold collect_step, text_is_str in *.
    destruct (segment_text seg); [|discriminate Hseg].
    cbn [clean_text bind]. now apply IH.
Qed.

Lemma full_text_ok segments :
  forallb text_is_str segments = true ->
  exists full_text, full_text_of segments = Ok full_text.
Proof.
  intros H. unfold full_text_of.
  destruct (collect_loop_ok segments [] H) as [all_text ->]. cbn [bind].
  now eexists.
Qed.

Lemma formatted_paragraphs_ok segments :
  forallb text_is_str segments = true ->
  exists paras, formatted_paragraphs_of segments = Ok paras /\
                Forall (fun p => good_paragraph p = true) paras.
Proof.
  intros H. unfold formatted_paragraphs_of.
  destruct (full_text_ok segments H) as [full_text ->]. cbn [bind].
  destruct (sentences_of_ok full_text) as [ss ->]. cbn [bind].
  apply finish_loop_good. constructor.
Qed.

Lemma collect_missing_text all_text :
  collect_step all_text (SegDict None) = collect_step all_text (SegDict (Some (Str ""))).
Proof. reflexivity. Qed.

Lemma collect_loop_app l1 : forall acc l2,
  collect_loop acc (l1 ++ l2) = (all_text <- collect_loop acc l1 ;; collect_loop all_text l2).
Proof.
  induction l1 as [|seg more IH]; intros acc l2; cbn [Datatypes.app collect_loop bind].
  - reflexivity.
  - destruct (collect_step acc seg) as [acc'|e]; cbn [bind]; [apply IH | reflexivity].
Qed.

(** ** The code on any text *)

Section AnyText.
Variable L : TextLib.
Hypothesis HL : text_laws L.

Lemma any_next_is_upper done w rest :
  Forall (fun w => w <> ""%string) (done ++ w :: rest) ->
  Any.next_is_upper L (done ++ w :: rest) (List.length done)
  = Ok (starts_upper_in L (hd_error rest)).
Proof.
  intros Hne. unfold Any.next_is_upper.
  rewrite length_app. cbn [List.length].
  destruct rest as [|w' rest'].
  - cbn [List.length]. destruct (Nat.ltb_spec (List.length done + 1) (List.length done + 1));
      [lia | reflexivity].
  - cbn [List.length].
    destruct (Nat.ltb_spec (List.length done + 1) (List.length done + S (S (List.length rest'))));
      [|lia].
    assert (Hidx : nth_error (done ++ w :: w' :: rest') (List.length done + 1) = Some w').
    { rewrite nth_error_app2 by lia.
      replace (List.length done + 1 - List.length done) with 1 by lia. reflexivity. }
    unfold index. rewrite Hidx. cbn [bind hd_error starts_upper_in].
    apply Forall_app in Hne as [_ Hne].
    inversion Hne as [|? ? _ Hne']. inversion Hne' as [|? ? Hw' _].
    unfold Any.first_char. pose proof (laws_first L HL w' Hw') as Hf.
    destruct (lib_first L w'); [reflexivity | congruence].
Qed.

Lemma any_reseg_loop todo : forall done sentences cand,
  Forall (fun w => w <> ""%string) (done ++ todo) ->
  exists s' c',
    Any.reseg_loop L (done ++ todo) (sentences, cand) (List.length done) todo = Ok (s', c') /\
    s' ++ (if Chapters.nonempty c' then [Py.join " " c'] else [])
      = sentences ++ reseg_spec_in L cand todo.
Proof.
  induction todo as [|w rest IH]; intros done sentences cand Hne.
  - exists sentences, cand. split; reflexivity.
  - cbn [Any.reseg_loop reseg_spec_in]. unfold Any.reseg_step.
    rewrite (any_next_is_upper done w rest Hne).
    assert (Hnext : forall st,
      exists s' c',
        Any.reseg_loop L (done ++ w :: rest) st (S (List.length done)) rest = Ok (s', c') /\
        s' ++ (if Chapters.nonempty c' then [Py.join " " c'] else [])
          = fst st ++ reseg_spec_in L (snd st) rest).
    { intros [s0 c0].
      replace (done ++ w :: rest) with ((done ++ [w]) ++ rest) in *
        by (rewrite <- app_assoc; reflexivity).
      replace (S (List.length done)) with (List.length (done ++ [w]))
        by (rewrite length_app; simpl; lia).
      apply IH. assumption. }
    unfold closes_in.
    destruct (15 <=? List.length (cand ++ [w]))%nat eqn:E15; cbn [bind andb orb].
    + destruct (starts_upper_in L (hd_error rest)) eqn:Eup; cbn [orb].
      * destruct (Hnext (sentences ++ [Py.join " " (cand ++ [w])], [])) as (s' & c' & Hl & Hs).
        exists s', c'. split; [exact Hl|]. rewrite Hs. cbn [fst snd].
        rewrite <- app_assoc. reflexivity.
      * destruct (20 <=? List.length (cand ++ [w]))%nat eqn:E20.
        -- destruct (Hnext (sentences ++ [Py.join " " (cand ++ [w])], [])) as (s' & c' & Hl & Hs).
           exists s', c'. split; [exact Hl|]. rewrite Hs. cbn [fst snd].
           rewrite <- app_assoc. reflexivity.
        -- destruct (Hnext (sentences, cand ++ [w])) as (s' & c' & Hl & Hs).
           exists s', c'. split; [exact Hl | exact Hs].
    + assert (E20 : (20 <=? List.length (cand ++ [w]))%nat = false).
      { apply Nat.leb_gt. apply Nat.leb_gt in E15. lia. }
      rewrite E20.
      destruct (Hnext (sentences, cand ++ [w])) as (s' & c' & Hl & Hs).
      exists s', c'. split; [exact Hl | exact Hs].
Qed.

Lemma any_resegment full_text :
  Any.resegment L full_text = Ok (reseg_spec_in L [] (lib_split L full_text)).
Proof.
  unfold Any.resegment.
  assert (Hne : Forall (fun w => w <> ""%string) ([] ++ lib_split L full_text)).
  { apply Forall_forall. intros w Hw. exact (laws_words L HL full_text w Hw). }
  destruct (any_reseg_loop (lib_split L full_text) [] [] [] Hne) as (s' & c' & Hl & Hs).
  cbn [Datatypes.app List.length] in Hl. rewrite Hl. cbn [bind].
  f_equal. destruct (Chapters.nonempty c'); [exact Hs|].
  rewrite app_nil_r in Hs. exact Hs.
Qed.

Lemma any_sentences_ok full_text : exists ss, Any.sentences_of L full_text = Ok ss.
Proof.
  unfold Any.sentences_of.
  destruct (_ && _); [rewrite any_resegment|]; eexists; reflexivity.
Qed.

Lemma append_left_nonempty a b : a <> ""%string -> (a ++ b)%string <> ""%string.
Proof. destruct a; [congruence | discriminate]. Qed.

Lemma capitalized_shape para :
  para <> ""%string ->
  exists c, lib_first L para = Some c /\ c <> ""%string /\
            capitalized L para = (lib_upper L c ++ lib_rest L para)%string /\
            capitalized L para <> ""%string.
Proof.
  intros Hp. unfold capitalized. pose proof (laws_first L HL para Hp) as Hf.
  destruct (lib_first L para) as [c|] eqn:Ec; [|congruence].
  destruct (laws_first_rest L HL para c Ec) as [Hc _].
  exists c. split; [reflexivity|]. split; [exact Hc|]. split; [reflexivity|].
  apply append_left_nonempty. now apply (laws_upper L HL).
Qed.

Lemma any_capitalize para :
  para <> ""%string -> Any.capitalize L para = Ok (capitalized L para).
Proof.
  intros Hp. destruct (capitalized_shape para Hp) as (c & Ec & Hc & Hcap & _).
  unfold Any.capitalize, Any.first_char. rewrite Hcap, Ec.
  destruct (Nat.ltb_spec 1 (lib_len L para)) as [Hlen|Hlen]; [reflexivity|].
  destruct (laws_first_rest L HL para c Ec) as [_ Hs].
  rewrite (laws_short_rest L HL para Hlen) in *. rewrite append_nil_r in Hs.
  now rewrite Hs, append_nil_r.
Qed.

Lemma good_end_finished para : good_end (finished L para) = true.
Proof.
  unfold finished. destruct (good_end (capitalized L para)) eqn:E; [exact E|].
  unfold good_end.
  change (capitalized L para ++ ".")%string
    with (capitalized L para ++ String "." "")%string.
  now rewrite last_char_snoc.
Qed.

Lemma any_finish_step acc para :
  Any.finish_step L acc para
  = Ok (acc ++ (if Py.truthy (lib_strip L para) then [finished L (lib_strip L para)] else [])).
Proof.
  unfold Any.finish_step. destruct (lib_strip L para) as [|c rest] eqn:Es;
    cbn [Py.truthy Py.is_empty negb].
  - now rewrite app_nil_r.
  - rewrite any_capitalize by discriminate. cbn [bind].
    destruct (capitalized_shape (String c rest) ltac:(discriminate)) as (h & _ & _ & _ & Hne).
    unfold finished, good_end, final_char.
    destruct (capitalized L (String c rest)) as [|d q] eqn:Eq; [congruence|].
    destruct (last_char_cons d q) as [e He]. rewrite He. cbn [bind].
    now destruct (Py.char_in e ".!?").
Qed.

Lemma any_finish_loop paragraphs : forall acc,
  Any.finish_loop L acc paragraphs = Ok (acc ++ map (finished L) (written L paragraphs)).
Proof.
  unfold written.
  induction paragraphs as [|para more IH]; intros acc; cbn [Any.finish_loop map filter].
  - now rewrite app_nil_r.
  - rewrite any_finish_step. cbn [bind]. rewrite IH.
    destruct (Py.truthy (lib_strip L para)); cbn [map]; now rewrite <- app_assoc.
Qed.

Lemma any_collect_loop_ok segments : forall acc,
  forallb text_is_str segments = true ->
  exists all_text, Any.collect_loop L acc segments = Ok all_text.
Proof.
  induction segments as [|seg more IH]; intros acc H; cbn [Any.collect_loop].
  - now exists acc.
  - cbn [forallb] in H. apply andb_true_iff in H as [Hseg Hmore].
    unfold Any.collect_step, text_is_str in *.
    destruct (segment_text seg); [|discriminate Hseg].
    cbn [Any.clean_text bind]. now apply IH.
Qed.

Lemma any_full_text_ok segments :
  forallb text_is_str segments = true ->
  exists full_text, Any.full_text_of L segments = Ok full_text.
Proof.
  intros H. unfold Any.full_text_of.
  destruct (any_collect_loop_ok segments [] H) as [all_text ->]. cbn [bind].
  now eexists.
Qed.

Lemma any_collect_loop_app l1 : forall acc l2,
  Any.collect_loop L acc (l1 ++ l2)
  = (all_text <- Any.collect_loop L acc l1 ;; Any.collect_loop L all_text l2).
Proof.
  induction l1 as [|seg more IH]; intros acc l2; cbn [Datatypes.app Any.collect_loop bind].
  - reflexivity.
  - destruct (Any.collect_step L acc seg) as [acc'|e]; cbn [bind]; [apply IH | reflexivity].
Qed.

Lemma written_facts paragraphs :
  Forall (fun p => p <> ""%string /\
                   good_end (finished L p) = true /\
                   exists c, lib_first L p = Some c /\ c <> ""%string /\
                     p = (c ++ lib_rest L p)%string /\
                     (finished L p = (lib_upper L c ++ lib_rest L p)%string \/
                      finished L p = ((lib_upper L c ++ lib_rest L p) ++ ".")%string))
         (written L paragraphs).
Proof.
  apply Forall_forall. intros p Hp. apply filter_In in Hp as [_ Ht].
  assert (Hne : p <> ""%string) by (destruct p; [discriminate Ht | discriminate]).
  split; [exact Hne|]. split; [apply good_end_finished|].
  destruct (capitalized_shape p Hne) as (c & Ec & Hc & Hcap & _).
  exists c. split; [exact Ec|]. split; [exact Hc|].
  split; [exact (proj2 (laws_first_rest L HL p c Ec))|].
  unfold finished. rewrite Hcap. destruct (good_end _); [now left | now right].
Qed.

End AnyText.

(** ** The library on ASCII text *)

Lemma substring_tail c s : substring 1 (String.length (String c s) - 1) (String c s) = s.
Proof.
  cbn [String.length]. replace (S (String.length s) - 1) with (String.length s) by lia.
  cbn [substring]. clear c.
  induction s as [|d s IH]; [reflexivity|]. cbn [String.length substring]. now rewrite IH.
Qed.

Lemma str_upper_nonempty s : s <> ""%string -> Py.str_upper s <> ""%string.
Proof. destruct s; [congruence | discriminate]. Qed.

Lemma ascii_lib_laws : text_laws ascii_lib.
Proof.
  constructor; cbn [ascii_lib lib_split lib_first lib_rest lib_len lib_upper].
  - intros s w Hw. pose proof (split_ws_nonempty s) as H.
    rewrite Forall_forall in H. now apply H.
  - intros [|c s] H; [congruence | discriminate].
  - intros [|c s] h [= <-]. split; [discriminate|].
    now rewrite substring_tail.
  - intros [|c [|d s]] H; [reflexivity | reflexivity | cbn [String.length] in H; lia].
  - exact str_upper_nonempty.
Qed.

Lemma isupper_one c : Py.str_isupper (String c "") = Py.isupper c.
Proof. each_char c; reflexivity. Qed.

Lemma ascii_next_is_upper words i :
  Any.next_is_upper ascii_lib words i = next_is_upper words i.
Proof.
  unfold Any.next_is_upper, next_is_upper. destruct (i + 1 <? List.length words)%nat; [|reflexivity].
  destruct (index words (i + 1)) as [w|e]; [|reflexivity]. cbn [bind].
  unfold Any.first_char. cbn [ascii_lib lib_first lib_isupper].
  destruct w as [|c w]; [reflexivity|]. cbn [first_char bind]. now rewrite isupper_one.
Qed.

Lemma ascii_reseg_loop words todo : forall st i,
  Any.reseg_loop ascii_lib words st i todo = reseg_loop words st i todo.
Proof.
  induction todo as [|w more IH]; intros st i; [reflexivity|].
  cbn [Any.reseg_loop reseg_loop]. unfold Any.reseg_step, reseg_step.
  rewrite ascii_next_is_upper.
  destruct st as [sentences cand].
  destruct (15 <=? List.length (cand ++ [w]))%nat; cbn [bind]; [|apply IH].
  destruct (next_is_upper words i) as [[|]|e]; cbn [bind]; [apply IH| |reflexivity].
  destruct (20 <=? List.length (cand ++ [w]))%nat; cbn [bind]; apply IH.
Qed.

Lemma ascii_sentences_of full_text :
  Any.sentences_of ascii_lib full_text = sentences_of full_text.
Proof.
  unfold Any.sentences_of, sentences_of, Any.resegment, resegment.
  cbn [ascii_lib lib_split lib_len lib_split_sentences].
  now rewrite ascii_reseg_loop.
Qed.

Lemma ascii_capitalize para : Any.capitalize ascii_lib para = capitalize para.
Proof.
  unfold Any.capitalize, capitalize, Any.first_char.
  cbn [ascii_lib lib_len lib_first lib_upper lib_rest].
  destruct (1 <? String.length para)%nat; [|reflexivity].
  destruct para as [|c s]; reflexivity.
Qed.

Lemma ascii_finish_loop paragraphs : forall acc,
  Any.finish_loop ascii_lib acc paragraphs = finish_loop acc paragraphs.
Proof.
  induction paragraphs as [|para more IH]; intros acc; [reflexivity|].
  cbn [Any.finish_loop finish_loop]. unfold Any.finish_step, finish_step.
  rewrite ascii_capitalize. cbn [ascii_lib lib_strip].
  destruct (Py.truthy (Py.strip para)); cbn [bind]; [|apply IH].
  destruct (capitalize (Py.strip para)) as [p|e]; cbn [bind]; [|reflexivity].
  destruct (final_char p) as [c|e]; cbn [bind]; [apply IH | reflexivity].
Qed.

Lemma ascii_collect_loop segments : forall acc,
  Any.collect_loop ascii_lib acc segments = collect_loop acc segments.
Proof.
  induction segments as [|seg more IH]; intros acc; [reflexivity|].
  cbn [Any.collect_loop collect_loop].
  change (Any.collect_step ascii_lib acc seg) with (collect_step acc seg).
  destruct (collect_step acc seg); cbn [bind]; [apply IH | reflexivity].
Qed.

Lemma ascii_paragraphs_of sentences :
  Any.paragraphs_of ascii_lib sentences = paragraphs_of sentences.
Proof. reflexivity. Qed.

Lemma ascii_formatted_paragraphs segments :
  Any.formatted_paragraphs_of ascii_lib segments = formatted_paragraphs_of segments.
Proof.
  unfold Any.formatted_paragraphs_of, formatted_paragraphs_of, Any.full_text_of, full_text_of.
  rewrite ascii_collect_loop.
  destruct (collect_loop [] segments) as [all_text|e]; cbn [bind]; [|reflexivity].
  cbn [ascii_lib lib_sub_spaces]. rewrite ascii_sentences_of.
  destruct (sentences_of _) as [ss|e]; cbn [bind]; [|reflexivity].
  rewrite ascii_paragraphs_of. apply ascii_finish_loop.
Qed.

Lemma ascii_format_transcript segments :
  Any.format_transcript ascii_lib segments = format_transcript segments.
Proof.
  unfold Any.format_transcript, format_transcript.
  now rewrite ascii_formatted_paragraphs.
Qed.

Lemma ascii_good_start p :
  p <> ""%string -> good_start (finished ascii_lib p) = true.
Proof.
  intros Hp. unfold finished, capitalized. cbn [ascii_lib lib_first lib_upper lib_rest].
  destruct p as [|c s]; [congruence|].
  destruct (good_end _); cbn [Py.str_upper Py.map_str append good_start];
    now rewrite upper_not_lower.
Qed.

Lemma ascii_starts_upper w : starts_upper_in ascii_lib w = starts_upper w.
Proof.
  destruct w as [[|c w]|]; cbn [starts_upper_in starts_upper ascii_lib lib_first lib_isupper];
    [reflexivity | apply isupper_one | reflexivity].
Qed.

Lemma ascii_reseg_spec ws : forall cand,
  reseg_spec_in ascii_lib cand ws = reseg_spec cand ws.
Proof.
  induction ws as [|w rest IH]; intros cand; [reflexivity|].
  cbn [reseg_spec_in reseg_spec]. unfold closes_in, closes.
  rewrite ascii_starts_upper, !IH. reflexivity.
Qed.

(** C3, as stated, fails: a paragraph that starts with a digit stays as it
    is, it does not start with an uppercase letter; and a dictionary whose
    text is [None] makes [format_transcript] raise, with any library. *)
Lemma C3_counterexample :
  Any.format_transcript ascii_lib [SegDict (Some (Str "42 is the answer"))]
    = Ok "42 is the answer."%string /\
  Any.formatted_paragraphs_of ascii_lib [SegDict (Some (Str "42 is the answer"))]
    = Ok ["42 is the answer."%string] /\
  starts_with_uppercase "42 is the answer." = false /\
  (forall L, Any.format_transcript L [SegDict (Some NoneValue)] = Raise AttributeError).
Proof.
  split; [vm_compute; reflexivity|]. split; [vm_compute; reflexivity|].
  split; [reflexivity|]. intros L. reflexivity.
Qed.

(** C3, amended: with the text library of Python, whatever the characters
    of the texts: when the text of every segment is a string,
    [format_transcript] does not raise, whatever the shapes of the segments
    (an object with a text, a dictionary with or without the key 'text',
    anything else through [str]), and returns the paragraphs joined by blank
    lines; every paragraph written comes from a paragraph that is not empty,
    with its first character upper-cased by [str.upper] and the rest as it
    was, and a full stop added unless it ends in '.', '!' or '?'; so it ends
    in one of the three, and starts with what [str.upper] makes of its first
    character (a digit or a sign stays as it is; on ASCII text the
    paragraph never starts with a lowercase letter).  No segment gives the
    empty string, and a missing text is treated as the empty text.  On the
    library for ASCII text this is the executable model used elsewhere. *)
Theorem C3_paragraphs_well_formed (L : TextLib) (segments l1 l2 : list segment) :
  text_laws L ->
  (forallb text_is_str segments = true ->
   exists paragraphs,
     Any.formatted_paragraphs_of L segments = Ok (map (finished L) paragraphs) /\
     (segments <> [] ->
      Any.format_transcript L segments
      = Ok (Py.join blank_line (map (finished L) paragraphs))) /\
     Forall (fun p => p <> ""%string /\
                      good_end (finished L p) = true /\
                      exists c, lib_first L p = Some c /\ c <> ""%string /\
                        p = (c ++ lib_rest L p)%string /\
                        (finished L p = (lib_upper L c ++ lib_rest L p)%string \/
                         finished L p = ((lib_upper L c ++ lib_rest L p) ++ ".")%string))
            paragraphs) /\
  Any.format_transcript L [] = Ok ""%string /\
  Any.format_transcript L (l1 ++ SegDict None :: l2)
    = Any.format_transcript L (l1 ++ SegDict (Some (Str "")) :: l2) /\
  Any.format_transcript ascii_lib segments = format_transcript segments /\
  (forall p, ascii_only p = true -> p <> ""%string ->
     good_start (finished ascii_lib p) = true).
Proof.
  intros HL. split; [|split; [|split; [|split]]].
  - intros Hstr.
    destruct (any_full_text_ok L segments Hstr) as [full_text Hfull].
    destruct (any_sentences_ok L HL full_text) as [ss Hss].
    exists (written L (Any.paragraphs_of L ss)).
    assert (Hp : Any.formatted_paragraphs_of L segments
                 = Ok (map (finished L) (written L (Any.paragraphs_of L ss)))).
    { unfold Any.formatted_paragraphs_of. rewrite Hfull. cbn [bind]. rewrite Hss. cbn [bind].
      now rewrite any_finish_loop. }
    split; [exact Hp|]. split.
    + intros Hne. unfold Any.format_transcript. rewrite Hp. cbn [bind].
      destruct segments; [congruence | reflexivity].
    + now apply written_facts.
  - reflexivity.
  - assert (Hfull : Any.full_text_of L (l1 ++ SegDict None :: l2)
                    = Any.full_text_of L (l1 ++ SegDict (Some (Str "")) :: l2)).
    { unfold Any.full_text_of. rewrite !any_collect_loop_app.
      destruct (Any.collect_loop L [] l1) as [all_text|e]; reflexivity. }
    unfold Any.format_transcript, Any.formatted_paragraphs_of. rewrite Hfull.
    destruct l1; reflexivity.
  - apply ascii_format_transcript.
  - intros p _ Hp. now apply ascii_good_start.
Qed.

Lemma C3_witness :
  text_laws ascii_lib /\
  forallb text_is_str
    [SegObject (Str "hello world"); SegDict None; SegOther "[music] how are you"] = true /\
  Any.format_transcript ascii_lib
    [SegObject (Str "hello world"); SegDict None; SegOther "[music] how are you"]
  = Ok "Hello world how are you."%string.
Proof.
  split; [exact ascii_lib_laws|]. split; [reflexivity|].
  destruct (proj1 (C3_paragraphs_well_formed ascii_lib
                     [SegObject (Str "hello world"); SegDict None;
                      SegOther "[music] how are you"] [] [] ascii_lib_laws) eq_refl)
    as (paras & Hp & H & _).
  specialize (H ltac:(discriminate)).
  assert (E : map (finished ascii_lib) paras = ["Hello world how are you."%string]).
  { vm_compute in Hp. now injection Hp. }
  rewrite H, E. reflexivity.
Defined.

(** C9: with the text library of Python, whatever the characters of the
    text: when the cleaned text splits into at most 3 sentences and has more
    than 200 characters, the sentences are those of the word-count
    re-segmentation: the words of [split()] are added to a candidate, which
    is closed as soon as it has 15 words or more and the next word starts
    with an uppercase character ([isupper] of its first character), or as
    soon as it has 20 words; the words left over form the last sentence;
    the paragraphs are made from these sentences.  On the library for ASCII
    text this is the executable model used elsewhere. *)
Theorem C9_resegmentation (L : TextLib) (segments : list segment) (full_text : string) :
  text_laws L ->
  Any.full_text_of L segments = Ok full_text ->
  List.length (lib_split_sentences L full_text) <= 3 ->
  200 < lib_len L full_text ->
  Any.sentences_of L full_text = Ok (reseg_spec_in L [] (lib_split L full_text)) /\
  Any.formatted_paragraphs_of L segments
    = Any.finish_loop L [] (Any.paragraphs_of L (reseg_spec_in L [] (lib_split L full_text))) /\
  Any.sentences_of ascii_lib full_text = sentences_of full_text /\
  (forall ws, reseg_spec_in ascii_lib [] ws = reseg_spec [] ws).
Proof.
  intros HL Hfull H3 H200.
  assert (Hs : Any.sentences_of L full_text
               = Ok (reseg_spec_in L [] (lib_split L full_text))).
  { unfold Any.sentences_of.
    destruct (Nat.leb_spec (List.length (lib_split_sentences L full_text)) 3); [|lia].
    destruct (Nat.ltb_spec 200 (lib_len L full_text)); [|lia].
    cbn [andb]. now apply any_resegment. }
  split; [exact Hs|]. split.
  - unfold Any.formatted_paragraphs_of. rewrite Hfull. cbn [bind]. rewrite Hs. reflexivity.
  - split; [apply ascii_sentences_of | intros ws; apply ascii_reseg_spec].
Qed.

Lemma C9_witness :
  text_laws ascii_lib /\
  Any.full_text_of ascii_lib [SegObject (Str long_text)] = Ok long_text /\
  List.length (lib_split_sentences ascii_lib long_text) <= 3 /\
  200 < lib_len ascii_lib long_text /\
  Any.sentences_of ascii_lib long_text
  = Ok [ "one two three four five six seven eight nine ten eleven twelve thirteen fourteen fifteen"%string;
         "Sixteen seventeen eighteen nineteen twenty twentyone twentytwo twentythree twentyfour twentyfive twentysix twentyseven twentyeight twentynine thirty thirtyone thirtytwo thirtythree thirtyfour thirtyfive"%string;
         "thirtysix thirtyseven thirtyeight"%string ].
Proof.
  assert (Hfull : Any.full_text_of ascii_lib [SegObject (Str long_text)] = Ok long_text)
    by (vm_compute; reflexivity).
  assert (H3 : List.length (lib_split_sentences ascii_lib long_text) <= 3)
    by (apply Nat.leb_le; vm_compute; reflexivity).
  assert (H200 : 200 < lib_len ascii_lib long_text)
    by (apply Nat.ltb_lt; vm_compute; reflexivity).
  split; [exact ascii_lib_laws|].
  split; [exact Hfull|]. split; [exact H3|]. split; [exact H200|].
  rewrite (proj1 (C9_resegmentation ascii_lib [SegObject (Str long_text)] long_text
                    ascii_lib_laws Hfull H3 H200)).
  vm_compute. reflexivity.
Defined.

End ReflowFacts.

Section RequestsFacts.
Local Open Scope nat_scope.
Local Open Scope string_scope.
Local Open Scope list_scope.

(** ** A request with a URL that does not resolve *)

Section Unresolvable.
Variable L : UrlLib.
Variable P : Providers.

Lemma get_transcript_unresolvable url log :
  URLExtractor.extract_video_id L url = Ok None ->
  get_transcript L P url log
  = (Raise (HTTPException 500 (str_of_exn P (HTTPException 400 "Invalid YouTube URL"))), log).
Proof.
  intros H. unfold get_transcript, try_exceptM, bindM, lift, raise.
  rewrite H. reflexivity.
Qed.

Lemma process_url_unresolvable now url out md quiet log :
  URLExtractor.extract_video_id L url = Ok None ->
  process_url L P now url out md quiet log
  = (Ok false,
     log ++ (if quiet then [] else [Stdout ("Processing: " ++ url)%string])
         ++ [Stderr ("Error: Could not extract video ID from URL: " ++ url)%string]).
Proof.
  intros H. unfold process_url, when, bindM, lift, emit, ret.
  rewrite H. destruct quiet; cbn [negb falsy].
  - rewrite app_nil_l. reflexivity.
  - rewrite <- app_assoc. reflexivity.
Qed.

End Unresolvable.

(** C1 (the code departs from it): when the extractor returns [None] for
    the URL of a request, no provider is called, and the command line
    reports the invalid URL and returns [False]; but the handler of the web
    API answers with status 500: its [HTTPException] of status 400 is
    raised inside the [try] block, whose [except Exception] turns it into
    one of status 500. *)
Theorem C1_unresolvable_url (L : UrlLib) (P : Providers) (url now : string)
  (out : option string) (md quiet : bool) (log : list event) :
  URLExtractor.extract_video_id L url = Ok None ->
  (exists detail,
     get_transcript L P url log = (Raise (HTTPException 500 detail), log)) /\
  status_of (fst (get_transcript L P url log)) = 500%Z /\
  (exists printed,
     process_url L P now url out md quiet log = (Ok false, log ++ printed) /\
     forallb (fun e => negb (is_provider_call e)) printed = true).
Proof.
  intros H. rewrite (get_transcript_unresolvable L P url log H).
  split; [eexists; reflexivity|]. split; [reflexivity|].
  rewrite (process_url_unresolvable L P now url out md quiet log H).
  eexists. split; [reflexivity|]. destruct quiet; reflexivity.
Qed.

Lemma C1_witness :
  URLExtractor.extract_video_id Urllib.lib "random text" = Ok None /\
  status_of (fst (get_transcript Urllib.lib no_provider "random text" [])) = 500%Z /\
  snd (get_transcript Urllib.lib no_provider "random text" []) = [].
Proof.
  assert (H : URLExtractor.extract_video_id Urllib.lib "random text" = Ok None)
    by (vm_compute; reflexivity).
  split; [exact H|].
  destruct (C1_unresolvable_url Urllib.lib no_provider "random text" "" None true true [] H)
    as ((detail & Hweb) & Hstatus & _).
  split; [exact Hstatus|]. rewrite Hweb. reflexivity.
Defined.

End RequestsFacts.

Section MatcherFacts.
Import Re.
Local Open Scope nat_scope.
Local Open Scope string_scope.
Local Open Scope list_scope.

(** ** The matcher as a list of successes

    [run_all fl r st] lists the states in which [r] can end from [st], in
    the order in which the matcher tries them. *)

Lemma orelse_assoc {R : Type} (x y z : option R) :
  orelse (orelse x y) z = orelse x (orelse y z).
Proof. now destruct x. Qed.

Lemma orelse_none_r {R : Type} (x : option R) : orelse x None = x.
Proof. now destruct x. Qed.

Lemma first_some_app {A R : Type} (k : A -> option R) l1 l2 :
  first_some k (l1 ++ l2) = orelse (first_some k l1) (first_some k l2).
Proof.
  induction l1 as [|x l1 IH]; [reflexivity|].
  cbn [Datatypes.app first_some]. now rewrite IH, orelse_assoc.
Qed.

Lemma first_some_ext {A R : Type} (f g : A -> option R) l :
  (forall x, f x = g x) -> first_some f l = first_some g l.
Proof.
  intros H. induction l as [|x l IH]; [reflexivity|].
  cbn [first_some]. now rewrite H, IH.
Qed.

Lemma first_some_flat_map {A B R : Type} (k : B -> option R) (f : A -> list B) l :
  first_some k (flat_map f l) = first_some (fun x => first_some k (f x)) l.
Proof.
  induction l as [|x l IH]; [reflexivity|].
  cbn [flat_map first_some]. now rewrite first_some_app, IH.
Qed.

Lemma first_some_map {A B R : Type} (k : B -> option R) (f : A -> B) l :
  first_some k (map f l) = first_some (fun x => k (f x)) l.
Proof.
  induction l as [|x l IH]; [reflexivity|].
  cbn [map first_some]. now rewrite IH.
Qed.

Lemma first_some_id {A : Type} (l : list A) :
  first_some (fun x => Some x) l = hd_error l.
Proof. destruct l; reflexivity. Qed.

Lemma greedy_spec {R : Type} fl cs (k : state -> option R) s : forall p pv cp,
  greedy fl cs k p pv cp s = first_some k (greedy_all fl cs p pv cp s).
Proof.
  induction s as [|c s IH]; intros p pv cp; cbn [greedy greedy_all].
  - cbn [first_some]. now rewrite orelse_none_r.
  - destruct (test fl cs c).
    + rewrite first_some_app, IH. cbn [first_some]. now rewrite orelse_none_r.
    + cbn [first_some]. now rewrite orelse_none_r.
Qed.

Lemma lazy_spec {R : Type} fl cs (k : state -> option R) s : forall p pv cp,
  lazy_ fl cs k p pv cp s = first_some k (lazy_all fl cs p pv cp s).
Proof.
  induction s as [|c s IH]; intros p pv cp; cbn [lazy_ lazy_all first_some].
  - reflexivity.
  - destruct (test fl cs c); [now rewrite IH | reflexivity].
Qed.

Lemma one_spec {R : Type} fl cs st (k : state -> option R) :
  one fl cs st k = first_some k (one_all fl cs st).
Proof.
  unfold one, one_all. destruct (rest st) as [|c s]; [reflexivity|].
  destruct (test fl cs c); cbn [first_some]; [now rewrite orelse_none_r | reflexivity].
Qed.

(** The matcher returns the first success of its continuation along
    [run_all]. *)
Lemma run_all_spec fl r : forall (R : Type) st (k : state -> option R),
  run fl r st k = first_some k (run_all fl r st).
Proof.
  induction r; intros R st k; cbn [run run_all].
  - cbn [first_some]. now rewrite orelse_none_r.
  - apply one_spec.
  - rewrite IHr1, first_some_flat_map. apply first_some_ext. intros x. apply IHr2.
  - now rewrite first_some_app, IHr1, IHr2.
  - rewrite first_some_app, IHr. cbn [first_some]. now rewrite orelse_none_r.
  - apply greedy_spec.
  - rewrite one_spec, first_some_flat_map. apply first_some_ext. intros x. apply greedy_spec.
  - apply lazy_spec.
  - rewrite one_spec, first_some_flat_map. apply first_some_ext. intros x. apply lazy_spec.
  - rewrite IHr, first_some_map. reflexivity.
  - destruct (at_bol fl st); cbn [first_some]; [now rewrite orelse_none_r | reflexivity].
  - destruct (at_eol fl st); cbn [first_some]; [now rewrite orelse_none_r | reflexivity].
  - rewrite IHr, first_some_id.
    destruct (run_all fl r st); cbn [hd_error first_some];
      [reflexivity | now rewrite orelse_none_r].
  - destruct (prev st) as [c|]; [|reflexivity].
    destruct (test fl cs c); cbn [first_some]; [now rewrite orelse_none_r | reflexivity].
Qed.

Lemma try_at_all fl r p pv s :
  try_at fl r p pv s = option_map (Match p) (hd_error (run_all fl r (State p pv s []))).
Proof. unfold try_at. now rewrite run_all_spec, first_some_id. Qed.

Lemma ahead_refl st : ahead_of st st.
Proof. exists ""%string. split; [reflexivity | simpl; lia]. Qed.

Lemma ahead_trans a b c : ahead_of a b -> ahead_of b c -> ahead_of a c.
Proof.
  intros (u & Hu & Hp) (v & Hv & Hq). exists (u ++ v)%string. split.
  - now rewrite Hu, Hv, append_assoc.
  - rewrite length_append. lia.
Qed.

Lemma greedy_all_ahead fl cs s : forall p pv cp st1,
  In st1 (greedy_all fl cs p pv cp s) -> ahead_of (State p pv s cp) st1.
Proof.
  induction s as [|c s IH]; intros p pv cp st1 Hin; cbn [greedy_all] in Hin.
  - destruct Hin as [<- | []]. apply ahead_refl.
  - destruct (test fl cs c).
    + apply in_app_or in Hin as [Hin | [<- | []]]; [|apply ahead_refl].
      destruct (IH _ _ _ _ Hin) as (u & Hu & Hp). cbn [rest pos] in *.
      exists (String c u). split; [simpl; now rewrite Hu | simpl; lia].
    + destruct Hin as [<- | []]. apply ahead_refl.
Qed.

Lemma lazy_all_ahead fl cs s : forall p pv cp st1,
  In st1 (lazy_all fl cs p pv cp s) -> ahead_of (State p pv s cp) st1.
Proof.
  induction s as [|c s IH]; intros p pv cp st1 Hin; cbn [lazy_all] in Hin.
  - destruct Hin as [<- | []]. apply ahead_refl.
  - destruct Hin as [<- | Hin]; [apply ahead_refl|].
    destruct (test fl cs c); [|contradiction].
    destruct (IH _ _ _ _ Hin) as (u & Hu & Hp). cbn [rest pos] in *.
    exists (String c u). split; [simpl; now rewrite Hu | simpl; lia].
Qed.

Lemma one_all_ahead fl cs st st1 :
  In st1 (one_all fl cs st) ->
  exists c, rest st = String c (rest st1) /\ pos st1 = S (pos st) /\
            test fl cs c = true /\ caps st1 = caps st /\ prev st1 = Some c.
Proof.
  unfold one_all. destruct (rest st) as [|c s]; [contradiction|].
  destruct (test fl cs c) eqn:E; [|contradiction].
  intros [<- | []]. exists c. cbn. auto.
Qed.

Lemma state_eta st : State (pos st) (prev st) (rest st) (caps st) = st.
Proof. now destruct st. Qed.

Lemma run_all_ahead fl r : forall st st1,
  In st1 (run_all fl r st) -> ahead_of st st1.
Proof.
  induction r; intros st st1 Hin; cbn [run_all] in Hin.
  - destruct Hin as [<- | []]. apply ahead_refl.
  - destruct (one_all_ahead _ _ _ _ Hin) as (c & Hr & Hp & _).
    exists (String c ""). split; [exact Hr | simpl; lia].
  - apply in_flat_map in Hin as (st' & H1 & H2).
    eapply ahead_trans; [apply IHr1 | apply IHr2]; eassumption.
  - apply in_app_or in Hin as [Hin | Hin]; [now apply IHr1 | now apply IHr2].
  - apply in_app_or in Hin as [Hin | [<- | []]]; [now apply IHr | apply ahead_refl].
  - rewrite <- (state_eta st) at 1. now apply greedy_all_ahead in Hin.
  - apply in_flat_map in Hin as (st' & H1 & H2).
    destruct (one_all_ahead _ _ _ _ H1) as (c & Hr & Hp & _).
    apply greedy_all_ahead in H2. rewrite state_eta in H2.
    eapply ahead_trans; [|exact H2].
    exists (String c ""). split; [exact Hr | simpl; lia].
  - rewrite <- (state_eta st) at 1. now apply lazy_all_ahead in Hin.
  - apply in_flat_map in Hin as (st' & H1 & H2).
    destruct (one_all_ahead _ _ _ _ H1) as (c & Hr & Hp & _).
    apply lazy_all_ahead in H2. rewrite state_eta in H2.
    eapply ahead_trans; [|exact H2].
    exists (String c ""). split; [exact Hr | simpl; lia].
  - apply in_map_iff in Hin as (st' & <- & H1).
    destruct (IHr _ _ H1) as (u & Hu & Hp). exists u. now split.
  - destruct (at_bol fl st); [|contradiction]. destruct Hin as [<- | []]. apply ahead_refl.
  - destruct (at_eol fl st); [|contradiction]. destruct Hin as [<- | []]. apply ahead_refl.
  - destruct (run_all fl r st); [contradiction|].
    destruct Hin as [<- | []]. exists ""%string. split; [reflexivity | simpl; lia].
  - destruct (prev st) as [c|]; [|contradiction].
    destruct (test fl cs c); [|contradiction]. destruct Hin as [<- | []]. apply ahead_refl.
Qed.

Lemma without_ahead fl x st st1 :
  ahead_of st st1 -> without fl x (rest st) = true -> without fl x (rest st1) = true.
Proof.
  intros (u & Hu & _) H. unfold without in *. rewrite Hu, all_str_app in H.
  now apply andb_true_iff in H.
Qed.

Lemma run_all_mandatory fl x r : forall st,
  mandatory x r = true -> without fl x (rest st) = true -> run_all fl r st = [].
Proof.
  induction r; intros st Hm Hw; cbn [mandatory] in Hm; try discriminate Hm; cbn [run_all].
  - destruct cs as [y| |]; try discriminate Hm.
    apply Ascii.eqb_eq in Hm. subst y.
    unfold one_all. destruct (rest st) as [|c s]; [reflexivity|].
    unfold without in Hw. cbn [Py.all_str] in Hw.
    apply andb_true_iff in Hw as [Hc _]. apply negb_true_iff in Hc. now rewrite Hc.
  - apply orb_true_iff in Hm as [Hm | Hm].
    + now rewrite IHr1.
    + assert (H : forall st1, In st1 (run_all fl r1 st) -> run_all fl r2 st1 = []).
      { intros st1 Hin. apply IHr2; [exact Hm|].
        eapply without_ahead; [apply (run_all_ahead _ _ _ _ Hin) | exact Hw]. }
      induction (run_all fl r1 st) as [|a l IHl]; [reflexivity|].
      cbn [flat_map]. rewrite (H a (or_introl eq_refl)), IHl; [reflexivity|].
      intros st1 Hin. apply H. now right.
  - apply andb_true_iff in Hm as [H1 H2]. now rewrite IHr1, IHr2.
  - now rewrite IHr.
Qed.

Lemma search_from_mandatory fl x r s : forall p pv,
  mandatory x r = true -> without fl x s = true -> search_from fl r p pv s = None.
Proof.
  induction s as [|c s IH]; intros p pv Hm Hw; cbn [search_from];
    rewrite try_at_all, (run_all_mandatory fl x r) by assumption; cbn [hd_error option_map].
  - reflexivity.
  - apply IH; [assumption|]. unfold without in *. cbn [Py.all_str] in Hw.
    now apply andb_true_iff in Hw.
Qed.

(** ** Repetitions of a class *)

Lemma flat_map_singleton {A : Type} (l : list A) : flat_map (fun x => [x]) l = l.
Proof. induction l as [|x l IH]; simpl; congruence. Qed.

Lemma run_all_rep_succ fl r n st :
  run_all fl (rep (S n) r) st = flat_map (run_all fl (rep n r)) (run_all fl r st).
Proof.
  destruct n; [|reflexivity].
  cbn [rep run_all]. now rewrite flat_map_singleton.
Qed.

Lemma run_all_rep_hit fl cs n : forall st w t,
  rest st = (w ++ t)%string -> String.length w = n ->
  Py.all_str (test fl cs) w = true ->
  exists pv', run_all fl (rep n (Chr cs)) st = [State (pos st + n) pv' t (caps st)].
Proof.
  induction n as [|n IH]; intros st w t Hr Hl Hall.
  - destruct w; [|discriminate Hl]. exists (prev st). cbn [rep run_all].
    simpl in Hr. rewrite Nat.add_0_r, <- Hr. now rewrite state_eta.
  - destruct w as [|c w]; [discriminate Hl|]. injection Hl as Hl.
    cbn [Py.all_str] in Hall. apply andb_true_iff in Hall as [Hc Hw].
    rewrite run_all_rep_succ. cbn [run_all]. unfold one_all.
    cbn [append] in Hr. rewrite Hr, Hc. cbn [flat_map].
    destruct (IH (State (S (pos st)) (Some c) (w ++ t)%string (caps st)) w t eq_refl Hl Hw)
      as [pv' ->].
    exists pv'. cbn [pos caps Datatypes.app]. now rewrite Nat.add_succ_r.
Qed.

Lemma run_all_rep_in fl cs n : forall st st1,
  In st1 (run_all fl (rep n (Chr cs)) st) ->
  exists w, rest st = (w ++ rest st1)%string /\ String.length w = n /\
            Py.all_str (test fl cs) w = true /\
            pos st1 = pos st + n /\ caps st1 = caps st.
Proof.
  induction n as [|n IH]; intros st st1 Hin.
  - cbn [rep run_all] in Hin. destruct Hin as [<- | []].
    exists ""%string. repeat split; simpl; lia.
  - rewrite run_all_rep_succ in Hin. apply in_flat_map in Hin as (st' & H1 & H2).
    cbn [run_all] in H1.
    destruct (one_all_ahead _ _ _ _ H1) as (c & Hr & Hp & Hc & Hcaps & _).
    destruct (IH _ _ H2) as (w & Hw & Hl & Hall & Hq & Hcaps').
    exists (String c w). cbn [append String.length Py.all_str].
    rewrite Hr, Hw, Hl, Hc, Hall. repeat split; [lia | congruence].
Qed.

(** ** The subject of a search *)


Lemma substring_skip w0 : forall n s, substring (String.length w0) n (w0 ++ s) = substring 0 n s.
Proof. induction w0 as [|c w0 IH]; intros n s; [reflexivity | apply IH]. Qed.

Lemma substring_prefix w : forall t, substring 0 (String.length w) (w ++ t) = w.
Proof.
  induction w as [|c w IH]; intros t; cbn [String.length append substring].
  - now destruct t.
  - now rewrite IH.
Qed.


Lemma append_inj_length (u v a b : string) :
  (u ++ a = v ++ b)%string -> String.length u = String.length v -> u = v /\ a = b.
Proof.
  revert v. induction u as [|c u IH]; intros [|d v] H Hl; try discriminate Hl.
  - now split.
  - cbn [append] in H. injection H as -> H. injection Hl as Hl.
    destruct (IH v H Hl) as [-> ->]. now split.
Qed.

End MatcherFacts.

Section ExtractorFacts.
Import Re URLExtractor.
Local Open Scope nat_scope.
Local Open Scope string_scope.
Local Open Scope list_scope.

(** ** Searching a subject whose tail is an identifier

    The subject is [w ++ t]: [w] is known, [t] is any run of [n] characters
    of the class [cs] that the pattern [pre] cannot match into. *)

Section Scan.
Variable fl : flags.
Variable cs : cset.
Variable n : nat.
Variable x : ascii.
Variable t tail : string.
Hypothesis t_length : String.length t = n.
Hypothesis t_class : Py.all_str (test fl cs) t = true.

Let G : regex := Group 1 (rep n (Chr cs)).

Lemma group_hit st1 :
  rest st1 = (t ++ tail)%string ->
  exists pv', run_all fl G st1
    = [set_cap 1 (pos st1) (pos st1 + n) (State (pos st1 + n) pv' tail (caps st1))].
Proof.
  intros Hr. unfold G. cbn [run_all].
  destruct (run_all_rep_hit fl cs n st1 t tail) as [pv' ->].
  - exact Hr.
  - exact t_length.
  - exact t_class.
  - exists pv'. reflexivity.
Qed.

Lemma scan_sound pre w : forall p pv,
  match scan fl pre p pv w (t ++ tail) with
  | Hit g =>
      g = p + String.length w /\
      exists m, search_from fl (Seq pre G) p pv (w ++ t ++ tail) = Some m /\
                assoc 1 (caps (m_end m)) = Some (g, g + n)
  | Miss =>
      mandatory x pre = true -> without fl x (t ++ tail) = true ->
      search_from fl (Seq pre G) p pv (w ++ t ++ tail) = None
  | Unknown => True
  end.
Proof.
  induction w as [|c w IH]; intros p pv.
  - cbn [scan append]. intros Hm Hw. apply (search_from_mandatory fl x); [|exact Hw].
    cbn [mandatory]. now rewrite Hm.
  - cbn [scan]. destruct (run_all fl pre (State p pv (String c w ++ t ++ tail) [])) as [|st1 l] eqn:E.
    + specialize (IH (S p) (Some c)).
      assert (Hstep : search_from fl (Seq pre G) p pv (String c w ++ t ++ tail)
                      = search_from fl (Seq pre G) (S p) (Some c) (w ++ t ++ tail)).
      { cbn [append search_from]. rewrite try_at_all. cbn [run_all].
        cbn [append] in E. rewrite E. reflexivity. }
      destruct (scan fl pre (S p) (Some c) w (t ++ tail)) as [g| |].
      * destruct IH as (Hg & m & Hs & Ha). split; [cbn [String.length]; lia|].
        exists m. now rewrite Hstep.
      * intros Hm Hw. rewrite Hstep. now apply IH.
      * exact I.
    + destruct (Nat.eqb_spec (pos st1) (p + String.length (String c w))) as [Hp|]; [|exact I].
      split; [exact Hp|].
      assert (Hin : In st1 (run_all fl pre (State p pv (String c w ++ t ++ tail) [])))
        by (rewrite E; now left).
      destruct (run_all_ahead _ _ _ _ Hin) as (u & Hu & Hq). cbn [rest pos] in Hu, Hq.
      assert (Hlen : String.length (String c w) = String.length u) by lia.
      destruct (append_inj_length _ _ _ _ Hu Hlen) as [_ Ht].
      destruct (group_hit st1 (eq_sym Ht)) as [pv' HG].
      eexists. split.
      * cbn [append search_from]. rewrite try_at_all. cbn [run_all].
        cbn [append] in E. rewrite E. cbn [flat_map]. rewrite HG.
        cbn [Datatypes.app hd_error option_map]. reflexivity.
      * cbn [m_end set_cap caps assoc Nat.eqb]. reflexivity.
Qed.


Lemma scan_list_sound pres others w :
  forallb (mandatory x) pres = true ->
  without fl x (t ++ tail) = true ->
  match scan_list fl pres w (t ++ tail) with
  | Hit g =>
      g = String.length w /\
      first_span fl (map (fun pre => Seq pre G) pres ++ others) (w ++ t ++ tail)
      = Some (g, g + n)
  | Miss =>
      first_span fl (map (fun pre => Seq pre G) pres ++ others) (w ++ t ++ tail)
      = first_span fl others (w ++ t ++ tail)
  | Unknown => True
  end.
Proof.
  intros Hm Hw. revert Hm.
  induction pres as [|pre more IH]; intros Hm; cbn [scan_list map Datatypes.app].
  - reflexivity.
  - cbn [forallb] in Hm. apply andb_true_iff in Hm as [Hpre Hmore].
    pose proof (scan_sound pre w 0 None) as Hs.
    destruct (scan fl pre 0 None w (t ++ tail)) as [g| |].
    + destruct Hs as (Hg & m & Hsearch & Ha). split; [exact Hg|].
      cbn [first_span]. unfold search. now rewrite Hsearch, Ha.
    + specialize (IH Hmore). cbn [first_span]. unfold search. rewrite (Hs Hpre Hw).
      destruct (scan_list fl more w (t ++ tail)); exact IH.
    + exact I.
Qed.

End Scan.

(** ** The patterns of the extractor *)

Lemma id_class_icase c : test IGNORECASE (CClass id_char) c = id_char c.
Proof. each_char c; reflexivity. Qed.

Lemma id_char_not_dot c : id_char c = true -> negb (test IGNORECASE (CLit ".") c) = true.
Proof. each_char c; vm_compute; congruence. Qed.

Lemma id_char_not_slash c : id_char c = true -> negb (test IGNORECASE (CLit "/") c) = true.
Proof. each_char c; vm_compute; congruence. Qed.

Lemma is_id_facts t :
  is_id t = true ->
  String.length t = 11 /\ Py.all_str (test IGNORECASE (CClass id_char)) t = true /\
  without IGNORECASE "." t = true /\ without IGNORECASE "/" t = true.
Proof.
  unfold is_id. intros H. apply andb_true_iff in H as [Hl Hc].
  apply Nat.eqb_eq in Hl. repeat split; [exact Hl | | |].
  - revert Hc. apply all_str_weaken. intros c Hc. now rewrite id_class_icase.
  - revert Hc. apply all_str_weaken. exact id_char_not_dot.
  - revert Hc. apply all_str_weaken. exact id_char_not_slash.
Qed.

Lemma scan_shapes t :
  forallb (fun w =>
    match scan_list IGNORECASE url_prefixes w t with
    | Hit g => (g =? String.length w)%nat
    | _ => false
    end) url_shapes = true.
Proof. vm_compute. reflexivity. Qed.



Lemma search_from_hit fl r p pv s m :
  try_at fl r p pv s = Some m -> search_from fl r p pv s = Some m.
Proof. intros H. destruct s; cbn [search_from]; now rewrite H. Qed.

Lemma url_patterns_split :
  url_patterns
  = map (fun pre => Seq pre (Group 1 (rep 11 (Chr (CClass id_char))))) url_prefixes
    ++ [Seq Bol (Seq id_group Eol)].
Proof. reflexivity. Qed.


(** The last pattern, on a bare identifier. *)
Lemma bare_span t :
  is_id t = true ->
  first_span IGNORECASE [Seq Bol (Seq id_group Eol)] t = Some (0, 11).
Proof.
  intros Hid. destruct (is_id_facts t Hid) as (Hl & Hc & _).
  destruct (group_hit IGNORECASE (CClass id_char) 11 t "" Hl Hc (State 0 None t [])
              (eq_sym (append_nil_r t)))
    as [pv' HG].
  cbn [first_span]. unfold search.
  erewrite search_from_hit.
  2:{ rewrite try_at_all. cbn [run_all]. cbn [at_bol pos Nat.eqb orb flat_map].
      unfold id_group. rewrite HG. cbn [Datatypes.app flat_map run_all at_eol set_cap rest].
      cbn [hd_error option_map Datatypes.app]. reflexivity. }
  reflexivity.
Qed.

(** On a supported shape in lower case followed by an identifier and by
    a tail without the character [x], which every pattern needs, the first
    match is that of the shape and its group is the identifier. *)
Lemma shape_tail_span x w t tail :
  forallb (mandatory x) url_prefixes = true ->
  without IGNORECASE x (t ++ tail) = true ->
  In w url_shapes -> is_id t = true ->
  first_span IGNORECASE url_patterns (w ++ t ++ tail)
  = Some (String.length w, String.length w + 11).
Proof.
  intros Hm Hwo Hw Hid. destruct (is_id_facts t Hid) as (Hl & Hc & _).
  rewrite url_patterns_split.
  pose proof (scan_list_sound IGNORECASE (CClass id_char) 11 x t tail Hl Hc
                url_prefixes [Seq Bol (Seq id_group Eol)] w Hm Hwo) as Hs.
  pose proof (proj1 (forallb_forall _ _) (scan_shapes (t ++ tail)) w Hw) as Hscan.
  cbv beta in Hscan.
  destruct (scan_list IGNORECASE url_prefixes w (t ++ tail)) as [g| |];
    try discriminate Hscan.
  apply Nat.eqb_eq in Hscan. destruct Hs as [_ Hs]. now rewrite Hs, Hscan.
Qed.


(** On a supported shape in lower case, the first match is that of the
    shape and its group is the identifier that follows. *)
Lemma shape_span w t :
  In w (""%string :: url_shapes) -> is_id t = true ->
  first_span IGNORECASE url_patterns (w ++ t) = Some (String.length w, String.length w + 11).
Proof.
  intros Hw Hid. destruct (is_id_facts t Hid) as (Hl & Hc & Hwo & _).
  destruct Hw as [<- | Hw].
  - rewrite url_patterns_split.
    assert (Hwo' : without IGNORECASE "." (t ++ "") = true) by (now rewrite append_nil_r).
    pose proof (scan_list_sound IGNORECASE (CClass id_char) 11 "." t "" Hl Hc
                  url_prefixes [Seq Bol (Seq id_group Eol)] "" eq_refl Hwo') as Hs.
    assert (Hm : scan_list IGNORECASE url_prefixes "" (t ++ "") = Miss) by reflexivity.
    rewrite Hm in Hs. cbn [append] in Hs. rewrite append_nil_r in Hs.
    cbn [append]. rewrite Hs. apply bare_span. exact Hid.
  - rewrite <- (append_nil_r t) at 1.
    apply (shape_tail_span "."); [reflexivity | now rewrite append_nil_r | exact Hw | exact Hid].
Qed.

(** ** The validator *)

Lemma is_id_valid t : is_id t = true -> _is_valid_video_id t = true.
Proof.
  intros Hid. unfold is_id in Hid. apply andb_true_iff in Hid as [Hl Hc].
  apply Nat.eqb_eq in Hl. unfold _is_valid_video_id.
  destruct t as [|c t']; [discriminate Hl|]. cbn [Py.is_empty].
  destruct (run_all_rep_hit NOFLAGS (CClass id_char) 11 (State 0 None (String c t') [])
              (String c t') ""%string) as [pv' HR].
  - cbn [rest]. now rewrite append_nil_r.
  - exact Hl.
  - exact Hc.
  - rewrite try_at_all. cbn [run_all at_bol pos Nat.eqb orb flat_map].
    rewrite HR. cbn [flat_map run_all at_eol rest Datatypes.app hd_error option_map]. reflexivity.
Qed.

Lemma run_all_anchored fl R st :
  run_all fl (Seq Bol (Seq R Eol)) st
  = if at_bol fl st then flat_map (run_all fl Eol) (run_all fl R st) else [].
Proof.
  cbn [run_all]. destruct (at_bol fl st); cbn [flat_map]; [|reflexivity].
  now rewrite app_nil_r.
Qed.

Lemma valid_is_id v :
  _is_valid_video_id v = true ->
  exists w, is_id w = true /\ (v = w \/ v = (w ++ nl)%string).
Proof.
  unfold _is_valid_video_id. destruct (Py.is_empty v); [discriminate|].
  rewrite try_at_all, run_all_anchored.
  change (at_bol NOFLAGS (State 0 None v [])) with true. cbv iota.
  destruct (flat_map _ _) as [|st l] eqn:E; [discriminate|]. intros _.
  assert (Hin : In st (flat_map (run_all NOFLAGS Eol)
                         (run_all NOFLAGS (rep 11 (Chr (CClass id_char))) (State 0 None v []))))
    by (rewrite E; now left).
  apply in_flat_map in Hin as (st2 & H2 & HE).
  destruct (run_all_rep_in _ _ _ _ _ H2) as (w & Hr & Hl & Hall & _).
  cbn [rest] in Hr. exists w. split.
  - unfold is_id. rewrite Hl. exact Hall.
  - cbn [run_all] in HE. unfold at_eol in HE.
    destruct (rest st2) as [|c s'] eqn:Er.
    + left. now rewrite Hr, append_nil_r.
    + right. rewrite Hr. f_equal. cbn [multiline NOFLAGS orb] in HE.
      destruct (Ascii.eqb_spec c newline) as [-> |]; [|contradiction].
      destruct s'; [reflexivity | contradiction].
Qed.

(** ** The loop over the patterns *)

Lemma try_patterns_span ps s a b :
  first_span IGNORECASE ps s = Some (a, b) ->
  _is_valid_video_id (substring a (b - a) s) = true ->
  try_patterns ps s = Some (substring a (b - a) s).
Proof.
  intros Hspan Hvalid. induction ps as [|p more IH]; [discriminate Hspan|].
  cbn [first_span] in Hspan. cbn [try_patterns]. unfold group.
  destruct (search IGNORECASE p s) as [m|]; [|now apply IH].
  destruct (assoc 1 (caps (m_end m))) as [[a' b']|]; [|now apply IH].
  injection Hspan as -> ->. now rewrite Hvalid.
Qed.

Lemma try_patterns_valid ps s v :
  try_patterns ps s = Some v -> _is_valid_video_id v = true.
Proof.
  induction ps as [|p more IH]; [discriminate|]. cbn [try_patterns].
  destruct (search IGNORECASE p s) as [m|]; [|exact IH].
  destruct (group s m 1) as [g|]; [|exact IH].
  destruct (_is_valid_video_id g) eqn:E; [|exact IH].
  now intros [= <-].
Qed.

(** ** Case-insensitive matching depends on the subject up to case *)

Lemma lower_idem c : Py.lower (Py.lower c) = Py.lower c.
Proof. each_char c; reflexivity. Qed.

Lemma lower_newline c : Ascii.eqb (Py.lower c) newline = Ascii.eqb c newline.
Proof. each_char c; reflexivity. Qed.

Lemma class_lower (p : ascii -> bool) c :
  p (Py.lower c) || p (Py.lower (Py.lower c)) || p (Py.upper (Py.lower c))
  = p c || p (Py.lower c) || p (Py.upper c).
Proof.
  each_char c;
    match goal with
    | |- context [Py.lower ?a] =>
        let l := eval vm_compute in (Py.lower a) in
        let u := eval vm_compute in (Py.upper a) in
        let ll := eval vm_compute in (Py.lower l) in
        let ul := eval vm_compute in (Py.upper l) in
        change (Py.lower (Py.lower a)) with ll;
        change (Py.upper (Py.lower a)) with ul;
        change (Py.lower a) with l; change (Py.upper a) with u
    end;
    repeat match goal with
           | |- context [p ?a] => destruct (p a)
           end; reflexivity.
Qed.

Lemma test_lower fl cs c :
  ignorecase fl = true -> test fl cs (Py.lower c) = test fl cs c.
Proof.
  intros Hic. destruct cs as [x|p|]; cbn [test]; rewrite ?Hic.
  - now rewrite lower_idem.
  - apply class_lower.
  - now rewrite lower_newline.
Qed.

Section Icase.
Variable fl : flags.
Hypothesis icase : ignorecase fl = true.

Lemma map_flat_map {A B C : Type} (f : B -> C) (g : A -> list B) l :
  map f (flat_map g l) = flat_map (fun x => map f (g x)) l.
Proof. induction l as [|x l IH]; [reflexivity|]. cbn [flat_map]. now rewrite map_app, IH. Qed.

Lemma flat_map_map {A B C : Type} (f : A -> B) (g : B -> list C) l :
  flat_map g (map f l) = flat_map (fun x => g (f x)) l.
Proof. induction l as [|x l IH]; [reflexivity|]. cbn [map flat_map]. now rewrite IH. Qed.

Lemma flat_map_ext' {A B : Type} (f g : A -> list B) l :
  (forall x, f x = g x) -> flat_map f l = flat_map g l.
Proof. intros H. induction l as [|x l IH]; [reflexivity|]. cbn [flat_map]. now rewrite H, IH. Qed.

Lemma greedy_all_lower cs s : forall p pv cp,
  greedy_all fl cs p (option_map Py.lower pv) cp (Py.str_lower s)
  = map lower_state (greedy_all fl cs p pv cp s).
Proof.
  induction s as [|c s IH]; intros p pv cp; [reflexivity|].
  cbn [Py.str_lower Py.map_str greedy_all]. fold (Py.str_lower s).
  rewrite (test_lower fl cs c icase).
  destruct (test fl cs c); [|reflexivity].
  rewrite map_app. rewrite <- IH. reflexivity.
Qed.

Lemma lazy_all_lower cs s : forall p pv cp,
  lazy_all fl cs p (option_map Py.lower pv) cp (Py.str_lower s)
  = map lower_state (lazy_all fl cs p pv cp s).
Proof.
  induction s as [|c s IH]; intros p pv cp; [reflexivity|].
  cbn [Py.str_lower Py.map_str lazy_all map]. fold (Py.str_lower s).
  rewrite (test_lower fl cs c icase). f_equal.
  destruct (test fl cs c); [|reflexivity].
  rewrite <- IH. reflexivity.
Qed.

Lemma one_all_lower cs st :
  one_all fl cs (lower_state st) = map lower_state (one_all fl cs st).
Proof.
  unfold one_all. cbn [lower_state rest pos caps].
  destruct (rest st) as [|c s]; [reflexivity|].
  cbn [Py.str_lower Py.map_str]. rewrite (test_lower fl cs c icase).
  destruct (test fl cs c); reflexivity.
Qed.

Lemma at_bol_lower st : at_bol fl (lower_state st) = at_bol fl st.
Proof.
  unfold at_bol. cbn [lower_state pos prev].
  destruct (prev st) as [c|]; [|reflexivity]. cbn [option_map]. now rewrite lower_newline.
Qed.

Lemma at_eol_lower st : at_eol fl (lower_state st) = at_eol fl st.
Proof.
  unfold at_eol. cbn [lower_state rest].
  destruct (rest st) as [|c s]; [reflexivity|].
  cbn [Py.str_lower Py.map_str]. rewrite lower_newline. now destruct s.
Qed.

Lemma run_all_lower r : forall st,
  run_all fl r (lower_state st) = map lower_state (run_all fl r st).
Proof.
  induction r; intros st; cbn [run_all].
  - reflexivity.
  - apply one_all_lower.
  - rewrite IHr1, flat_map_map, map_flat_map. apply flat_map_ext'. exact IHr2.
  - now rewrite map_app, IHr1, IHr2.
  - now rewrite map_app, IHr.
  - apply greedy_all_lower.
  - rewrite one_all_lower, flat_map_map, map_flat_map. apply flat_map_ext'.
    intros x. apply greedy_all_lower.
  - apply lazy_all_lower.
  - rewrite one_all_lower, flat_map_map, map_flat_map. apply flat_map_ext'.
    intros x. apply lazy_all_lower.
  - rewrite IHr, !map_map. reflexivity.
  - rewrite at_bol_lower. now destruct (at_bol fl st).
  - rewrite at_eol_lower. now destruct (at_eol fl st).
  - rewrite IHr. now destruct (run_all fl r st).
  - cbn [lower_state prev]. destruct (prev st) as [c|]; [|reflexivity].
    cbn [option_map]. rewrite (test_lower fl cs c icase). now destruct (test fl cs c).
Qed.

Lemma try_at_lower r p pv s :
  try_at fl r p (option_map Py.lower pv) (Py.str_lower s)
  = option_map lower_match (try_at fl r p pv s).
Proof.
  rewrite !try_at_all.
  change (State p (option_map Py.lower pv) (Py.str_lower s) [])
    with (lower_state (State p pv s [])).
  rewrite run_all_lower. now destruct (run_all fl r (State p pv s [])).
Qed.

Lemma search_from_lower r s : forall p pv,
  search_from fl r p (option_map Py.lower pv) (Py.str_lower s)
  = option_map lower_match (search_from fl r p pv s).
Proof.
  induction s as [|c s IH]; intros p pv.
  - cbn [Py.str_lower Py.map_str search_from].
    change EmptyString with (Py.str_lower EmptyString) at 1.
    rewrite try_at_lower. now destruct (try_at fl r p pv "").
  - cbn [search_from].
    change (Py.str_lower (String c s)) with (String (Py.lower c) (Py.str_lower s)).
    cbn [search_from].
    change (String (Py.lower c) (Py.str_lower s)) with (Py.str_lower (String c s)).
    rewrite try_at_lower. destruct (try_at fl r p pv (String c s)); [reflexivity|].
    cbn [option_map]. exact (IH (S p) (Some c)).
Qed.

Lemma first_span_lower ps s :
  first_span fl ps (Py.str_lower s) = first_span fl ps s.
Proof.
  induction ps as [|p more IH]; [reflexivity|].
  cbn [first_span]. unfold search.
  pose proof (search_from_lower p s 0 None) as H.
  change (option_map Py.lower None) with (@None ascii) in H. rewrite H.
  destruct (search_from fl p 0 None s) as [m|]; cbn [option_map]; [|exact IH].
  cbn [lower_match m_end lower_state caps]. now rewrite IH.
Qed.

End Icase.

Lemma str_lower_app a b : Py.str_lower (a ++ b) = (Py.str_lower a ++ Py.str_lower b)%string.
Proof. induction a as [|c a IH]; [reflexivity|]. cbn. now f_equal. Qed.

Lemma str_lower_length a : String.length (Py.str_lower a) = String.length a.
Proof. induction a as [|c a IH]; [reflexivity|]. cbn. now f_equal. Qed.

Lemma id_char_lower c : id_char (Py.lower c) = id_char c.
Proof. each_char c; reflexivity. Qed.

Lemma is_id_lower t : is_id t = true -> is_id (Py.str_lower t) = true.
Proof.
  unfold is_id. rewrite str_lower_length. intros H.
  apply andb_true_iff in H as [Hl Hc]. rewrite Hl. cbn [andb].
  clear Hl. induction t as [|c t IH]; [reflexivity|].
  cbn [Py.all_str] in Hc. apply andb_true_iff in Hc as [Hc Ht].
  cbn. fold (Py.str_lower t). now rewrite id_char_lower, Hc, IH.
Qed.

(** A supported shape, in any letter case, followed by an identifier. *)
Lemma shape_extracts pre t :
  In (Py.str_lower pre) (""%string :: url_shapes) -> is_id t = true ->
  _extract_with_patterns (pre ++ t) = Some t.
Proof.
  intros Hpre Hid. unfold _extract_with_patterns.
  assert (Hspan : first_span IGNORECASE url_patterns (pre ++ t)
                  = Some (String.length pre, String.length pre + 11)).
  { rewrite <- (first_span_lower IGNORECASE eq_refl), str_lower_app.
    rewrite (shape_span _ _ Hpre (is_id_lower t Hid)). now rewrite str_lower_length. }
  assert (Hsub : substring (String.length pre) (String.length pre + 11 - String.length pre)
                           (pre ++ t) = t).
  { replace (String.length pre + 11 - String.length pre) with 11 by lia.
    rewrite substring_skip.
    assert (Hl : String.length t = 11).
    { unfold is_id in Hid. apply andb_true_iff in Hid as [Hl _]. now apply Nat.eqb_eq. }
    rewrite <- Hl. rewrite <- (append_nil_r t) at 2. apply substring_prefix. }
  rewrite <- Hsub at 2. apply try_patterns_span; [exact Hspan|].
  rewrite Hsub. now apply is_id_valid.
Qed.

(** ** Surrounding whitespace *)

Lemma rstrip_spaces ws : Py.all_str Py.isspace ws = true -> Py.rstrip ws = ""%string.
Proof.
  induction ws as [|c ws IH]; [reflexivity|]. cbn [Py.all_str Py.rstrip].
  intros H. apply andb_true_iff in H as [Hc Hws]. now rewrite (IH Hws), Hc.
Qed.

Lemma rstrip_app_spaces x ws :
  Py.all_str Py.isspace ws = true -> Py.rstrip (x ++ ws) = Py.rstrip x.
Proof.
  intros Hws. induction x as [|c x IH]; [now apply rstrip_spaces|].
  cbn [append Py.rstrip]. now rewrite IH.
Qed.

Lemma rstrip_last x c :
  Py.last_char x = Some c -> Py.isspace c = false -> Py.rstrip x = x.
Proof.
  induction x as [|d x IH]; [discriminate|]. cbn [Py.last_char Py.rstrip].
  destruct x as [|e x'].
  - intros [= ->] Hc. cbn [Py.rstrip]. now rewrite Hc.
  - intros Hl Hc. rewrite (IH Hl Hc). reflexivity.
Qed.

Lemma lstrip_app_spaces ws x :
  Py.all_str Py.isspace ws = true -> Py.lstrip (ws ++ x) = Py.lstrip x.
Proof.
  induction ws as [|c ws IH]; [reflexivity|]. cbn [Py.all_str append Py.lstrip].
  intros H. apply andb_true_iff in H as [Hc Hws]. now rewrite Hc, IH.
Qed.

Lemma strip_surrounded ws1 ws2 c x d :
  Py.all_str Py.isspace ws1 = true -> Py.all_str Py.isspace ws2 = true ->
  Py.isspace c = false -> Py.last_char (String c x) = Some d -> Py.isspace d = false ->
  Py.strip (ws1 ++ String c x ++ ws2) = String c x.
Proof.
  intros H1 H2 Hc Hl Hd. unfold Py.strip.
  rewrite lstrip_app_spaces by assumption.
  cbn [append Py.lstrip]. rewrite Hc.
  change (String c (x ++ ws2)%string) with (String c x ++ ws2)%string.
  rewrite rstrip_app_spaces by assumption. now apply (rstrip_last _ d).
Qed.




Lemma id_char_not_space c : id_char c = true -> Py.isspace c = false.
Proof. each_char c; vm_compute; congruence. Qed.

Lemma isspace_lower c : Py.isspace (Py.lower c) = Py.isspace c.
Proof. each_char c; reflexivity. Qed.

Lemma last_char_app a c b : Py.last_char (a ++ String c b) = Py.last_char (String c b).
Proof.
  induction a as [|d a IH]; [reflexivity|].
  rewrite <- IH. cbn [append].
  destruct (a ++ String c b)%string eqn:E; [destruct a; discriminate E|].
  reflexivity.
Qed.

Lemma last_char_all p s c :
  Py.all_str p s = true -> Py.last_char s = Some c -> p c = true.
Proof.
  induction s as [|d s IH]; [discriminate|]. cbn [Py.all_str Py.last_char].
  intros H. apply andb_true_iff in H as [Hd Hs]. destruct s as [|e s'].
  - now intros [= <-].
  - now apply IH.
Qed.

Lemma shapes_start_visible :
  forallb (fun w => match w with
                    | String c _ => negb (Py.isspace c)
                    | EmptyString => true
                    end) url_shapes = true.
Proof. reflexivity. Qed.

(** A shape followed by an identifier starts and ends with a character
    that [strip] leaves in place. *)
Lemma shape_strip ws1 ws2 pre t :
  Py.all_str Py.isspace ws1 = true -> Py.all_str Py.isspace ws2 = true ->
  In (Py.str_lower pre) (""%string :: url_shapes) -> is_id t = true ->
  Py.strip (ws1 ++ (pre ++ t) ++ ws2) = (pre ++ t)%string.
Proof.
  intros H1 H2 Hpre Hid.
  assert (Hid' := Hid). unfold is_id in Hid'. apply andb_true_iff in Hid' as [Hl Hall].
  apply Nat.eqb_eq in Hl.
  destruct t as [|c0 t0]; [discriminate Hl|].
  destruct (last_char_cons c0 t0) as [d Hd].
  assert (Hdspace : Py.isspace d = false).
  { apply id_char_not_space. exact (last_char_all _ _ _ Hall Hd). }
  assert (Hlast : Py.last_char (pre ++ String c0 t0) = Some d)
    by (now rewrite last_char_app).
  assert (Hc0 : Py.isspace c0 = false).
  { cbn [Py.all_str] in Hall. apply andb_true_iff in Hall as [Hc0 _].
    now apply id_char_not_space. }
  destruct pre as [|c pre'].
  - cbn [append] in *. now apply (strip_surrounded ws1 ws2 c0 t0 d).
  - assert (Hc : Py.isspace c = false).
    { destruct Hpre as [Hpre | Hpre]; [discriminate Hpre|].
      pose proof (proj1 (forallb_forall _ _) shapes_start_visible _ Hpre) as Hv.
      cbn in Hv. apply negb_true_iff in Hv. now rewrite isspace_lower in Hv. }
    change ((String c pre' ++ String c0 t0)%string)
      with (String c (pre' ++ String c0 t0)%string) in *.
    now apply (strip_surrounded ws1 ws2 c _ d).
Qed.

(** ** The identifier a pattern captures *)


Lemma try_at_in fl r p pv s m :
  try_at fl r p pv s = Some m ->
  In (m_end m) (run_all fl r (State p pv s [])).
Proof.
  rewrite try_at_all. destruct (run_all fl r (State p pv s [])) as [|st l]; [discriminate|].
  intros [= <-]. now left.
Qed.







(** ** The extractor *)

Lemma validated_valid x v : validated x = Some v -> _is_valid_video_id v = true.
Proof. unfold validated. destruct (_is_valid_video_id x) eqn:E; [now intros [= <-] | discriminate]. Qed.

Ltac split_result :=
  repeat match goal with
         | |- context [bind ?x _] => destruct x; cbn [bind]
         | |- context [if ?b then _ else _] => destruct b
         | |- context [match lookup ?k ?d with _ => _ end] => destruct (lookup k d)
         end.

Lemma urlparse_body_valid L url v :
  urlparse_body L url = Ok (Some v) -> _is_valid_video_id v = true.
Proof.
  unfold urlparse_body, after_marker.
  split_result; intros H; try discriminate H;
    injection H as H; try discriminate H; now apply validated_valid in H.
Qed.

Lemma valid_nonempty v : _is_valid_video_id v = true -> Py.is_empty v = false.
Proof. unfold _is_valid_video_id. now destruct (Py.is_empty v). Qed.


Lemma extract_total L url : exists r, extract_video_id L url = Ok r.
Proof.
  unfold extract_video_id, _extract_with_urlparse, try_except.
  destruct (Py.is_empty url); [now eexists|].
  destruct (negb (falsy (_extract_with_patterns (Py.strip url)))); [now eexists|].
  destruct (urlparse_body L (Py.strip url)) as [r|e]; cbn [bind];
    [destruct (negb (falsy r))|]; now eexists.
Qed.

Lemma extract_valid L url v :
  extract_video_id L url = Ok (Some v) -> _is_valid_video_id v = true.
Proof.
  unfold extract_video_id, _extract_with_urlparse, try_except.
  destruct (Py.is_empty url); [discriminate|].
  destruct (negb (falsy (_extract_with_patterns (Py.strip url)))).
  - intros [= H]. exact (try_patterns_valid _ _ _ H).
  - destruct (urlparse_body L (Py.strip url)) as [r|e] eqn:Eb; cbn [bind].
    + destruct (negb (falsy r)); intros H; [|discriminate H].
      injection H as ->. exact (urlparse_body_valid _ _ _ Eb).
    + discriminate.
Qed.



(** ** What follows the identifier *)










(** ** The supported shapes, as a test on the input *)

Lemma substring_all x : substring 0 (String.length x) x = x.
Proof. induction x as [|c x IH]; [reflexivity|]. cbn. now rewrite IH. Qed.



(** The same, with the parts of the input written out: whitespace, the
    URL form in any letter case, the identifier, whitespace. *)
Lemma written_shape_extracts L ws1 pre ID ws2 :
  Py.all_str Py.isspace ws1 = true -> Py.all_str Py.isspace ws2 = true ->
  In (Py.str_lower pre) (""%string :: url_shapes) -> is_id ID = true ->
  extract_video_id L (ws1 ++ (pre ++ ID) ++ ws2) = Ok (Some ID).
Proof.
  intros H1 H2 Hpre Hid. unfold extract_video_id.
  rewrite (shape_strip ws1 ws2 pre ID H1 H2 Hpre Hid).
  rewrite (shape_extracts pre ID Hpre Hid).
  cbn [falsy]. rewrite (valid_nonempty ID (is_id_valid ID Hid)). cbn [negb].
  destruct (ws1 ++ (pre ++ ID) ++ ws2)%string eqn:E; [|reflexivity].
  exfalso. apply (f_equal String.length) in E.
  rewrite !length_append in E. unfold is_id in Hid.
  apply andb_true_iff in Hid as [Hl _]. apply Nat.eqb_eq in Hl.
  rewrite Hl in E. simpl in E. lia.
Qed.

(** The fallback validates with a pattern whose [$] also matches before a
    final newline: a percent-encoded newline after the identifier in the
    query gives a result of 12 characters. *)
Lemma extract_trailing_newline :
  extract_video_id Urllib.lib "youtube.com/watch?feature=share&v=dQw4w9WgXcQ%0a"
    = Ok (Some ("dQw4w9WgXcQ" ++ nl)%string).
Proof. vm_compute. reflexivity. Qed.




End ExtractorFacts.

Section IdentifiersFacts.
Import Re URLExtractor.
Local Open Scope nat_scope.
Local Open Scope string_scope.
Local Open Scope list_scope.

(** ** The validator, both ways *)

Lemma is_id_newline_valid w : is_id w = true -> _is_valid_video_id (w ++ nl) = true.
Proof.
  intros Hid. unfold is_id in Hid. apply andb_true_iff in Hid as [Hl Hc].
  apply Nat.eqb_eq in Hl. unfold _is_valid_video_id.
  destruct w as [|c w']; [discriminate Hl|].
  change (Py.is_empty (String c w' ++ nl)%string) with false. cbv iota.
  destruct (run_all_rep_hit NOFLAGS (CClass id_char) 11
              (State 0 None (String c w' ++ nl)%string []) (String c w') nl) as [pv' HR].
  - reflexivity.
  - exact Hl.
  - exact Hc.
  - rewrite try_at_all.
    cbn [run_all at_bol pos Nat.eqb orb flat_map].
    rewrite HR. cbn. reflexivity.
Qed.

(** X1: [_is_valid_video_id] accepts exactly the strings of 11 characters
    of [A-Za-z0-9_-] and these strings followed by one newline; the empty
    string is refused. *)
Theorem valid_video_id_iff (v : string) :
  (_is_valid_video_id v = true <->
   exists w, is_id w = true /\ (v = w \/ v = (w ++ nl)%string)) /\
  _is_valid_video_id "" = false.
Proof.
  split; [|reflexivity]. split.
  - apply valid_is_id.
  - intros (w & Hw & [-> | ->]); [now apply is_id_valid | now apply is_id_newline_valid].
Qed.

(** ** [get_video_url] and back *)

Lemma watch_shape : In (Py.str_lower "https://www.youtube.com/watch?v=") (""%string :: url_shapes).
Proof. vm_compute. tauto. Qed.

Lemma nl_space : Py.all_str Py.isspace nl = true.
Proof. reflexivity. Qed.

Lemma extract_watch_url L w :
  is_id w = true -> extract_video_id L (watch_url w) = Ok (Some w).
Proof.
  intros Hw.
  pose proof (written_shape_extracts L "" "https://www.youtube.com/watch?v=" w ""
                eq_refl eq_refl watch_shape Hw) as H.
  cbn [append] in H. rewrite append_nil_r in H. exact H.
Qed.

Lemma extract_watch_url_newline L w :
  is_id w = true -> extract_video_id L (watch_url (w ++ nl)) = Ok (Some w).
Proof.
  intros Hw.
  pose proof (written_shape_extracts L "" "https://www.youtube.com/watch?v=" w nl
                eq_refl nl_space watch_shape Hw) as H.
  cbn [append] in H. unfold watch_url. cbn [append]. exact H.
Qed.

(** X2: [get_video_url] raises [ValueError] on an identifier the validator
    refuses and returns the watch URL otherwise; [extract_video_id] reads
    the identifier back from that URL (without the newline, when the
    identifier ended in one). *)
Theorem video_url_round_trip (L : UrlLib) (v : string) :
  (_is_valid_video_id v = false -> get_video_url v = Raise ValueError) /\
  (_is_valid_video_id v = true ->
   get_video_url v = Ok (watch_url v) /\
   exists w, is_id w = true /\ (v = w \/ v = (w ++ nl)%string) /\
             extract_video_id L (watch_url v) = Ok (Some w)) /\
  (is_id v = true ->
   get_video_url v = Ok (watch_url v) /\
   extract_video_id L (watch_url v) = Ok (Some v)).
Proof.
  split; [|split].
  - intros H. unfold get_video_url. now rewrite H.
  - intros H. split; [unfold get_video_url; now rewrite H|].
    destruct (valid_is_id v H) as (w & Hw & Hv). exists w. split; [exact Hw|].
    split; [exact Hv|].
    destruct Hv as [-> | ->]; [now apply extract_watch_url | now apply extract_watch_url_newline].
  - intros H. split; [|now apply extract_watch_url].
    unfold get_video_url. now rewrite (is_id_valid v H).
Qed.

Lemma video_url_round_trip_witness :
  is_id "dQw4w9WgXcQ" = true /\
  get_video_url "dQw4w9WgXcQ" = Ok "https://www.youtube.com/watch?v=dQw4w9WgXcQ"%string /\
  extract_video_id Urllib.lib "https://www.youtube.com/watch?v=dQw4w9WgXcQ"
    = Ok (Some "dQw4w9WgXcQ"%string).
Proof.
  split; [reflexivity|].
  exact (proj2 (proj2 (video_url_round_trip Urllib.lib "dQw4w9WgXcQ")) eq_refl).
Defined.

(** ** Whitespace around the input *)

Lemma lstrip_all_spaces ws : Py.all_str Py.isspace ws = true -> Py.lstrip ws = ""%string.
Proof.
  induction ws as [|c ws IH]; [reflexivity|]. cbn [Py.all_str Py.lstrip].
  intros H. apply andb_true_iff in H as [Hc Hws]. rewrite Hc. now apply IH.
Qed.

Lemma lstrip_cases u :
  (Py.lstrip u = ""%string /\ Py.all_str Py.isspace u = true) \/
  (exists c x, Py.lstrip u = String c x /\ Py.isspace c = false).
Proof.
  induction u as [|c u IH]; [left; split; reflexivity|].
  cbn [Py.lstrip Py.all_str]. destruct (Py.isspace c) eqn:Hc.
  - destruct IH as [[H1 H2] | H]; [left; now split | right; exact H].
  - right. now exists c, u.
Qed.

Lemma lstrip_app u v :
  Py.lstrip (u ++ v) = match Py.lstrip u with
                       | EmptyString => Py.lstrip v
                       | x => (x ++ v)%string
                       end.
Proof.
  induction u as [|c u IH]; [reflexivity|]. cbn [append Py.lstrip].
  destruct (Py.isspace c); [exact IH | reflexivity].
Qed.

Lemma strip_padded ws1 u ws2 :
  Py.all_str Py.isspace ws1 = true -> Py.all_str Py.isspace ws2 = true ->
  Py.strip (ws1 ++ u ++ ws2) = Py.strip u.
Proof.
  intros H1 H2. unfold Py.strip.
  rewrite (lstrip_app_spaces ws1 _ H1), lstrip_app.
  destruct (Py.lstrip u) as [|c x] eqn:E.
  - rewrite (lstrip_all_spaces ws2 H2). reflexivity.
  - now apply rstrip_app_spaces.
Qed.

Lemma append_nonempty (a b c : string) : b <> ""%string -> (a ++ b ++ c)%string <> ""%string.
Proof.
  intros Hb H. apply Hb. destruct a; [|discriminate H].
  destruct b; [reflexivity | discriminate H].
Qed.

(** X3: whitespace before and after a non-empty input does not change
    what [extract_video_id] returns. *)
Theorem extract_ignores_padding (L : UrlLib) (ws1 u ws2 : string) :
  Py.all_str Py.isspace ws1 = true -> Py.all_str Py.isspace ws2 = true ->
  u <> ""%string ->
  extract_video_id L (ws1 ++ u ++ ws2) = extract_video_id L u.
Proof.
  intros H1 H2 Hu. unfold extract_video_id.
  rewrite (strip_padded ws1 u ws2 H1 H2).
  destruct u as [|c u']; [contradiction|].
  destruct (ws1 ++ String c u' ++ ws2)%string eqn:E; [|reflexivity].
  exfalso. revert E. apply append_nonempty. discriminate.
Qed.

Lemma extract_ignores_padding_witness :
  extract_video_id Urllib.lib ("  " ++ "youtu.be/dQw4w9WgXcQ" ++ nl)
  = Ok (Some "dQw4w9WgXcQ"%string).
Proof.
  rewrite (extract_ignores_padding Urllib.lib "  " "youtu.be/dQw4w9WgXcQ" nl
             eq_refl eq_refl ltac:(discriminate)).
  vm_compute. reflexivity.
Defined.

(** ** [is_youtube_url] and the parsing fallback *)

Lemma hosts_are_domains h :
  host_in h (youtube_hosts ++ ["youtu.be"%string]) = true ->
  host_in h youtube_domains = true.
Proof.
  destruct h as [x|]; [|discriminate]. unfold host_in. intros H.
  apply existsb_exists in H as (d & Hin & Hd). apply existsb_exists.
  exists d. split; [|exact Hd]. simpl in Hin |- *. tauto.
Qed.

Lemma host_in_app h l1 l2 : host_in h (l1 ++ l2) = host_in h l1 || host_in h l2.
Proof. destruct h; [apply existsb_app | reflexivity]. Qed.

Lemma urlparse_body_host L url v :
  urlparse_body L url = Ok (Some v) ->
  exists parsed_url,
    urlparse L (if Py.startswith "http://" url || Py.startswith "https://" url
                then url else ("https://" ++ url)%string) = Ok parsed_url /\
    host_in (hostname parsed_url) youtube_domains = true.
Proof.
  unfold urlparse_body.
  destruct (urlparse L _) as [p|e]; cbn [bind]; [|discriminate].
  intros H. exists p. split; [reflexivity|].
  apply hosts_are_domains. rewrite host_in_app.
  destruct (host_in (hostname p) youtube_hosts); [reflexivity|].
  destruct (host_in (hostname p) ["youtu.be"%string]); [reflexivity | discriminate H].
Qed.

Lemma fallback_accepted L url v :
  url <> ""%string -> _extract_with_urlparse L url = Ok (Some v) ->
  is_youtube_url L url = true.
Proof.
  intros Hne H. unfold _extract_with_urlparse, try_except in H.
  destruct (urlparse_body L url) as [[v'|]|e] eqn:E; try discriminate H.
  destruct (urlparse_body_host L url v' E) as (p & Hp & Hh).
  unfold is_youtube_url. destruct url; [contradiction|]. cbn [Py.is_empty].
  now rewrite Hp.
Qed.

(** X4: [is_youtube_url] is [False] on the empty string and whenever the
    URL parser raises; and every non-empty input for which the parsing
    fallback of the extractor finds an identifier is a YouTube URL for
    [is_youtube_url]: so is the trimmed input of [extract_video_id] when
    it resolves without any pattern. *)
Theorem fallback_is_youtube_url (L : UrlLib) (url : string) :
  is_youtube_url L "" = false /\
  (forall e, urlparse L (if Py.startswith "http://" url || Py.startswith "https://" url
                         then url else ("https://" ++ url)%string) = Raise e ->
             is_youtube_url L url = false) /\
  (forall v, url <> ""%string -> _extract_with_urlparse L url = Ok (Some v) ->
             is_youtube_url L url = true) /\
  (forall v, Py.strip url <> ""%string ->
             extract_video_id L url = Ok (Some v) ->
             _extract_with_patterns (Py.strip url) = None ->
             is_youtube_url L (Py.strip url) = true).
Proof.
  split; [reflexivity|]. split; [|split].
  - intros e H. unfold is_youtube_url. destruct (Py.is_empty url); [reflexivity|].
    now rewrite H.
  - intros v. apply fallback_accepted.
  - intros v Hne H Hpat. unfold extract_video_id in H.
    destruct (Py.is_empty url); [discriminate H|]. rewrite Hpat in H. cbn [falsy negb] in H.
    destruct (_extract_with_urlparse L (Py.strip url)) as [[v'|]|e] eqn:E; cbn [bind] in H;
      try discriminate H.
    now apply (fallback_accepted L _ v').
Qed.

Lemma fallback_is_youtube_url_witness :
  _extract_with_urlparse Urllib.lib "youtube.com/watch?feature=share&v=dQw4w9WgXcQ"
    = Ok (Some "dQw4w9WgXcQ"%string) /\
  is_youtube_url Urllib.lib "youtube.com/watch?feature=share&v=dQw4w9WgXcQ" = true.
Proof.
  assert (H : _extract_with_urlparse Urllib.lib "youtube.com/watch?feature=share&v=dQw4w9WgXcQ"
              = Ok (Some "dQw4w9WgXcQ"%string)) by (vm_compute; reflexivity).
  split; [exact H|].
  exact (proj1 (proj2 (proj2 (fallback_is_youtube_url Urllib.lib
           "youtube.com/watch?feature=share&v=dQw4w9WgXcQ")))
           "dQw4w9WgXcQ"%string ltac:(discriminate) H).
Defined.

End IdentifiersFacts.

Section ChapterListFacts.
Import Timestamp Chapters.
Local Open Scope nat_scope.
Local Open Scope string_scope.
Local Open Scope list_scope.

(** ** Timestamps that parse *)

Lemma int_of_field f :
  is_field f = true -> exists v, Py.int f = Some v /\ (0 <= v)%Z.
Proof.
  unfold is_field. intros H. apply andb_true_iff in H as [Hne Hd].
  assert (Hn : f <> ""%string) by (destruct f; [discriminate Hne | discriminate]).
  destruct (uint_of_digits f Hd) as [d Hp].
  exists (Z.of_N (N.of_uint d)). split; [|lia].
  apply int_of_digits; [exact Hd | exact Hn|].
  unfold Py.N_of_digits. now rewrite Hp.
Qed.

Lemma valid_timestamp_value s :
  valid_timestamp s = true -> exists v, _parse_timestamp s = Some v /\ (0 <= v)%Z.
Proof.
  intros H. unfold valid_timestamp in H. unfold _parse_timestamp.
  destruct (Py.split ":" s) as [|f1 [|f2 [|f3 [|f4 l]]]]; try discriminate H.
  - cbn in H. apply andb_true_iff in H as [H1 H2]. rewrite andb_true_r in H2.
    destruct (int_of_field f1 H1) as (a & -> & Ha).
    destruct (int_of_field f2 H2) as (b & -> & Hb).
    eexists. split; [reflexivity | lia].
  - cbn in H. apply andb_true_iff in H as [H1 H]. apply andb_true_iff in H as [H2 H3].
    rewrite andb_true_r in H3.
    destruct (int_of_field f1 H1) as (a & -> & Ha).
    destruct (int_of_field f2 H2) as (b & -> & Hb).
    destruct (int_of_field f3 H3) as (c & -> & Hc).
    eexists. split; [reflexivity | lia].
Qed.

Lemma field_facts f :
  is_field f = true ->
  Py.int f = Some (Z.of_N (decimal f)) /\ lacks ":" f = true.
Proof.
  unfold is_field. intros H. apply andb_true_iff in H as [Hne Hd].
  split; [|now apply digits_lack_colon].
  apply int_decimal; [exact Hd|]. destruct f; [discriminate Hne | discriminate].
Qed.

(** X5: [_parse_timestamp] applies no range check and reads every group as
    the decimal numeral it is, leading zeros included: a timestamp of two
    or three non-empty groups of digits parses to the number of seconds of
    its groups, weighing 60 and 1, or 3600, 60 and 1, even when a group of
    minutes or seconds is 60 or more; the groups are what is written
    between the colons. *)
Theorem valid_timestamp_parses (s : string) :
  valid_timestamp s = true ->
  _parse_timestamp s = Some (seconds_of (Py.split ":" s)) /\
  (0 <= seconds_of (Py.split ":" s))%Z /\
  (forall m x,
     is_field m = true -> is_field x = true ->
     Py.split ":" (m ++ ":" ++ x) = [m; x] /\
     valid_timestamp (m ++ ":" ++ x) = true) /\
  (forall h m x,
     is_field h = true -> is_field m = true -> is_field x = true ->
     Py.split ":" (h ++ ":" ++ m ++ ":" ++ x) = [h; m; x] /\
     valid_timestamp (h ++ ":" ++ m ++ ":" ++ x) = true).
Proof.
  intros H. split; [|split; [|split]].
  - unfold valid_timestamp in H. unfold _parse_timestamp, seconds_of.
    destruct (Py.split ":" s) as [|f1 [|f2 [|f3 [|f4 l]]]]; try discriminate H.
    + cbn in H. apply andb_true_iff in H as [H1 H2]. rewrite andb_true_r in H2.
      rewrite (proj1 (field_facts f1 H1)), (proj1 (field_facts f2 H2)). reflexivity.
    + cbn in H. apply andb_true_iff in H as [H1 H]. apply andb_true_iff in H as [H2 H3].
      rewrite andb_true_r in H3.
      rewrite (proj1 (field_facts f1 H1)), (proj1 (field_facts f2 H2)),
        (proj1 (field_facts f3 H3)). reflexivity.
  - unfold seconds_of.
    destruct (Py.split ":" s) as [|f1 [|f2 [|f3 [|f4 l]]]]; cbn [map]; lia.
  - intros m x Hm Hx.
    assert (Hs : Py.split ":" (m ++ ":" ++ x) = [m; x]).
    { unfold Py.split. change (m ++ ":" ++ x)%string with (m ++ String ":" x)%string.
      rewrite split_colon_app, split_colon_last by (now apply field_facts). reflexivity. }
    split; [exact Hs|]. unfold valid_timestamp. rewrite Hs. cbn. now rewrite Hm, Hx.
  - intros h m x Hh Hm Hx.
    assert (Hs : Py.split ":" (h ++ ":" ++ m ++ ":" ++ x) = [h; m; x]).
    { unfold Py.split.
      change (h ++ ":" ++ m ++ ":" ++ x)%string
        with (h ++ String ":" (m ++ String ":" x))%string.
      rewrite !split_colon_app, split_colon_last by (now apply field_facts). reflexivity. }
    split; [exact Hs|]. unfold valid_timestamp. rewrite Hs. cbn. now rewrite Hh, Hm, Hx.
Qed.

Lemma valid_timestamp_parses_witness :
  valid_timestamp "01:75" = true /\ _parse_timestamp "01:75" = Some 135%Z.
Proof.
  split; [reflexivity|].
  destruct (valid_timestamp_parses "01:75" eq_refl) as (H & _).
  rewrite H. reflexivity.
Defined.

(** ** Negative numbers of seconds *)

Lemma format_negative s :
  (s < 0)%Z -> _format_timestamp s = _format_timestamp (s mod 3600).
Proof.
  intros Hs. unfold _format_timestamp.
  pose proof (Z.mod_pos_bound s 3600 ltac:(lia)) as Hm.
  assert (Hh : (s / 3600 < 0)%Z) by (apply Z.div_lt_upper_bound; lia).
  destruct (Z.gtb_spec (s / 3600) 0); [lia|].
  rewrite (Z.div_small (s mod 3600) 3600) by lia.
  cbn [Z.gtb Z.compare].
  rewrite (Z.mod_small (s mod 3600) 3600) by lia.
  replace ((s mod 3600) mod 60)%Z with (s mod 60)%Z; [reflexivity|].
  symmetry. apply Z.mod_mod_divide. exists 60%Z. reflexivity.
Qed.

(** X6: for a negative number of seconds [_format_timestamp] writes the
    MM:SS text of the number taken modulo 3600, so that parsing the text
    gives that number back, not the negative one. *)
Theorem format_negative_wraps (s : Z) :
  (s < 0)%Z ->
  _format_timestamp s = _format_timestamp (s mod 3600) /\
  _parse_timestamp (_format_timestamp s) = Some (s mod 3600)%Z /\
  _parse_timestamp (_format_timestamp s) <> Some s.
Proof.
  intros Hs. pose proof (Z.mod_pos_bound s 3600 ltac:(lia)) as Hm.
  split; [now apply format_negative|].
  rewrite (format_negative s Hs), parse_format by lia.
  split; [reflexivity|]. intros H. injection H as H. lia.
Qed.

Lemma format_negative_wraps_witness :
  _format_timestamp (-1) = "59:59" /\ _parse_timestamp (_format_timestamp (-1)) = Some 3599%Z.
Proof.
  destruct (format_negative_wraps (-1) ltac:(lia)) as (_ & H & _).
  split; [reflexivity | exact H].
Defined.

(** ** The chapters of the metadata strategy *)

Lemma linked_timestamps l : forall i0,
  Forall (fun r => timestamp r = _format_timestamp (start_time r)) (linked i0 l).
Proof.
  induction l as [|c l IH]; intros i0; cbn [linked]; constructor; [reflexivity | apply IH].
Qed.

(** X7: the metadata strategy returns one chapter for each record of the
    provider, none is dropped; the [timestamp] of each chapter is the text
    [_format_timestamp] writes for its start, which parses back to the
    start when it is not negative; without an answer of the provider the
    list is empty. *)
Theorem metadata_chapters_complete (info : info_dict) :
  let R := _extract_chapters_from_metadata (Some info) in
  List.length R = List.length (get (info_chapters info) []) /\
  Forall (fun r => timestamp r = _format_timestamp (start_time r)) R /\
  Forall (fun r => (0 <= start_time r)%Z ->
                   _parse_timestamp (timestamp r) = Some (start_time r)) R /\
  _extract_chapters_from_metadata None = [].
Proof.
  intros R. subst R. rewrite extract_metadata_linked.
  split; [apply linked_length|]. split; [apply linked_timestamps|].
  split; [|reflexivity].
  eapply Forall_impl; [|apply linked_timestamps].
  intros r Hr Hs. cbv beta in Hr. rewrite Hr. now apply parse_format.
Qed.

(** ** The chapters of the description strategy *)

Lemma kept_match_ok m : Forall kept_ok (kept_match m).
Proof.
  unfold kept_match. destruct (_parse_timestamp (Py.strip (fst m))) as [t|] eqn:E;
    [|constructor].
  destruct (Py.truthy (clean_title (snd m))) eqn:Et; constructor; [|constructor].
  split; [exact Et | exact E].
Qed.

Lemma kept_all_ok ms : Forall kept_ok (kept ms).
Proof.
  unfold kept. induction ms as [|m ms IH]; cbn [flat_map]; [constructor|].
  apply Forall_app. split; [apply kept_match_ok | exact IH].
Qed.

Lemma chain_fields k :
  Forall kept_ok k ->
  Forall (fun r => Py.truthy (title r) = true /\
                   _parse_timestamp (Py.strip (timestamp r)) = Some (start_time r))
         (chain k).
Proof.
  induction 1 as [|[[t s] ts] k Hx Hk IH]; cbn [chain]; constructor; [exact Hx | exact IH].
Qed.

Lemma kept_length ms : List.length (kept ms) <= List.length ms.
Proof.
  unfold kept. induction ms as [|m ms IH]; cbn [flat_map List.length]; [lia|].
  rewrite length_app.
  assert (H1 : List.length (kept_match m) <= 1).
  { unfold kept_match. destruct (_parse_timestamp _); [destruct (Py.truthy _)|];
      cbn [List.length]; lia. }
  lia.
Qed.

(** X8: every chapter the description strategy returns has a title that is
    not empty and a start that is what [_parse_timestamp] reads in its
    [timestamp]; the chapters come from the matches of one pattern, so
    there are at most as many chapters as that pattern has matches; a
    missing or empty description gives no chapter. *)
Theorem description_chapters_fields (text : string) :
  Forall (fun r => Py.truthy (title r) = true /\
                   _parse_timestamp (Py.strip (timestamp r)) = Some (start_time r))
         (_parse_chapters_from_text text) /\
  (_parse_chapters_from_text text = [] \/
   exists p, In p patterns /\
     List.length (_parse_chapters_from_text text)
     <= List.length (Re.findall2 Re.MULTILINE_IGNORECASE p text)) /\
  _extract_chapters_from_description None = [] /\
  (forall info, get (info_description info) "" = ""%string ->
                _extract_chapters_from_description (Some info) = []).
Proof.
  split; [|split; [|split]].
  - destruct (parse_chapters_chain text) as [ms ->]. apply chain_fields, kept_all_ok.
  - unfold _parse_chapters_from_text. rewrite patterns_loop_first.
    destruct (first_nonempty_in
      (map (fun p => chapters_of_matches (Re.findall2 Re.MULTILINE_IGNORECASE p text)) patterns))
      as [-> | Hin]; [now left|].
    right. apply in_map_iff in Hin as (p & Hp & Hin). exists p. split; [exact Hin|].
    rewrite <- Hp, chapters_of_matches_chain, chain_length. apply kept_length.
  - reflexivity.
  - intros info H. unfold _extract_chapters_from_description. now rewrite H.
Qed.

(** ** [get_chapters] *)

Lemma ask_info_answer P video_id log :
  ask_info P video_id log
  = (Ok (answer_of (extract_info P video_id)), log ++ [MetadataCall video_id]).
Proof.
  unfold ask_info, try_exceptM, bindM, call_extract_info, emit, lift, ret, answer_of.
  destruct (extract_info P video_id); reflexivity.
Qed.

Lemma metadata_only_last_open info :
  only_last_open (_extract_chapters_from_metadata info).
Proof.
  destruct info as [info|]; [|intros [|i] r H; discriminate H].
  rewrite extract_metadata_linked. intros i r Hr He.
  destruct (nth_error (get (info_chapters info) []) i) as [c|] eqn:Hc.
  - rewrite (linked_nth _ 0 i c Hc) in Hr.
    apply (f_equal (fun o => match o with Some x => x | None => r end)) in Hr. subst r.
    cbn [chapter_of end_time] in He.
    destruct (own_end c); [discriminate He|].
    destruct (nth_error (get (info_chapters info) []) (S i)) eqn:Hn; [discriminate He|].
    apply (proj1 (nth_error_None _ _)) in Hn.
    apply (proj2 (nth_error_None _ _)). now rewrite linked_length.
  - apply (proj1 (nth_error_None _ _)) in Hc.
    rewrite <- (linked_length _ 0) in Hc.
    apply (proj2 (nth_error_None _ _)) in Hc. congruence.
Qed.

Lemma description_only_last_open info :
  only_last_open (_extract_chapters_from_description info).
Proof.
  destruct info as [info|]; [|intros [|i] r H; discriminate H].
  unfold _extract_chapters_from_description.
  destruct (Py.truthy _); [|intros [|i] r H; discriminate H].
  destruct (parse_chapters_chain (get (info_description info) "")) as [ms ->].
  apply ends_linked_chained, chain_ends_linked.
Qed.

(** X9: [get_chapters] never raises and does nothing but ask the metadata
    provider: once when the metadata strategy finds chapters, which are
    then returned, and a second time otherwise, for the chapters of the
    description; when the provider raises the list is empty.  In the list
    returned only the last chapter may have no end. *)
Theorem get_chapters_result (P : Providers) (video_id : string) (log : list event) :
  let info := answer_of (extract_info P video_id) in
  let from_metadata := _extract_chapters_from_metadata info in
  get_chapters P video_id log
  = (if nonempty from_metadata
     then (Ok from_metadata, log ++ [MetadataCall video_id])
     else (Ok (_extract_chapters_from_description info),
           log ++ [MetadataCall video_id; MetadataCall video_id])) /\
  (forall e, extract_info P video_id = Raise e ->
             fst (get_chapters P video_id log) = Ok []) /\
  (exists chapters, fst (get_chapters P video_id log) = Ok chapters /\
                    only_last_open chapters).
Proof.
  intros info from_metadata.
  assert (H : get_chapters P video_id log
    = (if nonempty from_metadata
       then (Ok from_metadata, log ++ [MetadataCall video_id])
       else (Ok (_extract_chapters_from_description info),
             log ++ [MetadataCall video_id; MetadataCall video_id]))).
  { unfold get_chapters, bindM. rewrite ask_info_answer. fold info. fold from_metadata.
    destruct (nonempty from_metadata); [reflexivity|].
    rewrite ask_info_answer. fold info. unfold ret. rewrite <- app_assoc. reflexivity. }
  split; [exact H|]. split.
  - intros e He. rewrite H. subst from_metadata info. rewrite He. reflexivity.
  - rewrite H. destruct (nonempty from_metadata).
    + exists from_metadata. split; [reflexivity | apply metadata_only_last_open].
    + eexists. split; [reflexivity | apply description_only_last_open].
Qed.

End ChapterListFacts.

Section TranscriberFacts.
Local Open Scope nat_scope.
Local Open Scope string_scope.
Local Open Scope list_scope.

Lemma filter_none {A : Type} (p : A -> bool) l :
  forallb (fun x => negb (p x)) l = true -> filter p l = [].
Proof.
  induction l as [|x l IH]; [reflexivity|]. cbn [forallb filter]. intros H.
  apply andb_true_iff in H as [Hx Hl]. destruct (p x); [discriminate Hx | now apply IH].
Qed.

(** ** [process_url] *)

Lemma get_video_metadata_run P v log :
  exists printed,
    get_video_metadata P v log = (Ok (metadata_of P v), log ++ MetadataCall v :: printed) /\
    forallb is_silent printed = true.
Proof.
  cbv [get_video_metadata metadata_of bindM try_exceptM lift emit ret call_extract_info].
  destruct (extract_info P v) as [info|e]; cbn [fst snd].
  - exists []. split; reflexivity.
  - eexists [_]. rewrite <- app_assoc. split; reflexivity.
Qed.

Ltac split_run :=
  repeat (cbn [fst snd existsb orb negb falsy Py.is_empty Chapters.get];
          match goal with
          | |- context [list_tracks ?P ?v] => destruct (list_tracks P v) as [?tracks|?e] eqn:?
          | |- context [select_track ?t] => destruct (select_track t) as [?t|] eqn:?
          | |- context [is_en ?t] => destruct (is_en t) eqn:?
          | |- context [fetch ?t] => destruct (fetch t) as [?segments|?e] eqn:?
          | |- context [SimpleFormatter.format_transcript ?s] =>
              destruct (SimpleFormatter.format_transcript s) as [?text|?e] eqn:?
          end).

Lemma extract_transcript_run P v log :
  exists effects,
    extract_transcript P v log = (Ok (transcript_of P v), log ++ effects) /\
    forallb is_silent effects = true /\
    forallb (fun e => negb (is_metadata_call e)) effects = true.
Proof.
  cbv [transcript_of extract_transcript bindM try_exceptM lift emit ret
       list_and_select fetch_track].
  split_run; cbn [fst snd].
  all: eexists; (split; [rewrite <- ?app_assoc; cbn [app]; reflexivity|]).
  all: split; reflexivity.
Qed.

Lemma banner_result m v :
  (float_duration m = true /\ banner m v = Raise ValueError) \/
  (float_duration m = false /\ exists lines, banner m v = Ok lines).
Proof.
  unfold banner, duration_lines, float_duration.
  destruct (meta_duration m) as [|z|x]; cbn [bind].
  - right. split; [reflexivity | eexists; reflexivity].
  - right. split; [reflexivity|]. destruct (z =? 0)%Z; eexists; reflexivity.
  - destruct (Py.number_truthy x); [left | right]; split; try reflexivity.
    eexists; reflexivity.
Qed.

Lemma auto_name_result now m :
  (none_title m = true /\ auto_name now (Some m) = Raise TypeError) \/
  (none_title m = false /\ exists name, auto_name now (Some m) = Ok name).
Proof.
  unfold auto_name, none_title. destruct (meta_title m) as [|s]; cbn [bind].
  - left. split; reflexivity.
  - right. split; [reflexivity | eexists; reflexivity].
Qed.

Lemma filter_silent (p : event -> bool) l :
  (forall e, is_silent e = true -> p e = false) ->
  forallb is_silent l = true -> filter p l = [].
Proof.
  intros Hp. induction l as [|x l IH]; [reflexivity|]. cbn [forallb filter]. intros H.
  apply andb_true_iff in H as [Hx Hl]. rewrite (Hp x Hx). now apply IH.
Qed.

Lemma silent_no_write e : is_silent e = true -> is_write e = false.
Proof. unfold is_silent. now destruct (is_write e). Qed.

Lemma silent_no_stdout e : is_silent e = true -> is_stdout e = false.
Proof. unfold is_silent. destruct (is_write e), (is_stdout e); now cbn. Qed.

Ltac run_known :=
  repeat match goal with
         | |- context [get_video_metadata ?P ?v ?l] =>
             let printed := fresh "printed" in
             let Hm := fresh "Hm" in
             let Hp := fresh "Hp" in
             destruct (get_video_metadata_run P v l) as (printed & Hm & Hp); rewrite Hm; clear Hm
         | |- context [extract_transcript ?P ?v ?l] =>
             let effects := fresh "effects" in
             let Ht := fresh "Ht" in
             let Hs := fresh "Hs" in
             let Hc := fresh "Hc" in
             destruct (extract_transcript_run P v l) as (effects & Ht & Hs & Hc); rewrite Ht; clear Ht
         end.

Ltac drop_silent :=
  repeat match goal with
         | H : forallb is_silent ?l = true |- context [filter is_write ?l] =>
             rewrite (filter_silent is_write l silent_no_write H)
         | H : forallb is_silent ?l = true |- context [filter is_stdout ?l] =>
             rewrite (filter_silent is_stdout l silent_no_stdout H)
         | H : forallb ?p ?l = true |- context [forallb ?p ?l] => rewrite H
         end.

Ltac effects_facts :=
  cbn [app]; rewrite ?filter_app, ?forallb_app;
  cbn [filter forallb is_write is_stdout is_metadata_call negb andb app];
  rewrite ?filter_app, ?forallb_app;
  drop_silent;
  cbn [filter forallb is_write is_stdout is_metadata_call negb andb app].

(** The run of [process_url] once the identifier is known. *)
Lemma process_url_run L P now url out md quiet log v :
  URLExtractor.extract_video_id L url = Ok (Some v) ->
  exists effects,
    process_url L P now url out md quiet log = (outcome P v out md, log ++ effects) /\
    (md = false -> forallb (fun e => negb (is_metadata_call e)) effects = true) /\
    (outcome P v out md <> Ok true -> filter is_write effects = []) /\
    (falsy out = true -> filter is_write effects = []) /\
    (outcome P v out md = Ok true -> falsy out = false ->
     exists name text,
       filter is_write effects = [FileWrite name text] /\
       (out <> Some "auto"%string -> out = Some name) /\
       (md = false -> text = Chapters.get (transcript_of P v) "")) /\
    (quiet = true -> falsy out = false -> filter is_stdout effects = []).
Proof.
  intros Hv. pose proof (valid_nonempty v (extract_valid L url v Hv)) as Hne.
  unfold outcome.
  destruct quiet, md, out as [[|c name]|];
    cbv [process_url bindM when lift emit ret]; cbn [negb];
    rewrite Hv; cbn [falsy]; rewrite Hne; cbn [Chapters.get fst snd negb andb];
    run_known;
    destruct (falsy (transcript_of P v)) eqn:Et;
    try (destruct (banner_result (metadata_of P v) v) as [[Hfd ->] | [Hfd [lines ->]]];
         rewrite Hfd);
    cbn [Py.is_empty asks_auto andb];
    try (destruct (String.eqb_spec (String c name) "auto") as [Hauto | Hauto];
         try (destruct (auto_name_result now (metadata_of P v)) as [[Hnt ->] | [Hnt [fname ->]]];
              rewrite Hnt)).
  all: cbn [andb auto_name bind].
  all: eexists; (split; [rewrite <- ?app_assoc; cbn [app]; reflexivity|]).
  all: repeat split; intros; try discriminate; try congruence.
  all: effects_facts; try reflexivity.
  all: try (eexists; eexists; (split; [reflexivity|]); split; intros;
            try discriminate; try reflexivity; try congruence).
Qed.

Lemma process_url_cases L P now url out md quiet log :
  (URLExtractor.extract_video_id L url = Ok None /\
   process_url L P now url out md quiet log
   = (Ok false,
      log ++ (if quiet then [] else [Stdout ("Processing: " ++ url)%string])
          ++ [Stderr ("Error: Could not extract video ID from URL: " ++ url)%string])) \/
  (exists v, URLExtractor.extract_video_id L url = Ok (Some v)).
Proof.
  destruct (extract_total L url) as [[v|] Hr].
  - right. now exists v.
  - left. split; [exact Hr|]. now apply process_url_unresolvable.
Qed.

Lemma float_duration_of P v :
  float_duration (metadata_of P v) = true ->
  exists info x, extract_info P v = Ok info /\
                 Chapters.info_duration info = Some (Chapters.DurationFloat x) /\
                 Py.number_truthy x = true.
Proof.
  unfold float_duration, metadata_of.
  destruct (extract_info P v) as [info|e]; cbn [meta_duration]; [|discriminate].
  destruct (Chapters.info_duration info) as [[|z|x]|] eqn:Ed; cbn [Chapters.get];
    try discriminate.
  intros H. exists info, x. repeat split; assumption.
Qed.

Lemma none_title_of P v :
  none_title (metadata_of P v) = true ->
  exists info, extract_info P v = Ok info /\
               Chapters.info_title info = Some Chapters.TextNone.
Proof.
  unfold none_title, metadata_of.
  destruct (extract_info P v) as [info|e]; cbn [meta_title]; [|discriminate].
  destruct (Chapters.info_title info) as [[|s]|] eqn:Ei; cbn [Chapters.get];
    try discriminate.
  intros _. exists info. split; [reflexivity | assumption].
Qed.

(** How a run can end. *)
Lemma outcome_cases P v out md :
  (exists r, outcome P v out md = Ok r) \/
  (outcome P v out md = Raise ValueError /\ md = true /\
   exists info x, extract_info P v = Ok info /\
                  Chapters.info_duration info = Some (Chapters.DurationFloat x) /\
                  Py.number_truthy x = true) \/
  (outcome P v out md = Raise TypeError /\ md = true /\ out = Some "auto"%string /\
   exists info, extract_info P v = Ok info /\
                Chapters.info_title info = Some Chapters.TextNone).
Proof.
  unfold outcome. destruct (falsy (transcript_of P v)); [left; now eexists|].
  destruct md; cbn [andb]; [|left; now eexists].
  destruct (float_duration (metadata_of P v)) eqn:Ef.
  - right. left. split; [reflexivity|]. split; [reflexivity|]. now apply float_duration_of.
  - destruct (asks_auto out) eqn:Ea; cbn [andb]; [|left; now eexists].
    destruct (none_title (metadata_of P v)) eqn:En; [|left; now eexists].
    right. right. split; [reflexivity|]. split; [reflexivity|]. split.
    + destruct out as [name|]; [|discriminate Ea]. cbn [asks_auto] in Ea.
      apply String.eqb_eq in Ea. now subst.
    + now apply none_title_of.
Qed.

Lemma process_url_effects (L : UrlLib) (P : Providers) (now url : string)
  (out : option string) (md quiet : bool) (log : list event) :
  exists res effects,
    process_url L P now url out md quiet log = (res, log ++ effects) /\
    (forall v, URLExtractor.extract_video_id L url = Ok (Some v) ->
               res = outcome P v out md) /\
    (URLExtractor.extract_video_id L url = Ok None -> res = Ok false) /\
    (res <> Ok true -> filter is_write effects = []) /\
    (falsy out = true -> filter is_write effects = []) /\
    (res = Ok true -> falsy out = false ->
     exists name text,
       filter is_write effects = [FileWrite name text] /\
       (out <> Some "auto"%string -> out = Some name)).
Proof.
  destruct (process_url_cases L P now url out md quiet log) as [[Hn ->] | [v Hv]].
  - exists (Ok false). eexists. split; [reflexivity|].
    split; [intros v Hv; congruence|]. split; [reflexivity|].
    destruct quiet; repeat split; intros; try reflexivity; discriminate.
  - destruct (process_url_run L P now url out md quiet log v Hv)
      as (effects & -> & _ & Hfail & Hnone & Hone & _).
    eexists. exists effects. split; [reflexivity|].
    split; [intros v' Hv'; congruence|]. split; [intros Hn; congruence|].
    split; [exact Hfail|]. split; [exact Hnone|].
    intros H Hout. destruct (Hone H Hout) as (name & text & Hw & Hname & _).
    now exists name, text.
Qed.

(** X10: no failure of a provider makes [process_url] raise, but two
    answers of the metadata provider do, when the metadata is asked for
    and the transcript is there: a duration that is a [float] other than
    zero raises [ValueError] in the banner, and a title that is [None]
    raises [TypeError] when the file name is to be made from it (output
    file 'auto').  In every other case it returns [True] or [False]
    (writing the file is taken to succeed).  It writes no file unless it
    returns [True] and an output file is asked for; then it writes exactly
    one file, under the name asked for unless that name is 'auto'. *)
Theorem process_url_outcome (L : UrlLib) (P : Providers) (now url : string)
  (out : option string) (md quiet : bool) (log : list event) :
  exists res effects,
    process_url L P now url out md quiet log = (res, log ++ effects) /\
    (forall v, URLExtractor.extract_video_id L url = Ok (Some v) ->
               res = outcome P v out md) /\
    ((exists r, res = Ok r) \/
     (res = Raise ValueError /\ md = true /\
      exists v info x,
        URLExtractor.extract_video_id L url = Ok (Some v) /\
        extract_info P v = Ok info /\
        Chapters.info_duration info = Some (Chapters.DurationFloat x) /\
        Py.number_truthy x = true) \/
     (res = Raise TypeError /\ md = true /\ out = Some "auto"%string /\
      exists v info,
        URLExtractor.extract_video_id L url = Ok (Some v) /\
        extract_info P v = Ok info /\
        Chapters.info_title info = Some Chapters.TextNone)) /\
    (res <> Ok true -> filter is_write effects = []) /\
    (falsy out = true -> filter is_write effects = []) /\
    (res = Ok true -> falsy out = false ->
     exists name text,
       filter is_write effects = [FileWrite name text] /\
       (out <> Some "auto"%string -> out = Some name)).
Proof.
  destruct (process_url_effects L P now url out md quiet log)
    as (res & effects & Hrun & Hres & Hnone & Hfail & Hout & Hone).
  exists res, effects. split; [exact Hrun|]. split; [exact Hres|].
  split; [|split; [exact Hfail|]; split; [exact Hout | exact Hone]].
  destruct (extract_total L url) as [[v|] Hv].
  - rewrite (Hres v Hv).
    destruct (outcome_cases P v out md)
      as [H | [(H & Hmd & info & x & Hi & Hd & Hx) | (H & Hmd & Ho & info & Hi & Ht)]].
    + now left.
    + right. left. split; [exact H|]. split; [exact Hmd|]. now exists v, info, x.
    + right. right. split; [exact H|]. split; [exact Hmd|]. split; [exact Ho|].
      now exists v, info.
  - left. exists false. now apply Hnone.
Qed.

Lemma process_url_outcome_witness :
  fst (process_url Urllib.lib (float_provider hello) "now" "youtu.be/dQw4w9WgXcQ"
                   (Some "out.txt"%string) true true [])
  = Raise ValueError /\
  snd (process_url Urllib.lib (float_provider hello) "now" "youtu.be/dQw4w9WgXcQ"
                   (Some "out.txt"%string) true true [])
  = [MetadataCall "dQw4w9WgXcQ"; TranscriptCall "dQw4w9WgXcQ"; FetchCall "English"]%string.
Proof.
  destruct (process_url_outcome Urllib.lib (float_provider hello) "now" "youtu.be/dQw4w9WgXcQ"
              (Some "out.txt"%string) true true [])
    as (res & effects & Hrun & Hres & _).
  rewrite Hrun. cbn [fst snd app]. split.
  - rewrite (Hres "dQw4w9WgXcQ"%string); vm_compute; reflexivity.
  - vm_compute in Hrun. now injection Hrun as _ <-.
Defined.

Lemma outcome_without_metadata P v out : exists r, outcome P v out false = Ok r.
Proof. unfold outcome. destruct (falsy _); cbn [andb]; now eexists. Qed.

Lemma process_url_without_metadata L P now url out quiet log :
  exists r, fst (process_url L P now url out false quiet log) = Ok r.
Proof.
  destruct (process_url_effects L P now url out false quiet log)
    as (res & effects & -> & Hres & Hnone & _). cbn [fst].
  destruct (extract_total L url) as [[v|] Hv].
  - rewrite (Hres v Hv). apply outcome_without_metadata.
  - exists false. now apply Hnone.
Qed.

Lemma process_url_raises L P now url out md quiet log e :
  fst (process_url L P now url out md quiet log) = Raise e ->
  md = true /\ (e = ValueError \/ e = TypeError).
Proof.
  destruct (process_url_effects L P now url out md quiet log)
    as (res & effects & -> & Hres & Hnone & _). cbn [fst].
  destruct (extract_total L url) as [[v|] Hv].
  - rewrite (Hres v Hv).
    destruct (outcome_cases P v out md) as [[r ->] | [(-> & Hmd & _) | (-> & Hmd & _)]].
    + discriminate.
    + intros [= <-]. split; [exact Hmd | now left].
    + intros [= <-]. split; [exact Hmd | now right].
  - rewrite (Hnone Hv). discriminate.
Qed.

(** X11: a quiet run of [process_url] that has an output file prints
    nothing on the standard output; a run without metadata never calls
    the metadata provider, does not raise, and the text it writes to the
    file is the transcript alone, as [extract_transcript] returned it. *)
Theorem process_url_flags (L : UrlLib) (P : Providers) (now url : string)
  (out : option string) (md quiet : bool) (log : list event) :
  exists res effects,
    process_url L P now url out md quiet log = (res, log ++ effects) /\
    (quiet = true -> falsy out = false -> filter is_stdout effects = []) /\
    (md = false -> filter is_metadata_call effects = []) /\
    (md = false -> forall name text, In (FileWrite name text) effects ->
       exists v, URLExtractor.extract_video_id L url = Ok (Some v) /\
                 transcript_of P v = Some text) /\
    (md = false -> exists r, res = Ok r).
Proof.
  destruct (process_url_cases L P now url out md quiet log) as [[_ ->] | [v Hv]].
  - exists (Ok false). eexists. split; [reflexivity|].
    destruct quiet; repeat split; intros; try reflexivity; try discriminate;
      try (now exists false); cbn in *; intuition discriminate.
  - destruct (process_url_run L P now url out md quiet log v Hv)
      as (effects & -> & Hmeta & Hfail & Hnone & Hone & Hquiet).
    eexists. exists effects. split; [reflexivity|].
    split; [exact Hquiet|]. split; [|split].
    + intros Hmd. apply filter_none. now apply Hmeta.
    + intros Hmd name text Hin. exists v. split; [exact Hv|].
      assert (Hf : In (FileWrite name text) (filter is_write effects))
        by (apply filter_In; now split).
      subst md. destruct (outcome_without_metadata P v out) as [[|] Hr].
      * destruct (falsy out) eqn:Eo; [rewrite (Hnone eq_refl) in Hf; destruct Hf|].
        destruct (Hone Hr eq_refl) as (name' & text' & Hw & _ & Htext).
        rewrite Hw in Hf. destruct Hf as [Hf | []]. injection Hf as -> ->.
        rewrite (Htext eq_refl). unfold outcome in Hr.
        destruct (transcript_of P v) as [t|]; [reflexivity | discriminate Hr].
      * rewrite Hfail in Hf; [destruct Hf | rewrite Hr; discriminate].
    + intros ->. apply outcome_without_metadata.
Qed.

(** ** [process_batch] *)

Lemma path_join_auto dir :
  dir <> ""%string ->
  path_join dir "auto" <> "auto"%string /\ falsy (Some (path_join dir "auto")) = false.
Proof.
  intros Hd. unfold path_join. change (Py.startswith "/" "auto") with false. cbv iota.
  destruct dir as [|c d]; [contradiction|]. cbn [Py.is_empty orb].
  destruct (match Py.last_char (String c d) with
            | Some c0 => Ascii.eqb c0 "/"
            | None => false
            end); cbn [append falsy Py.is_empty]; split; try reflexivity;
    intros H; apply (f_equal String.length) in H; cbn [String.length] in H;
    rewrite ?length_append in H; cbn [String.length] in H; lia.
Qed.

Lemma process_url_named L P now url name md quiet :
  name <> "auto"%string -> falsy (Some name) = false ->
  exists res effects,
    process_url L P now url (Some name) md quiet [] = (res, effects) /\
    forall n text, In (FileWrite n text) effects -> n = name.
Proof.
  intros Hauto Hne.
  destruct (process_url_effects L P now url (Some name) md quiet [])
    as (res & effects & Hrun & _ & _ & Hfalse & _ & Htrue).
  exists res, effects. split; [exact Hrun|]. intros n text Hin.
  assert (Hf : In (FileWrite n text) (filter is_write effects))
    by (apply filter_In; now split).
  assert (Hd : res = Ok true \/ res <> Ok true).
  { destruct res as [[|]|e]; [now left | right; discriminate | right; discriminate]. }
  destruct Hd as [Hd | Hd].
  - destruct (Htrue Hd Hne) as (name' & text' & Hw & Hname).
    rewrite Hw in Hf. destruct Hf as [Hf | []]. injection Hf as -> ->.
    assert (H : Some name = Some n) by (apply Hname; congruence). congruence.
  - rewrite (Hfalse Hd) in Hf. destruct Hf.
Qed.

Lemma process_url_unnamed L P now url md quiet :
  exists res effects,
    process_url L P now url None md quiet [] = (res, effects) /\
    forall n text, ~ In (FileWrite n text) effects.
Proof.
  destruct (process_url_effects L P now url None md quiet [])
    as (res & effects & Hrun & _ & _ & _ & Hnone & _).
  exists res, effects. split; [exact Hrun|]. intros n text Hin.
  assert (Hf : In (FileWrite n text) (filter is_write effects))
    by (apply filter_In; now split).
  rewrite (Hnone eq_refl) in Hf. destruct Hf.
Qed.

Lemma dict_set_keys url success results k :
  In k (map fst (dict_set url success results)) <-> k = url \/ In k (map fst results).
Proof.
  induction results as [|[k0 v0] more IH]; cbn [dict_set map fst In].
  - intuition.
  - destruct (String.eqb_spec k0 url) as [-> |Hne]; cbn [map fst In]; [intuition|].
    rewrite IH. intuition.
Qed.

Lemma dict_set_nodup url success results :
  NoDup (map fst results) -> NoDup (map fst (dict_set url success results)).
Proof.
  induction results as [|[k0 v0] more IH]; cbn [dict_set map fst]; intros H.
  - constructor; [intros [] | constructor].
  - inversion H as [|? ? Hnot Hmore]; subst.
    destruct (String.eqb_spec k0 url) as [-> |Hne]; cbn [map fst].
    + now constructor.
    + constructor; [|now apply IH].
      intros Hin. apply dict_set_keys in Hin as [Hk | Hin]; [congruence | contradiction].
Qed.

Lemma dict_set_length url success results :
  List.length (dict_set url success results) <= S (List.length results).
Proof.
  induction results as [|[k0 v0] more IH]; cbn [dict_set List.length]; [lia|].
  destruct (String.eqb k0 url); cbn [List.length]; lia.
Qed.

Lemma in_map_OfUrl e effects : In (OfUrl e) (map OfUrl effects) -> In e effects.
Proof.
  intros H. apply in_map_iff in H as (e' & He & Hin). now injection He as ->.
Qed.

Lemma batch_loop_run L P clock n output_dir md quiet
  (Hfile : forall now url, exists res effects,
     process_url L P now url (batch_file output_dir) md quiet [] = (res, effects) /\
     forall name text, In (FileWrite name text) effects ->
       negb (falsy output_dir) = true /\
       name = path_join (Chapters.get output_dir "") "auto") :
  forall urls i results log,
  exists res log',
    batch_loop L P clock n output_dir md quiet i urls results log = (res, log ++ log') /\
    (forall name text, In (OfUrl (FileWrite name text)) log' ->
       negb (falsy output_dir) = true /\
       name = path_join (Chapters.get output_dir "") "auto") /\
    (forall d, ~ In (MakeDirs d) log') /\
    (forall results', res = Ok results' ->
       (forall k, In k (map fst results') <-> In k (map fst results) \/ In k urls) /\
       (NoDup (map fst results) -> NoDup (map fst results')) /\
       List.length results' <= List.length results + List.length urls) /\
    (forall e, res = Raise e ->
       exists now url, In url urls /\
         fst (process_url L P now url (batch_file output_dir) md quiet []) = Raise e).
Proof.
  induction urls as [|url more IH]; intros i results log; cbn [batch_loop].
  - exists (Ok results), []. rewrite app_nil_r. split; [reflexivity|].
    split; [intros ? ? []|]. split; [intros ? []|]. split.
    + intros results' [= <-]. split; [cbn [In]; tauto|].
      split; [tauto | cbn [List.length]; lia].
    + intros e H. discriminate H.
  - fold (batch_file output_dir).
    destruct (Hfile (clock i) url) as (r & effects & Hrun & Hnames). rewrite Hrun.
    destruct r as [r|e].
    + destruct (IH (S i) (dict_set url r results)
                  ((if negb quiet then log ++ [Progress (progress_text i n)] else log)
                   ++ map OfUrl effects))
        as (res & log' & -> & Hw & Hm & Hok & Hraise).
      exists res.
      exists ((if negb quiet then [Progress (progress_text i n)] else [])
              ++ map OfUrl effects ++ log').
      split; [|split; [|split; [|split]]].
      * f_equal. destruct (negb quiet); rewrite <- ?app_assoc; reflexivity.
      * intros name text Hin. apply in_app_or in Hin as [Hin | Hin].
        -- destruct (negb quiet); [destruct Hin as [Hin | []]; discriminate Hin | destruct Hin].
        -- apply in_app_or in Hin as [Hin | Hin]; [|now apply (Hw name text)].
           apply in_map_OfUrl in Hin. now apply (Hnames name text).
      * intros d Hin. apply in_app_or in Hin as [Hin | Hin].
        -- destruct (negb quiet); [destruct Hin as [Hin | []]; discriminate Hin | destruct Hin].
        -- apply in_app_or in Hin as [Hin | Hin]; [|now apply (Hm d)].
           apply in_map_iff in Hin as (e' & He & _). discriminate He.
      * intros results' Hres. destruct (Hok results' Hres) as (Hk & Hn & Hl).
        split; [|split].
        -- intros k. rewrite Hk, dict_set_keys. cbn [In]. intuition.
        -- intros Hnd. apply Hn. now apply dict_set_nodup.
        -- pose proof (dict_set_length url r results). cbn [List.length]. lia.
      * intros e He. destruct (Hraise e He) as (now & url' & Hin & Hr).
        exists now, url'. split; [now right | exact Hr].
    + exists (Raise e).
      exists ((if negb quiet then [Progress (progress_text i n)] else [])
              ++ map OfUrl effects).
      split; [|split; [|split; [|split]]].
      * f_equal. destruct (negb quiet); rewrite <- ?app_assoc; reflexivity.
      * intros name text Hin. apply in_app_or in Hin as [Hin | Hin].
        -- destruct (negb quiet); [destruct Hin as [Hin | []]; discriminate Hin | destruct Hin].
        -- apply in_map_OfUrl in Hin. now apply (Hnames name text).
      * intros d Hin. apply in_app_or in Hin as [Hin | Hin].
        -- destruct (negb quiet); [destruct Hin as [Hin | []]; discriminate Hin | destruct Hin].
        -- apply in_map_iff in Hin as (e' & He & _). discriminate He.
      * intros results' H. discriminate H.
      * intros e' [= <-]. exists (clock i), url. split; [now left|]. now rewrite Hrun.
Qed.

Lemma batch_file_step L P output_dir md quiet now url :
  exists res effects,
    process_url L P now url (batch_file output_dir) md quiet [] = (res, effects) /\
    forall name text, In (FileWrite name text) effects ->
      negb (falsy output_dir) = true /\
      name = path_join (Chapters.get output_dir "") "auto".
Proof.
  unfold batch_file. destruct (falsy output_dir) eqn:Ef; cbn [negb].
  - destruct (process_url_unnamed L P now url md quiet) as (r & effects & Hrun & Hno).
    exists r, effects. split; [exact Hrun|]. intros name text Hin.
    destruct (Hno name text Hin).
  - destruct output_dir as [dir|]; [|discriminate Ef]. cbn [Chapters.get].
    assert (Hd : dir <> ""%string) by (intros ->; discriminate Ef).
    destruct (path_join_auto dir Hd) as [Hauto Hne].
    destruct (process_url_named L P now url _ md quiet Hauto Hne)
      as (r & effects & Hrun & Hn).
    exists r, effects. split; [exact Hrun|]. intros name text Hin.
    split; [reflexivity | now apply (Hn name text)].
Qed.

(** X12: a batch with an output directory writes every transcript to the
    same file, the one named 'auto' in that directory: the name handed to
    [process_url] is the joined path, which is never the 'auto' that asks
    for a name made from the title; a batch without output directory
    writes no file.  The directory is created at most once, before any
    URL is processed, and only when it does not exist.  This holds for
    the batch that ends as for the one that a raise of [process_url]
    cuts short. *)
Theorem batch_writes_one_file (L : UrlLib) (P : Providers) (clock : nat -> string)
  (dir_exists : bool) (urls : list string) (output_dir : option string)
  (md quiet : bool) :
  exists res log,
    process_batch L P clock dir_exists urls output_dir md quiet
    = (res,
       (if negb (falsy output_dir) && negb dir_exists
        then [MakeDirs (Chapters.get output_dir "")] else []) ++ log) /\
    (forall d, ~ In (MakeDirs d) log) /\
    (forall name text, In (OfUrl (FileWrite name text)) log ->
       exists dir, output_dir = Some dir /\ dir <> ""%string /\
                   name = path_join dir "auto" /\ name <> "auto"%string) /\
    (md = false -> exists results, res = Ok results).
Proof.
  unfold process_batch.
  destruct (batch_loop_run L P clock (List.length urls) output_dir md quiet
              (batch_file_step L P output_dir md quiet) urls 1 []
              (if negb (falsy output_dir) && negb dir_exists
               then [MakeDirs (Chapters.get output_dir "")] else []))
    as (res & log & -> & Hw & Hm & _ & Hraise).
  exists res, log. split; [reflexivity|]. split; [exact Hm|]. split.
  - intros name text Hin. destruct (Hw name text Hin) as [Hdir ->].
    destruct output_dir as [dir|]; [|discriminate Hdir]. exists dir.
    assert (Hd : dir <> ""%string) by (intros ->; discriminate Hdir).
    split; [reflexivity|]. split; [exact Hd|]. split; [reflexivity|].
    exact (proj1 (path_join_auto dir Hd)).
  - intros ->. destruct res as [results|e]; [now exists results|].
    destruct (Hraise e eq_refl) as (now & url & _ & Hr).
    destruct (process_url_without_metadata L P now url (batch_file output_dir) quiet [])
      as [r Hok].
    rewrite Hok in Hr. discriminate Hr.
Qed.

Lemma dict_set_fresh url success results :
  ~ In url (map fst results) ->
  map fst (dict_set url success results) = map fst results ++ [url].
Proof.
  induction results as [|[k0 v0] more IH]; cbn [dict_set map fst In app]; intros H.
  - reflexivity.
  - destruct (String.eqb_spec k0 url) as [-> |Hne]; [tauto|].
    cbn [map fst]. rewrite IH by tauto. reflexivity.
Qed.

Lemma batch_loop_order L P clock n output_dir md quiet : forall urls i results log results' log',
  NoDup (map fst results ++ urls) ->
  batch_loop L P clock n output_dir md quiet i urls results log = (Ok results', log') ->
  map fst results' = map fst results ++ urls.
Proof.
  induction urls as [|url more IH]; intros i results log results' log' Hnd; cbn [batch_loop].
  - intros H. injection H as <- _. now rewrite app_nil_r.
  - destruct (process_url _ _ _ _ _ _ _ _) as [[r|e] effects]; [|discriminate].
    intros H. apply IH in H.
    + rewrite H, dict_set_fresh, <- app_assoc; [reflexivity|].
      apply NoDup_remove_2 in Hnd. intros Hin. apply Hnd. apply in_or_app. now left.
    + rewrite dict_set_fresh.
      * rewrite <- app_assoc. exact Hnd.
      * apply NoDup_remove_2 in Hnd. intros Hin. apply Hnd. apply in_or_app. now left.
Qed.

(** X13: [process_batch] raises only when [process_url] does, which takes
    a run with metadata and ends the batch with [ValueError] or
    [TypeError]; a failure of a provider never makes it raise (creating
    the directory and writing the files are taken to succeed).  The
    dictionary it returns has one entry for each distinct URL of the
    list, so it may have fewer entries than the list has URLs; when no
    URL is repeated the entries are in the order of the list. *)
Theorem batch_results_keys (L : UrlLib) (P : Providers) (clock : nat -> string)
  (dir_exists : bool) (urls : list string) (output_dir : option string)
  (md quiet : bool) :
  exists res log,
    process_batch L P clock dir_exists urls output_dir md quiet = (res, log) /\
    (forall results, res = Ok results ->
       NoDup (map fst results) /\
       (forall url, In url (map fst results) <-> In url urls) /\
       List.length results <= List.length urls /\
       (NoDup urls -> map fst results = urls)) /\
    (forall e, res = Raise e ->
       md = true /\ (e = ValueError \/ e = TypeError) /\
       exists now url, In url urls /\
         fst (process_url L P now url (batch_file output_dir) md quiet []) = Raise e) /\
    (md = false -> exists results, res = Ok results).
Proof.
  unfold process_batch.
  destruct (batch_loop_run L P clock (List.length urls) output_dir md quiet
              (batch_file_step L P output_dir md quiet) urls 1 []
              (if negb (falsy output_dir) && negb dir_exists
               then [MakeDirs (Chapters.get output_dir "")] else []))
    as (res & log & Hrun & _ & _ & Hok & Hraise).
  rewrite Hrun. eexists. eexists. split; [reflexivity|].
  assert (Hr : forall e, res = Raise e ->
            md = true /\ (e = ValueError \/ e = TypeError) /\
            exists now url, In url urls /\
              fst (process_url L P now url (batch_file output_dir) md quiet []) = Raise e).
  { intros e He. destruct (Hraise e He) as (now & url & Hin & Hp).
    destruct (process_url_raises _ _ _ _ _ _ _ _ _ Hp) as [Hmd Hkind].
    split; [exact Hmd|]. split; [exact Hkind|]. now exists now, url. }
  split; [|split; [exact Hr|]].
  - intros results ->. destruct (Hok results eq_refl) as (Hk & Hn & Hl).
    split; [apply Hn; constructor|]. split; [|split; [exact Hl|]].
    + intros url. rewrite Hk. cbn [map In]. tauto.
    + intros Hnd.
      apply (batch_loop_order L P clock (List.length urls) output_dir md quiet urls 1 []
               _ results _ Hnd Hrun).
  - intros ->. destruct res as [results|e]; [now exists results|].
    destruct (Hr e eq_refl) as [Hmd _]. discriminate Hmd.
Qed.

Lemma batch_results_keys_witness :
  exists log,
    process_batch Urllib.lib (one_track hello) (fun _ => "now"%string) true
      ["dQw4w9WgXcQ"; "nothing"; "dQw4w9WgXcQ"]%string None false true
    = (Ok [("dQw4w9WgXcQ", true); ("nothing", false)]%string, log).
Proof.
  destruct (batch_results_keys Urllib.lib (one_track hello) (fun _ => "now"%string) true
              ["dQw4w9WgXcQ"; "nothing"; "dQw4w9WgXcQ"]%string None false true)
    as (res & log & Hrun & _).
  exists log. rewrite Hrun. vm_compute in Hrun. injection Hrun as <- _. reflexivity.
Defined.

Lemma batch_writes_one_file_witness :
  exists res log,
    process_batch Urllib.lib (one_track hello) (fun _ => "now"%string) false
      ["dQw4w9WgXcQ"; "youtu.be/aaaaaaaaaaa"]%string (Some "out"%string) false true
    = (res, MakeDirs "out" :: log) /\
    log = [OfUrl (TranscriptCall "dQw4w9WgXcQ"); OfUrl (FetchCall "English");
           OfUrl (FileWrite "out/auto" "Hello world.");
           OfUrl (TranscriptCall "aaaaaaaaaaa"); OfUrl (FetchCall "English");
           OfUrl (FileWrite "out/auto" "Hello world.")]%string.
Proof.
  destruct (batch_writes_one_file Urllib.lib (one_track hello) (fun _ => "now"%string) false
              ["dQw4w9WgXcQ"; "youtu.be/aaaaaaaaaaa"]%string (Some "out"%string) false true)
    as (res & log & Hrun & _).
  exists res, log. split; [exact Hrun|].
  vm_compute in Hrun. injection Hrun as _ <-. reflexivity.
Defined.

(** ** The handler of the web API *)

Ltac split_service :=
  repeat (cbn [fst snd negb falsy Py.is_empty Chapters.get status_of];
          match goal with
          | |- context [extract_info ?P ?v] => destruct (extract_info P v) as [?info|?e] eqn:?
          | |- context [list_tracks ?P ?v] => destruct (list_tracks P v) as [?tracks|?e] eqn:?
          | |- context [select_track ?t] => destruct (select_track t) as [?t|] eqn:?
          | |- context [fetch ?t] => destruct (fetch t) as [?segments|?e] eqn:?
          | |- context [SimpleFormatter.text_lines ?s] =>
              destruct (SimpleFormatter.text_lines s) as [?lines|?e] eqn:?
          | |- context [Chapters.nonempty ?l] => destruct (Chapters.nonempty l) eqn:?
          end).

Lemma make_response_cases P v title tr ch d :
  (exists t z, valid_title title = Some t /\ valid_duration P d = Some z /\
               make_response P v title tr ch d = Ok (mkResponse v t tr ch z)) \/
  ((valid_title title = None \/ valid_duration P d = None) /\
   make_response P v title tr ch d = Raise ValidationError).
Proof.
  unfold make_response.
  destruct (valid_title title) as [t|]; [|right; split; [now left | reflexivity]].
  destruct (valid_duration P d) as [z|]; [|right; split; [now right | reflexivity]].
  left. now exists t, z.
Qed.

Lemma handler_run L P url log v :
  URLExtractor.extract_video_id L url = Ok (Some v) ->
  let r := fst (get_transcript L P url log) in
  (status_of r = 200%Z \/ status_of r = 500%Z) /\
  (status_of r = 200%Z <-> transcript_available P v /\ response_valid P v) /\
  (forall resp, r = Ok resp ->
     resp_video_id resp = v /\
     valid_title (response_title P v) = Some (resp_title resp) /\
     valid_duration P (response_duration P v) = Some (resp_duration resp) /\
     (forall e, extract_info P v = Raise e ->
        resp_title resp = ""%string /\ resp_duration resp = 0%Z /\ resp_chapters resp = [])).
Proof.
  intros Hv. pose proof (valid_nonempty v (extract_valid L url v Hv)) as Hne.
  unfold transcript_available, response_valid, response_title, response_duration.
  cbv [get_transcript service_get_transcript _get_video_metadata _extract_transcript
       get_chapters ask_info bindM try_exceptM lift emit ret raise list_and_select
       fetch_track call_extract_info].
  rewrite Hv. cbn [falsy]. rewrite Hne. cbn [Chapters.get fst snd negb].
  split_service; cbn [fst snd status_of data_title data_duration data_transcript].
  all: try match goal with
           | |- context [make_response ?P ?v ?t ?tr ?ch ?d] =>
               destruct (make_response_cases P v t tr ch d)
                 as [(tt' & z & Htt & Hz & ->) | [Hbad ->]]
           end; cbn [fst snd status_of].
  all: split; [tauto|].
  all: split;
    [split; [intros H; try discriminate H
            | intros [(? & ? & ? & ? & ? & ? & ? & ?) [? ?]]]|].
  all: try (split; [do 4 eexists; repeat split; eassumption | split; congruence]).
  all: try congruence.
  all: try (destruct Hbad; contradiction).
  all: intros resp Hresp; try discriminate Hresp; injection Hresp as <-.
  all: cbn [resp_video_id resp_title resp_duration resp_chapters].
  all: repeat split; try assumption; try reflexivity.
  all: try match goal with H : Ok _ = Raise _ |- _ => discriminate H end.
  all: cbn [valid_title valid_duration] in *; try congruence; try reflexivity.
Qed.

(** X14: the handler of the web API answers with status 200 or 500 and
    nothing else; it answers 200 exactly when the extractor resolves the
    URL, the transcript service can list, choose, fetch and join a track,
    and the response model accepts the title and the duration of the
    provider (a title that is a [str]; a duration that is an [int], or a
    [float] that the validation library takes).  A title or a duration
    that is [None] gives 500.  A failure of the metadata provider does not
    fail the request: the response then has an empty title, the duration
    0 and no chapters. *)
Theorem handler_status (L : UrlLib) (P : Providers) (url : string) (log : list event) :
  let r := fst (get_transcript L P url log) in
  (status_of r = 200%Z \/ status_of r = 500%Z) /\
  (status_of r = 200%Z <->
   exists v, URLExtractor.extract_video_id L url = Ok (Some v) /\
             transcript_available P v /\ response_valid P v) /\
  (forall resp v e,
     r = Ok resp -> URLExtractor.extract_video_id L url = Ok (Some v) ->
     extract_info P v = Raise e ->
     resp_video_id resp = v /\ resp_title resp = ""%string /\
     resp_duration resp = 0%Z /\ resp_chapters resp = []) /\
  (forall v info,
     URLExtractor.extract_video_id L url = Ok (Some v) ->
     extract_info P v = Ok info ->
     Chapters.info_title info = Some Chapters.TextNone \/
     Chapters.info_duration info = Some Chapters.DurationNone ->
     status_of r = 500%Z).
Proof.
  intros r. subst r.
  destruct (extract_total L url) as [[v|] Hv].
  - destruct (handler_run L P url log v Hv) as (Hs & Hiff & Hresp).
    split; [exact Hs|]. split; [|split].
    + rewrite Hiff. split.
      * intros [H1 H2]. now exists v.
      * intros (v' & Hv' & H). congruence.
    + intros resp v' e Hr Hv' He. assert (v' = v) by congruence. subst v'.
      destruct (Hresp resp Hr) as (Hid & _ & _ & Hdef). destruct (Hdef e He) as (? & ? & ?).
      repeat split; assumption.
    + intros v' info Hv' Hi Hnone. assert (v' = v) by congruence. subst v'.
      destruct Hs as [Hs | Hs]; [|exact Hs]. exfalso.
      apply Hiff in Hs as [_ [Ht Hd]].
      unfold response_title in Ht. unfold response_duration in Hd. rewrite Hi in Ht, Hd.
      destruct Hnone as [Hn | Hn]; rewrite Hn in *; cbn in Ht, Hd; congruence.
  - rewrite (get_transcript_unresolvable L P url log Hv). cbn [fst status_of].
    split; [now right|]. split; [|split].
    + split; [discriminate | intros (v & Hv' & _); congruence].
    + intros resp v e Hr. discriminate Hr.
    + reflexivity.
Qed.

Lemma handler_status_witness :
  fst (get_transcript Urllib.lib (one_track hello) "youtu.be/dQw4w9WgXcQ" [])
  = Ok (mkResponse "dQw4w9WgXcQ" "" "hello world" [] 0) /\
  status_of (fst (get_transcript Urllib.lib (one_track hello) "youtu.be/dQw4w9WgXcQ" []))
  = 200%Z /\
  status_of (fst (get_transcript Urllib.lib (float_provider hello) "youtu.be/dQw4w9WgXcQ" []))
  = 500%Z.
Proof.
  split; [vm_compute; reflexivity|]. split.
  - destruct (handler_status Urllib.lib (one_track hello) "youtu.be/dQw4w9WgXcQ" [])
      as (_ & Hiff & _).
    apply Hiff. exists "dQw4w9WgXcQ"%string. split; [vm_compute; reflexivity|]. split.
    + do 4 eexists. repeat split; vm_compute; reflexivity.
    + split; vm_compute; discriminate.
  - destruct (handler_status Urllib.lib (float_provider hello) "youtu.be/dQw4w9WgXcQ" [])
      as (_ & _ & _ & Hnone).
    apply (Hnone "dQw4w9WgXcQ"%string
             (Chapters.mkInfo (Some Chapters.TextNone)
                              (Some (Chapters.DurationFloat half_second)) None None None)).
    + vm_compute. reflexivity.
    + reflexivity.
    + now left.
Defined.

(** The calls of a request that succeeds. *)
Lemma handler_calls L P url log v tracks t segments lines :
  URLExtractor.extract_video_id L url = Ok (Some v) ->
  list_tracks P v = Ok tracks -> select_track tracks = Some t ->
  fetch t = Ok segments -> SimpleFormatter.text_lines segments = Ok lines ->
  snd (get_transcript L P url log)
  = log ++ [MetadataCall v; TranscriptCall v; FetchCall (language t); MetadataCall v]
        ++ (if Chapters.nonempty
                 (Chapters._extract_chapters_from_metadata (answer_of (extract_info P v)))
            then [] else [MetadataCall v]).
Proof.
  intros Hv Ht Hs Hf Hl. pose proof (valid_nonempty v (extract_valid L url v Hv)) as Hne.
  cbv [get_transcript service_get_transcript _get_video_metadata _extract_transcript
       get_chapters ask_info bindM try_exceptM lift emit ret raise list_and_select
       fetch_track call_extract_info].
  rewrite Hv. cbn [falsy]. rewrite Hne. cbn [Chapters.get fst snd negb].
  rewrite Ht. cbn [fst snd]. rewrite Hs, Hf. cbn [fst snd]. rewrite Hl.
  destruct (extract_info P v) as [info|e]; cbn [fst snd answer_of];
    destruct (Chapters.nonempty _); cbn [fst snd];
    destruct (make_response _ _ _ _ _ _); cbn [fst snd];
    rewrite <- ?app_assoc; reflexivity.
Qed.

(** X15: a request of the web API whose transcript is there asks the
    providers in this order: the metadata, the list of tracks, the chosen
    track, the metadata again for the chapters, and the metadata a third
    time exactly when the metadata strategy found no chapter in the
    answer; nothing is printed and no file is written. *)
Theorem handler_provider_calls (L : UrlLib) (P : Providers) (url : string)
  (log : list event) (v : string) (tracks : list track) (t : track)
  (segments : list SimpleFormatter.segment) (lines : list string) :
  URLExtractor.extract_video_id L url = Ok (Some v) ->
  list_tracks P v = Ok tracks -> select_track tracks = Some t ->
  fetch t = Ok segments -> SimpleFormatter.text_lines segments = Ok lines ->
  exists calls,
    snd (get_transcript L P url log) = log ++ calls /\
    forallb is_provider_call calls = true /\
    calls = [MetadataCall v; TranscriptCall v; FetchCall (language t); MetadataCall v]
            ++ (if Chapters.nonempty
                     (Chapters._extract_chapters_from_metadata
                        (answer_of (extract_info P v)))
                then [] else [MetadataCall v]).
Proof.
  intros Hv Ht Hs Hf Hl.
  rewrite (handler_calls L P url log v tracks t segments lines Hv Ht Hs Hf Hl).
  eexists. split; [reflexivity|]. split; [|reflexivity].
  destruct (Chapters.nonempty _); reflexivity.
Qed.

Lemma handler_provider_calls_witness :
  snd (get_transcript Urllib.lib (one_track hello) "youtu.be/dQw4w9WgXcQ" [])
  = [MetadataCall "dQw4w9WgXcQ"; TranscriptCall "dQw4w9WgXcQ"; FetchCall "English";
     MetadataCall "dQw4w9WgXcQ"; MetadataCall "dQw4w9WgXcQ"]%string.
Proof.
  destruct (handler_provider_calls Urllib.lib (one_track hello) "youtu.be/dQw4w9WgXcQ" []
              "dQw4w9WgXcQ" [mkTrack "English" "en" false (Ok hello)]
              (mkTrack "English" "en" false (Ok hello)) hello ["hello world"%string]
              ltac:(vm_compute; reflexivity) eq_refl eq_refl eq_refl eq_refl)
    as (calls & Hc & _ & Hlist).
  rewrite Hc, Hlist. vm_compute. reflexivity.
Defined.

End TranscriberFacts.

Section ParagraphsFacts.
Import SimpleFormatter.
Local Open Scope nat_scope.
Local Open Scope string_scope.
Local Open Scope list_scope.

(** ** Words *)

Lemma split_ws_from_words s : forall cur,
  (cur = ""%string \/ is_word cur = true) ->
  Forall (fun w => is_word w = true) (Py.split_ws_from cur s).
Proof.
  induction s as [|c s IH]; intros cur Hcur; cbn [Py.split_ws_from].
  - destruct Hcur as [-> | Hw]; cbn [Py.is_empty]; [constructor|].
    destruct cur; [discriminate Hw|]. cbn [Py.is_empty]. constructor; [exact Hw | constructor].
  - destruct (Py.isspace c) eqn:Hc.
    + destruct Hcur as [-> | Hw]; cbn [Py.is_empty]; [apply IH; now left|].
      destruct cur; [discriminate Hw|]. cbn [Py.is_empty].
      constructor; [exact Hw | apply IH; now left].
    + apply IH. right. unfold is_word.
      destruct Hcur as [-> | Hw].
      * cbn. now rewrite Hc.
      * unfold is_word in Hw. apply andb_true_iff in Hw as [Hne Hall].
        rewrite all_str_app, Hall. cbn [Py.all_str]. rewrite Hc. cbn.
        destruct cur; [discriminate Hne | reflexivity].
Qed.

Lemma split_ws_words s : Forall (fun w => is_word w = true) (Py.split_ws s).
Proof. apply split_ws_from_words. now left. Qed.

Lemma split_ws_from_word w : forall cur rest,
  Py.all_str (fun c => negb (Py.isspace c)) w = true ->
  Py.split_ws_from cur (w ++ rest) = Py.split_ws_from (cur ++ w) rest.
Proof.
  induction w as [|c w IH]; intros cur rest H.
  - now rewrite append_nil_r.
  - cbn [Py.all_str] in H. apply andb_true_iff in H as [Hc Hw].
    cbn [append Py.split_ws_from]. apply negb_true_iff in Hc. rewrite Hc.
    rewrite IH by exact Hw. now rewrite append_assoc.
Qed.

Lemma is_word_nonempty w : is_word w = true -> Py.is_empty w = false.
Proof.
  unfold is_word, Py.truthy. intros H. apply andb_true_iff in H as [H _].
  now apply negb_true_iff in H.
Qed.

Lemma split_ws_join ws :
  Forall (fun w => is_word w = true) ws -> Py.split_ws (Py.join " " ws) = ws.
Proof.
  unfold Py.split_ws.
  induction 1 as [|w ws Hw Hws IH]; [reflexivity|].
  pose proof Hw as Hw'. unfold is_word in Hw'. apply andb_true_iff in Hw' as [_ Hall].
  destruct ws as [|w2 ws].
  - cbn [Py.join String.concat].
    rewrite <- (append_nil_r w) at 1. rewrite split_ws_from_word by exact Hall.
    cbn [append Py.split_ws_from]. now rewrite (is_word_nonempty w Hw).
  - change (Py.join " " (w :: w2 :: ws)) with (w ++ String " " (Py.join " " (w2 :: ws)))%string.
    rewrite split_ws_from_word by exact Hall.
    cbn [append Py.split_ws_from].
    change (Py.isspace " ") with true. cbv iota.
    rewrite (is_word_nonempty w Hw). now rewrite IH.
Qed.

(** ** The sentences of the re-segmentation *)

Lemma reseg_spec_groups ws : forall cand,
  reseg_spec cand ws = map (Py.join " ") (reseg_groups cand ws).
Proof.
  induction ws as [|w rest IH]; intros cand; cbn [reseg_spec reseg_groups].
  - destruct (Chapters.nonempty cand); reflexivity.
  - destruct (closes _ _); cbn [map]; now rewrite IH.
Qed.

Lemma reseg_groups_concat ws : forall cand,
  List.concat (reseg_groups cand ws) = cand ++ ws.
Proof.
  induction ws as [|w rest IH]; intros cand; cbn [reseg_groups].
  - destruct cand; cbn [Chapters.nonempty List.concat]; now rewrite ?app_nil_r.
  - destruct (closes _ _); cbn [List.concat]; rewrite IH, <- ?app_assoc; reflexivity.
Qed.

Lemma closes_bounds n next :
  (closes n next = true -> 15 <= n) /\ (closes n next = false -> n < 20).
Proof.
  unfold closes. split; intros H.
  - apply orb_true_iff in H as [H | H].
    + apply andb_true_iff in H as [H _]. now apply Nat.leb_le in H.
    + apply Nat.leb_le in H. lia.
  - apply orb_false_iff in H as [_ H]. now apply Nat.leb_gt in H.
Qed.

Lemma reseg_groups_sizes ws : forall cand,
  List.length cand < 20 ->
  Forall (fun g => 1 <= List.length g <= 20) (reseg_groups cand ws) /\
  all_but_last (fun g => 15 <= List.length g) (reseg_groups cand ws).
Proof.
  induction ws as [|w rest IH]; intros cand Hc; cbn [reseg_groups].
  - destruct cand as [|x cand]; cbn [Chapters.nonempty].
    + split; [constructor | intros [|i] x H; discriminate H].
    + split; [constructor; [cbn [List.length] in *; lia | constructor]|].
      intros [|i] y H Hi; cbn [List.length] in Hi; lia.
  - assert (Hlen : List.length (cand ++ [w]) = S (List.length cand))
      by (rewrite length_app; cbn [List.length]; lia).
    destruct (closes_bounds (List.length (cand ++ [w])) (hd_error rest)) as [Hyes Hno].
    destruct (closes _ _).
    + destruct (IH [] ltac:(cbn [List.length]; lia)) as [Hall Hbut].
      split; [constructor; [lia | exact Hall]|].
      intros [|i] g Hg Hi; cbn [nth_error List.length] in Hg, Hi.
      * injection Hg as <-. now apply Hyes.
      * apply (Hbut i g Hg). lia.
    + apply IH. specialize (Hno eq_refl). lia.
Qed.

Lemma map_join_words G :
  Forall (fun w => is_word w = true) (List.concat G) ->
  map Py.split_ws (map (Py.join " ") G) = G.
Proof.
  induction G as [|g G IH]; cbn [List.concat map]; intros H; [reflexivity|].
  apply Forall_app in H as [Hg HG]. now rewrite split_ws_join, IH.
Qed.

Lemma flat_map_concat_map {A B : Type} (f : A -> list B) l :
  flat_map f l = List.concat (map f l).
Proof. induction l as [|x l IH]; cbn [flat_map map List.concat]; congruence. Qed.

(** X16: the re-segmentation of a text without punctuation keeps every
    word, in order; every sentence it makes has at least one word and at
    most 20, and every sentence but the last has at least 15. *)
Theorem resegment_keeps_words (full_text : string) :
  exists sentences,
    resegment full_text = Ok sentences /\
    flat_map Py.split_ws sentences = Py.split_ws full_text /\
    Forall (fun s => 1 <= List.length (Py.split_ws s) <= 20) sentences /\
    all_but_last (fun s => 15 <= List.length (Py.split_ws s)) sentences.
Proof.
  exists (reseg_spec [] (Py.split_ws full_text)). split; [apply resegment_spec|].
  rewrite reseg_spec_groups.
  pose proof (split_ws_words full_text) as Hw.
  assert (HG : map Py.split_ws (map (Py.join " ") (reseg_groups [] (Py.split_ws full_text)))
               = reseg_groups [] (Py.split_ws full_text)).
  { apply map_join_words. now rewrite reseg_groups_concat. }
  destruct (reseg_groups_sizes (Py.split_ws full_text) [] ltac:(cbn [List.length]; lia))
    as [Hall Hbut].
  split; [|split].
  - rewrite flat_map_concat_map, HG. apply reseg_groups_concat.
  - rewrite <- HG in Hall. rewrite Forall_map in Hall. exact Hall.
  - intros i s Hs Hi. rewrite length_map in Hi.
    apply (Hbut i (Py.split_ws s)); [|exact Hi].
    rewrite <- HG at 1. rewrite nth_error_map.
    now rewrite Hs.
Qed.

(** ** The paragraph loop *)

Lemma removelast_snoc {A : Type} (l : list A) x : removelast (l ++ [x]) = l.
Proof. apply removelast_last. Qed.

(** The state of the loop: the paragraphs made so far are the joined groups
    [G], the sentences taken so far are those of [G] and of the current
    paragraph. *)
Lemma para_step_groups G cur sentence :
  groups_ok G -> List.length cur < 4 ->
  exists G' cur',
    para_step (map (Py.join " ") G, cur) sentence = (map (Py.join " ") G', cur') /\
    groups_ok G' /\ List.length cur' < 4 /\
    List.concat G' ++ cur' = List.concat G ++ cur ++ taken [sentence].
Proof.
  intros HG Hcur. unfold para_step, taken. cbn [map filter].
  unfold Py.truthy. destruct (Py.is_empty (Py.strip sentence)) eqn:He; cbn [negb].
  - exists G, cur. now rewrite !app_nil_r.
  - assert (Hlen : List.length (cur ++ [Py.strip sentence]) = S (List.length cur))
      by (rewrite length_app; cbn [List.length]; lia).
    assert (Hclose : exists G' cur',
      (map (Py.join " ") G ++ [Py.join " " (cur ++ [Py.strip sentence])], @nil string)
        = (map (Py.join " ") G', cur') /\
      groups_ok G' /\ List.length cur' < 4 /\
      List.concat G' ++ cur' = List.concat G ++ cur ++ [Py.strip sentence]).
    { exists (G ++ [cur ++ [Py.strip sentence]]), [].
      split; [now rewrite map_app|]. split; [|split].
      - apply Forall_app. split; [exact HG|]. constructor; [lia | constructor].
      - cbn [List.length]. lia.
      - rewrite concat_app. cbn [List.concat]. now rewrite !app_nil_r. }
    destruct (4 <=? List.length (cur ++ [Py.strip sentence]))%nat eqn:E4; [exact Hclose|].
    destruct ((500 <? String.length (Py.join " " (cur ++ [Py.strip sentence])))%nat
              && (2 <=? List.length (cur ++ [Py.strip sentence]))%nat); [exact Hclose|].
    apply Nat.leb_gt in E4.
    destruct (starts_with_marker (Py.strip sentence)).
    + destruct (1 <? List.length (cur ++ [Py.strip sentence]))%nat eqn:E1.
      * rewrite removelast_snoc. apply Nat.ltb_lt in E1.
        destruct cur as [|x cur]; [cbn [List.length app] in E1; lia|].
        cbn [Chapters.nonempty].
        exists (G ++ [x :: cur]), [Py.strip sentence].
        split; [now rewrite map_app|]. split; [|split].
        -- apply Forall_app. split; [exact HG|].
           constructor; [cbn [List.length] in *; lia | constructor].
        -- cbn [List.length]. lia.
        -- rewrite concat_app. cbn [List.concat]. now rewrite !app_nil_r, <- !app_assoc.
      * exists G, (cur ++ [Py.strip sentence]).
        split; [reflexivity|]. split; [exact HG|]. split; [lia|]. reflexivity.
    + exists G, (cur ++ [Py.strip sentence]).
      split; [reflexivity|]. split; [exact HG|]. split; [lia|]. reflexivity.
Qed.

Lemma taken_cons s ss : taken (s :: ss) = taken [s] ++ taken ss.
Proof.
  unfold taken. cbn [map filter]. destruct (Py.truthy (Py.strip s)); reflexivity.
Qed.

Lemma para_loop_groups ss : forall G cur,
  groups_ok G -> List.length cur < 4 ->
  exists G' cur',
    fold_left para_step ss (map (Py.join " ") G, cur) = (map (Py.join " ") G', cur') /\
    groups_ok G' /\ List.length cur' < 4 /\
    List.concat G' ++ cur' = List.concat G ++ cur ++ taken ss.
Proof.
  induction ss as [|s ss IH]; intros G cur HG Hcur; cbn [fold_left].
  - exists G, cur. unfold taken. cbn. now rewrite app_nil_r.
  - destruct (para_step_groups G cur s HG Hcur) as (G1 & cur1 & -> & HG1 & Hc1 & E1).
    destruct (IH G1 cur1 HG1 Hc1) as (G2 & cur2 & -> & HG2 & Hc2 & E2).
    exists G2, cur2. split; [reflexivity|]. split; [exact HG2|]. split; [exact Hc2|].
    rewrite E2, taken_cons, app_assoc, E1, <- !app_assoc. reflexivity.
Qed.

(** X17: the paragraph loop cuts the sentences it takes (trimmed, the
    empty ones left out) into consecutive groups of one to four sentences,
    and each paragraph is the sentences of one group joined by single
    spaces: no sentence is lost, repeated or moved. *)
Theorem paragraphs_partition (sentences : list string) :
  exists groups,
    paragraphs_of sentences = map (Py.join " ") groups /\
    List.concat groups = taken sentences /\
    Forall (fun g => 1 <= List.length g <= 4) groups.
Proof.
  unfold paragraphs_of.
  destruct (para_loop_groups sentences [] [] ltac:(constructor) ltac:(cbn; lia))
    as (G & cur & H & HG & Hc & E).
  cbn [map] in H. rewrite H. cbn [List.concat app] in E.
  destruct cur as [|x cur]; cbn [Chapters.nonempty].
  - exists G. rewrite app_nil_r in E. now split.
  - exists (G ++ [x :: cur]). split; [now rewrite map_app|]. split.
    + rewrite concat_app. cbn [List.concat]. now rewrite app_nil_r.
    + apply Forall_app. split; [exact HG|].
      constructor; [cbn [List.length] in *; lia | constructor].
Qed.

End ParagraphsFacts.

Section CleaningFacts.
Local Open Scope nat_scope.
Local Open Scope string_scope.
Local Open Scope list_scope.

(** ** Lines *)

Lemma prefix_nl c s : prefix nl (String c s) = Ascii.eqb c Re.newline.
Proof.
  change (prefix nl (String c s)) with (if ascii_dec Re.newline c then prefix "" s else false).
  destruct (ascii_dec Re.newline c) as [<- | Hne].
  - now destruct s.
  - symmetry. apply Ascii.eqb_neq. congruence.
Qed.

Lemma split_nl_last a cur :
  lacks Re.newline a = true -> Py.split_from nl 0 cur a = [(cur ++ a)%string].
Proof.
  revert cur. induction a as [|c a IH]; intros cur H.
  - simpl. now rewrite append_nil_r.
  - simpl in H. apply andb_true_iff in H as [Hc Ha].
    cbn [Py.split_from]. rewrite prefix_nl.
    apply negb_true_iff in Hc. rewrite Hc.
    rewrite (IH _ Ha), append_assoc. reflexivity.
Qed.

Lemma split_nl_app a cur t :
  lacks Re.newline a = true ->
  Py.split_from nl 0 cur (a ++ String Re.newline t)
  = (cur ++ a)%string :: Py.split_from nl 0 "" t.
Proof.
  revert cur. induction a as [|c a IH]; intros cur H.
  - cbn [append Py.split_from]. rewrite prefix_nl, append_nil_r.
    change (Ascii.eqb Re.newline Re.newline) with true. reflexivity.
  - simpl in H. apply andb_true_iff in H as [Hc Ha].
    cbn [Py.split_from append]. rewrite prefix_nl.
    apply negb_true_iff in Hc. rewrite Hc.
    rewrite (IH _ Ha), append_assoc. reflexivity.
Qed.

(** ** The words of a line and the line they make *)

Lemma word_lacks_nl w : is_word w = true -> lacks Re.newline w = true.
Proof.
  unfold is_word, lacks. intros H. apply andb_true_iff in H as [_ H].
  revert H. apply all_str_weaken. intros c Hc.
  destruct (Ascii.eqb_spec c Re.newline) as [-> |]; [discriminate Hc | reflexivity].
Qed.

Lemma join_cons2 (sep x y : string) l :
  Py.join sep (x :: y :: l) = (x ++ sep ++ Py.join sep (y :: l))%string.
Proof. reflexivity. Qed.

Lemma join_lacks_nl ws :
  Forall (fun w => is_word w = true) ws -> lacks Re.newline (Py.join " " ws) = true.
Proof.
  induction 1 as [|w ws Hw Hws IH]; [reflexivity|].
  destruct ws as [|w2 ws]; [now apply word_lacks_nl|].
  rewrite join_cons2. pose proof (word_lacks_nl w Hw) as Hwl.
  unfold lacks in *. rewrite all_str_app, Hwl. cbn [append Py.all_str andb]. exact IH.
Qed.

Lemma word_first w :
  is_word w = true -> exists c x, w = String c x /\ Py.isspace c = false.
Proof.
  unfold is_word. intros H. apply andb_true_iff in H as [Hne Hall].
  destruct w as [|c x]; [discriminate Hne|]. exists c, x. split; [reflexivity|].
  cbn [Py.all_str] in Hall. apply andb_true_iff in Hall as [Hc _].
  now apply negb_true_iff in Hc.
Qed.

Lemma word_last w :
  is_word w = true -> exists d, Py.last_char w = Some d /\ Py.isspace d = false.
Proof.
  intros H. destruct (word_first w H) as (c & x & -> & _).
  destruct (last_char_cons c x) as [d Hd]. exists d. split; [exact Hd|].
  unfold is_word in H. apply andb_true_iff in H as [_ Hall].
  pose proof (last_char_all _ _ _ Hall Hd) as Hn. now apply negb_true_iff in Hn.
Qed.

Lemma join_last ws w :
  Forall (fun w => is_word w = true) (w :: ws) ->
  exists d, Py.last_char (Py.join " " (w :: ws)) = Some d /\ Py.isspace d = false.
Proof.
  revert w. induction ws as [|w2 ws IH]; intros w H.
  - apply word_last. now inversion H.
  - inversion H as [|? ? Hw Hrest]; subst.
    destruct (IH w2 Hrest) as (d & Hd & Hs). exists d. split; [|exact Hs].
    rewrite join_cons2. cbn [append]. rewrite last_char_app.
    destruct (word_first w2 ltac:(now inversion Hrest)) as (c & x & E & _).
    destruct ws as [|w3 ws].
    + cbn [Py.join String.concat] in *. rewrite E in *. exact Hd.
    + rewrite join_cons2 in *. rewrite E in *. exact Hd.
Qed.

Lemma join_strip ws :
  Forall (fun w => is_word w = true) ws -> Py.strip (Py.join " " ws) = Py.join " " ws.
Proof.
  intros H. destruct ws as [|w ws]; [reflexivity|].
  destruct (join_last ws w H) as (d & Hd & Hs).
  destruct (word_first w ltac:(now inversion H)) as (c & x & E & Hc).
  unfold Py.strip.
  assert (Hl : Py.lstrip (Py.join " " (w :: ws)) = Py.join " " (w :: ws)).
  { destruct ws as [|w2 ws]; [cbn [Py.join String.concat] | rewrite join_cons2];
      rewrite E; now apply lstrip_no_space. }
  rewrite Hl. now apply (rstrip_last _ d).
Qed.

Lemma split_ws_from_head s : forall cur,
  Py.is_empty cur = false ->
  exists w rest, Py.split_ws_from cur s = (cur ++ w)%string :: rest.
Proof.
  induction s as [|c s IH]; intros cur Hcur; cbn [Py.split_ws_from]; rewrite ?Hcur.
  - exists ""%string, []. now rewrite append_nil_r.
  - destruct (Py.isspace c).
    + exists ""%string. eexists. now rewrite append_nil_r.
    + destruct (IH (cur ++ String c "")%string) as (w & rest & E).
      { destruct cur; [discriminate Hcur | reflexivity]. }
      exists (String c w), rest. rewrite E, append_assoc. reflexivity.
Qed.

Lemma startswith_char p c x : Py.startswith (String p "") (String c x) = Ascii.eqb c p.
Proof.
  change (Py.startswith (String p "") (String c x))
    with (if ascii_dec p c then prefix "" x else false).
  destruct (ascii_dec p c) as [<- | Hne].
  - destruct x; now rewrite Ascii.eqb_refl.
  - symmetry. apply Ascii.eqb_neq. congruence.
Qed.

Lemma join_head sep c w rest :
  exists x, Py.join sep (String c w :: rest) = String c x.
Proof.
  destruct rest as [|y rest]; [now exists w|].
  rewrite join_cons2. cbn [append]. now eexists.
Qed.

(** What [clean_line] keeps is tidy, is not empty and has no newline. *)
Lemma clean_line_tidy line c :
  In c (clean_line line) ->
  tidy c /\ Py.is_empty c = false /\ lacks Re.newline c = true.
Proof.
  unfold clean_line.
  destruct (Py.truthy (Py.strip line) && negb (Py.startswith "[" (Py.strip line))
            && negb (Py.startswith "(" (Py.strip line))) eqn:E; [|intros []].
  intros [<- | []].
  apply andb_true_iff in E as [E Hp]. apply andb_true_iff in E as [Hne Hb].
  apply negb_true_iff in Hp, Hb.
  pose proof (split_ws_words (Py.strip line)) as Hw.
  destruct (Py.strip line) as [|a s] eqn:Es; [discriminate Hne|].
  assert (Ha : Py.isspace a = false).
  { unfold Py.strip in Es. destruct (lstrip_cases line) as [[H0 _] | (c & x & Hl & Hc)].
    - rewrite H0 in Es. discriminate Es.
    - rewrite Hl in Es. cbn [Py.rstrip] in Es.
      destruct (Py.rstrip x); [rewrite Hc in Es|]; injection Es as <- _; exact Hc. }
  assert (Hhead : exists w rest, Py.split_ws (String a s) = String a w :: rest).
  { unfold Py.split_ws. cbn [Py.split_ws_from]. rewrite Ha.
    destruct (split_ws_from_head s (String a "") eq_refl) as (w & rest & E).
    exists w, rest. exact E. }
  destruct Hhead as (w & rest & Hsplit).
  destruct (join_head " " a w rest) as [x Hx].
  rewrite startswith_char in Hb, Hp.
  split; [|split].
  - unfold tidy. rewrite (join_strip _ Hw), (split_ws_join _ Hw).
    rewrite Hsplit, Hx, !startswith_char. now rewrite Hb, Hp.
  - now rewrite Hsplit, Hx.
  - now apply join_lacks_nl.
Qed.

Lemma tidy_clean_line c :
  tidy c -> Py.is_empty c = false -> clean_line c = [c].
Proof.
  intros (Hb & Hp & Hs & Hj) Hne. unfold clean_line. rewrite Hs, Hb, Hp, Hj.
  unfold Py.truthy. now rewrite Hne.
Qed.

Lemma tidy_empty : tidy "".
Proof. repeat split. Qed.

(** ** The loop *)

Lemma fold_clean lines : forall cleaned,
  fold_left
    (fun cleaned line =>
       let line := Py.strip line in
       if Py.truthy line && negb (Py.startswith "[" line) && negb (Py.startswith "(" line)
       then cleaned ++ [Py.join " " (Py.split_ws line)]
       else cleaned)
    lines cleaned
  = cleaned ++ flat_map clean_line lines.
Proof.
  induction lines as [|line lines IH]; intros cleaned; cbn [fold_left flat_map].
  - now rewrite app_nil_r.
  - rewrite IH. unfold clean_line. cbv zeta.
    destruct (Py.truthy _ && _ && _); [now rewrite <- app_assoc | reflexivity].
Qed.

Lemma clean_transcript_lines transcript :
  _clean_transcript transcript
  = Py.join SimpleFormatter.blank_line (flat_map clean_line (Py.split nl transcript)).
Proof.
  unfold _clean_transcript. destruct transcript as [|c s]; [reflexivity|].
  cbn [Py.is_empty]. now rewrite fold_clean.
Qed.

Lemma cleaned_good lines : Forall good_line (flat_map clean_line lines).
Proof.
  apply Forall_forall. intros c Hin. apply in_flat_map in Hin as (line & _ & Hc).
  now apply (clean_line_tidy line).
Qed.

Lemma blank_join c c2 cs :
  Py.join SimpleFormatter.blank_line (c :: c2 :: cs)
  = (c ++ String Re.newline (String Re.newline
            (Py.join SimpleFormatter.blank_line (c2 :: cs))))%string.
Proof. reflexivity. Qed.

Lemma split_blank_join cs :
  Forall good_line cs ->
  flat_map clean_line (Py.split nl (Py.join SimpleFormatter.blank_line cs)) = cs /\
  Forall (fun line => line = ""%string \/ In line cs)
         (Py.split nl (Py.join SimpleFormatter.blank_line cs)).
Proof.
  unfold Py.split.
  induction 1 as [|c cs (Ht & Hne & Hl) Hcs IH].
  - split; [reflexivity|]. constructor; [now left | constructor].
  - destruct cs as [|c2 cs].
    + cbn [Py.join String.concat]. rewrite (split_nl_last c "" Hl). cbn [append flat_map].
      rewrite (tidy_clean_line c Ht Hne). split; [reflexivity|].
      constructor; [right; now left | constructor].
    + rewrite blank_join, (split_nl_app c "" _ Hl). cbn [append flat_map].
      rewrite (tidy_clean_line c Ht Hne).
      change (Py.split_from nl 0 "" (String Re.newline ?t))
        with (Py.split_from nl 0 "" ("" ++ String Re.newline t)).
      rewrite (split_nl_app "" "" _ eq_refl). cbn [append flat_map].
      destruct IH as [IH1 IH2]. split.
      * change (clean_line "") with (@nil string). cbn [app]. now rewrite IH1.
      * constructor; [right; now left|]. constructor; [now left|].
        revert IH2. apply Forall_impl. intros line [-> | Hin]; [now left | right; now right].
Qed.

Lemma join_blank_empty cs :
  Forall good_line cs -> Py.join SimpleFormatter.blank_line cs = ""%string -> cs = [].
Proof.
  intros H E. destruct cs as [|c cs]; [reflexivity|]. exfalso.
  inversion H as [|? ? (_ & Hne & _) _]; subst.
  destruct c as [|a x]; [discriminate Hne|].
  destruct cs; [discriminate E | rewrite blank_join in E; discriminate E].
Qed.

(** X18: [_clean_transcript] changes nothing in a text it has already
    cleaned.  In the text it returns no line starts with a square bracket
    or a parenthesis, no line has whitespace in front of it or after it,
    and the words of a line are separated by single spaces; the empty
    text is returned as it is. *)
Theorem clean_transcript_idempotent (transcript : string) :
  _clean_transcript (_clean_transcript transcript) = _clean_transcript transcript /\
  Forall tidy (Py.split nl (_clean_transcript transcript)) /\
  _clean_transcript "" = ""%string.
Proof.
  pose proof (cleaned_good (Py.split nl transcript)) as Hgood.
  destruct (split_blank_join _ Hgood) as [Hsplit Hlines].
  split; [|split; [|reflexivity]].
  - rewrite (clean_transcript_lines transcript).
    rewrite clean_transcript_lines, Hsplit. reflexivity.
  - rewrite clean_transcript_lines. revert Hlines. apply Forall_impl.
    intros line [-> | Hin]; [apply tidy_empty|].
    exact (proj1 (proj1 (Forall_forall _ _) Hgood line Hin)).
Qed.

End CleaningFacts.

Section CapturesFacts.
Import Re.
Local Open Scope nat_scope.
Local Open Scope string_scope.
Local Open Scope list_scope.

(** ** What a pattern consumes *)

Lemma greedy_all_consumes fl cs s : forall p pv cp st1,
  In st1 (greedy_all fl cs p pv cp s) ->
  exists u, s = (u ++ rest st1)%string /\ pos st1 = p + String.length u /\
            Py.all_str (test fl cs) u = true /\ caps st1 = cp.
Proof.
  induction s as [|c s IH]; intros p pv cp st1 Hin; cbn [greedy_all] in Hin.
  - destruct Hin as [<- | []]. exists ""%string. cbn. repeat split; lia.
  - destruct (test fl cs c) eqn:E.
    + apply in_app_or in Hin as [Hin | [<- | []]].
      * destruct (IH _ _ _ _ Hin) as (u & Hu & Hp & Hall & Hc).
        exists (String c u). cbn [append Py.all_str String.length]. rewrite E, Hall.
        repeat split; [now rewrite <- Hu | lia | exact Hc].
      * exists ""%string. cbn. repeat split; lia.
    + destruct Hin as [<- | []]. exists ""%string. cbn. repeat split; lia.
Qed.

Lemma lazy_all_consumes fl cs s : forall p pv cp st1,
  In st1 (lazy_all fl cs p pv cp s) ->
  exists u, s = (u ++ rest st1)%string /\ pos st1 = p + String.length u /\
            Py.all_str (test fl cs) u = true /\ caps st1 = cp.
Proof.
  induction s as [|c s IH]; intros p pv cp st1 Hin; cbn [lazy_all] in Hin.
  - destruct Hin as [<- | []]. exists ""%string. cbn. repeat split; lia.
  - destruct Hin as [<- | Hin]; [exists ""%string; cbn; repeat split; lia|].
    destruct (test fl cs c) eqn:E; [|contradiction].
    destruct (IH _ _ _ _ Hin) as (u & Hu & Hp & Hall & Hc).
    exists (String c u). cbn [append Py.all_str String.length]. rewrite E, Hall.
    repeat split; [now rewrite <- Hu | lia | exact Hc].
Qed.

Lemma run_all_consumes fl r : forall st st1,
  In st1 (run_all fl r st) ->
  exists u, rest st = (u ++ rest st1)%string /\ pos st1 = pos st + String.length u /\
            consumes fl r u.
Proof.
  induction r; intros st st1 Hin; cbn [run_all consumes] in *.
  - destruct Hin as [<- | []]. exists ""%string. cbn. repeat split; lia.
  - destruct (one_all_ahead _ _ _ _ Hin) as (c & Hr & Hp & Ht & _).
    exists (String c ""). cbn. repeat split; [exact Hr | lia | now exists c].
  - apply in_flat_map in Hin as (st2 & H1 & H2).
    destruct (IHr1 _ _ H1) as (u1 & Hu1 & Hp1 & Hc1).
    destruct (IHr2 _ _ H2) as (u2 & Hu2 & Hp2 & Hc2).
    exists (u1 ++ u2)%string. rewrite length_append, append_assoc, <- Hu2.
    repeat split; [exact Hu1 | lia | now exists u1, u2].
  - apply in_app_or in Hin as [Hin | Hin].
    + destruct (IHr1 _ _ Hin) as (u & Hu & Hp & Hc). exists u. repeat split; auto.
    + destruct (IHr2 _ _ Hin) as (u & Hu & Hp & Hc). exists u. repeat split; auto.
  - apply in_app_or in Hin as [Hin | [<- | []]].
    + destruct (IHr _ _ Hin) as (u & Hu & Hp & Hc). exists u. repeat split; auto.
    + exists ""%string. cbn. repeat split; [lia | now left].
  - destruct (greedy_all_consumes _ _ _ _ _ _ _ Hin) as (u & Hu & Hp & Hall & _).
    exists u. repeat split; assumption.
  - apply in_flat_map in Hin as (st2 & H1 & H2).
    destruct (one_all_ahead _ _ _ _ H1) as (c & Hr & Hp & Ht & _).
    destruct (greedy_all_consumes _ _ _ _ _ _ _ H2) as (u & Hu & Hp2 & Hall & _).
    exists (String c u). cbn [append String.length Py.all_str]. rewrite Ht, Hall, Hr, Hu.
    repeat split; [lia | discriminate].
  - destruct (lazy_all_consumes _ _ _ _ _ _ _ Hin) as (u & Hu & Hp & Hall & _).
    exists u. repeat split; assumption.
  - apply in_flat_map in Hin as (st2 & H1 & H2).
    destruct (one_all_ahead _ _ _ _ H1) as (c & Hr & Hp & Ht & _).
    destruct (lazy_all_consumes _ _ _ _ _ _ _ H2) as (u & Hu & Hp2 & Hall & _).
    exists (String c u). cbn [append String.length Py.all_str]. rewrite Ht, Hall, Hr, Hu.
    repeat split; [lia | discriminate].
  - apply in_map_iff in Hin as (st2 & <- & H2).
    destruct (IHr _ _ H2) as (u & Hu & Hp & Hc). exists u. repeat split; assumption.
  - destruct (at_bol fl st); [|contradiction]. destruct Hin as [<- | []].
    exists ""%string. cbn. repeat split; lia.
  - destruct (at_eol fl st); [|contradiction]. destruct Hin as [<- | []].
    exists ""%string. cbn. repeat split; lia.
  - destruct (run_all fl r st) as [|st2 l]; [contradiction|]. destruct Hin as [<- | []].
    exists ""%string. cbn. repeat split; lia.
  - destruct (prev st) as [c|]; [|contradiction].
    destruct (test fl cs c); [|contradiction]. destruct Hin as [<- | []].
    exists ""%string. cbn. repeat split; lia.
Qed.

(** ** The groups a pattern leaves alone *)

Lemma run_all_frame fl n r : forall st st1,
  In st1 (run_all fl r st) -> ~ In n (groups_of r) ->
  assoc n (caps st1) = assoc n (caps st).
Proof.
  induction r; intros st st1 Hin Hn; cbn [run_all groups_of] in *.
  - destruct Hin as [<- | []]. reflexivity.
  - destruct (one_all_ahead _ _ _ _ Hin) as (c & _ & _ & _ & Hc & _). now rewrite Hc.
  - apply in_flat_map in Hin as (st2 & H1 & H2).
    rewrite (IHr2 _ _ H2), (IHr1 _ _ H1); [reflexivity | |];
      intros H; apply Hn; apply in_or_app; tauto.
  - apply in_app_or in Hin as [Hin | Hin]; [apply (IHr1 _ _ Hin) | apply (IHr2 _ _ Hin)];
      intros H; apply Hn; apply in_or_app; tauto.
  - apply in_app_or in Hin as [Hin | [<- | []]]; [now apply IHr | reflexivity].
  - destruct (greedy_all_consumes _ _ _ _ _ _ _ Hin) as (_ & _ & _ & _ & Hc). now rewrite Hc.
  - apply in_flat_map in Hin as (st2 & H1 & H2).
    destruct (one_all_ahead _ _ _ _ H1) as (c & _ & _ & _ & Hc & _).
    destruct (greedy_all_consumes _ _ _ _ _ _ _ H2) as (_ & _ & _ & _ & Hc2).
    now rewrite Hc2, Hc.
  - destruct (lazy_all_consumes _ _ _ _ _ _ _ Hin) as (_ & _ & _ & _ & Hc). now rewrite Hc.
  - apply in_flat_map in Hin as (st2 & H1 & H2).
    destruct (one_all_ahead _ _ _ _ H1) as (c & _ & _ & _ & Hc & _).
    destruct (lazy_all_consumes _ _ _ _ _ _ _ H2) as (_ & _ & _ & _ & Hc2).
    now rewrite Hc2, Hc.
  - apply in_map_iff in Hin as (st2 & <- & H2). cbn [set_cap caps assoc].
    destruct (Nat.eqb_spec n n0) as [-> |Hne]; [exfalso; apply Hn; now left|].
    apply (IHr _ _ H2). intros H. apply Hn. now right.
  - destruct (at_bol fl st); [|contradiction]. destruct Hin as [<- | []]. reflexivity.
  - destruct (at_eol fl st); [|contradiction]. destruct Hin as [<- | []]. reflexivity.
  - destruct (run_all fl r st) as [|st2 l] eqn:E; [contradiction|]. destruct Hin as [<- | []].
    cbn [caps]. apply (IHr st st2); [rewrite E; now left | exact Hn].
  - destruct (prev st) as [c|]; [|contradiction].
    destruct (test fl cs c); [|contradiction]. destruct Hin as [<- | []]. reflexivity.
Qed.

(** The first group of a pattern that starts with it. *)
Lemma first_group_consumes fl r1 r2 s m :
  ~ In 1 (groups_of r2) ->
  match_in fl (Seq (Group 1 r1) r2) s m ->
  exists u, group s m 1 = Some u /\ consumes fl r1 u.
Proof.
  intros Hn (w0 & pv & t & -> & Hm).
  pose proof (try_at_in _ _ _ _ _ _ Hm) as Hin. cbn [run_all] in Hin.
  apply in_flat_map in Hin as (st2 & H1 & H2).
  apply in_map_iff in H1 as (st1 & <- & H1).
  destruct (run_all_consumes _ _ _ _ H1) as (u & Hu & Hp & Hc).
  cbn [rest pos] in Hu, Hp.
  pose proof (run_all_frame fl 1 r2 _ _ H2 Hn) as Hf.
  cbn [set_cap caps assoc Nat.eqb pos] in Hf.
  exists u. split; [|exact Hc]. unfold group. rewrite Hf. f_equal.
  rewrite Hp, Hu. replace (String.length w0 + String.length u - String.length w0)
    with (String.length u) by lia.
  rewrite substring_skip. apply substring_prefix.
Qed.

(** ** The matches of [finditer] *)

Lemma finditer_from_in fl r s m t : forall w0 k pv,
  s = (w0 ++ t)%string ->
  In m (finditer_from fl r k (String.length w0) pv t) -> match_in fl r s m.
Proof.
  induction t as [|c t IH]; intros w0 k pv Hs Hin.
  - destruct k; cbn [finditer_from] in Hin; [|contradiction].
    destruct (try_at fl r (String.length w0) pv "") as [m0|] eqn:E; [|contradiction].
    destruct Hin as [<- | []]. now exists w0, pv, ""%string.
  - assert (Hs' : s = ((w0 ++ String c "") ++ t)%string)
      by (rewrite append_assoc; exact Hs).
    assert (Hl : String.length (w0 ++ String c "") = S (String.length w0))
      by (rewrite length_append; cbn; lia).
    destruct k as [|k]; cbn [finditer_from] in Hin.
    + destruct (try_at fl r (String.length w0) pv (String c t)) as [m0|] eqn:E.
      * destruct Hin as [<- | Hin]; [now exists w0, pv, (String c t)|].
        rewrite <- Hl in Hin. exact (IH _ _ _ Hs' Hin).
      * rewrite <- Hl in Hin. exact (IH _ _ _ Hs' Hin).
    + rewrite <- Hl in Hin. exact (IH _ _ _ Hs' Hin).
Qed.

Lemma finditer_in fl r s m : In m (finditer fl r s) -> match_in fl r s m.
Proof. apply (finditer_from_in fl r s m s ""%string 0 None). reflexivity. Qed.

(** ** The timestamps of the chapter patterns *)

Lemma digit_icase fl c : test fl digit c = Py.isdigit c.
Proof.
  unfold test, digit. destruct (ignorecase fl); [|reflexivity].
  each_char c; reflexivity.
Qed.

Lemma consumes_digit fl u :
  consumes fl (Chr digit) u -> exists d, u = String d "" /\ Py.isdigit d = true.
Proof. intros (c & -> & H). rewrite digit_icase in H. now exists c. Qed.

Lemma consumes_colon fl u : consumes fl (Chr (CLit ":")) u -> u = ":"%string.
Proof.
  intros (c & -> & H). unfold test in H.
  assert (E : c = ":"%char).
  { destruct (ignorecase fl); revert H; each_char c; vm_compute; intros H;
      first [reflexivity | discriminate H]. }
  now rewrite E.
Qed.

Lemma digit_facts d :
  Py.isdigit d = true -> Ascii.eqb d ":" = false /\ Py.isspace d = false.
Proof.
  intros H. split; [|now apply digit_not_space].
  apply negb_true_iff. now apply digit_not_colon.
Qed.

Ltac stamp_digits :=
  repeat match goal with
  | H : exists c, _ /\ test ?fl digit c = true |- _ =>
      let d := fresh "d" in let Hd := fresh "Hd" in let Hc := fresh "Hc" in
      let Hs := fresh "Hs" in
      apply (consumes_digit fl) in H; destruct H as (d & -> & Hd);
      destruct (digit_facts d Hd) as [Hc Hs]
  | H : exists c, _ /\ test ?fl (CLit ":") c = true |- _ =>
      apply (consumes_colon fl) in H; subst
  end.

Ltac stamp_fields :=
  repeat (cbn [Py.split_from append String.length Nat.sub];
          rewrite ?prefix_colon;
          repeat match goal with
          | H : Ascii.eqb ?d ":" = false |- context [Ascii.eqb ?d ":"] => rewrite H
          end;
          change (Ascii.eqb ":" ":") with true; cbv iota).

Lemma stamp_valid fl u :
  consumes fl (Chapters.short_stamp
               +++ Opt (Chr (CLit ":") +++ Chr digit +++ Chr digit))%re u ->
  valid_timestamp u = true /\ Py.strip u = u.
Proof.
  unfold Chapters.short_stamp. cbn [consumes].
  intros (u1 & u2 & -> & (x1 & r1 & -> & H1 & (x2 & r2 & -> & H2 & (x3 & r3 & -> & H3
              & (x4 & x5 & -> & H4 & H5)))) & H6).
  destruct H2 as [-> | H2];
    (destruct H6 as [-> | (y1 & r4 & -> & H7 & (y2 & y3 & -> & H8 & H9))]);
    stamp_digits; cbn [append].
  all: split;
    [ unfold valid_timestamp, Py.split; stamp_fields;
      cbn [List.length Nat.eqb orb andb forallb is_field Py.truthy Py.is_empty negb Py.all_str];
      repeat match goal with
             | H : Py.isdigit ?d = true |- context [Py.isdigit ?d] => rewrite H
             end; reflexivity
    | unfold Py.strip; cbn [Py.lstrip];
      repeat match goal with
             | H : Py.isspace ?d = false |- context [Py.isspace ?d] => rewrite H
             end; cbv iota;
      apply rstrip_no_space; cbn [Py.all_str];
      repeat match goal with
             | H : Py.isspace ?d = false |- context [Py.isspace ?d] => rewrite H
             end; reflexivity ].
Qed.

(** The three patterns start with the group of the timestamp, and have no
    other group 1. *)
Lemma patterns_start_with_stamp p :
  In p Chapters.patterns ->
  exists r2, p = Seq Chapters.stamp_group r2 /\ ~ In 1 (groups_of r2).
Proof.
  intros [<- | [<- | [<- | []]]]; eexists; (split; [reflexivity|]);
    cbn; intuition discriminate.
Qed.

Lemma match_timestamp_parses p text m :
  In p Chapters.patterns -> match_in MULTILINE_IGNORECASE p text m ->
  exists u v, group text m 1 = Some u /\
              Timestamp._parse_timestamp (Py.strip u) = Some v /\ (0 <= v)%Z.
Proof.
  intros Hp Hm. destruct (patterns_start_with_stamp p Hp) as (r2 & -> & Hn).
  unfold Chapters.stamp_group in Hm.
  destruct (first_group_consumes _ _ _ _ _ Hn Hm) as (u & Hg & Hc).
  destruct (stamp_valid _ _ Hc) as [Hv Hs].
  destruct (valid_timestamp_value u Hv) as (v & Hparse & Hpos).
  exists u, v. rewrite Hs. now split.
Qed.

Import Timestamp Chapters.

Lemma findall2_timestamp p text ts title :
  In p patterns -> In (ts, title) (findall2 MULTILINE_IGNORECASE p text) ->
  exists v, _parse_timestamp (Py.strip ts) = Some v /\ (0 <= v)%Z.
Proof.
  intros Hp Hin. unfold findall2 in Hin. apply in_map_iff in Hin as (m & E & Hm).
  apply finditer_in in Hm.
  destruct (match_timestamp_parses p text m Hp Hm) as (u & v & Hg & Hparse & Hpos).
  unfold group_or_empty in E. rewrite Hg in E. injection E as <- _.
  now exists v.
Qed.

Lemma kept_of_matches p text :
  In p patterns ->
  let ms := findall2 MULTILINE_IGNORECASE p text in
  Forall (fun x => (0 <= snd (fst x))%Z) (kept ms) /\
  List.length (kept ms)
  = List.length (filter (fun m => Py.truthy (clean_title (snd m))) ms).
Proof.
  intros Hp ms.
  assert (H : forall m, In m ms ->
            exists v, _parse_timestamp (Py.strip (fst m)) = Some v /\ (0 <= v)%Z).
  { intros [ts title] Hin. now apply (findall2_timestamp p text ts title). }
  clearbody ms. unfold kept.
  induction ms as [|m ms IH]; [split; [constructor | reflexivity]|].
  destruct (IH (fun m' Hm' => H m' (or_intror Hm'))) as [IH1 IH2].
  destruct (H m (or_introl eq_refl)) as (v & Hv & Hpos).
  cbn [flat_map filter]. unfold kept_match at 1 3. rewrite Hv.
  destruct (Py.truthy (clean_title (snd m))); cbn [app List.length].
  - split; [constructor; [exact Hpos | exact IH1] | now rewrite IH2].
  - split; [exact IH1 | exact IH2].
Qed.

(** X19: the description strategy never skips a match for its timestamp:
    what the group of a pattern captures always parses, to a number that
    is not negative.  So a match is left out only when its cleaned title
    is empty, the chapters of the description are as many as the matches
    with a title, and no chapter starts before 0. *)
Theorem matched_timestamps_parse (text : string) :
  (forall p ts title,
     In p patterns -> In (ts, title) (findall2 MULTILINE_IGNORECASE p text) ->
     exists v, _parse_timestamp (Py.strip ts) = Some v /\ (0 <= v)%Z /\
               kept_match (ts, title)
               = if Py.truthy (clean_title title) then [(clean_title title, v, ts)] else []) /\
  Forall (fun r => (0 <= start_time r)%Z) (_parse_chapters_from_text text) /\
  (_parse_chapters_from_text text = [] \/
   exists p, In p patterns /\
     List.length (_parse_chapters_from_text text)
     = List.length (filter (fun m => Py.truthy (clean_title (snd m)))
                           (findall2 MULTILINE_IGNORECASE p text))).
Proof.
  assert (Hcases : _parse_chapters_from_text text = [] \/
            exists p, In p patterns /\
              _parse_chapters_from_text text
              = chain (kept (findall2 MULTILINE_IGNORECASE p text))).
  { unfold _parse_chapters_from_text. rewrite patterns_loop_first.
    destruct (first_nonempty_in
      (map (fun p => chapters_of_matches (findall2 MULTILINE_IGNORECASE p text)) patterns))
      as [-> | Hin]; [now left|].
    right. apply in_map_iff in Hin as (p & Hp & Hin). exists p. split; [exact Hin|].
    now rewrite <- Hp, chapters_of_matches_chain. }
  split; [|split].
  - intros p ts title Hp Hin.
    destruct (findall2_timestamp p text ts title Hp Hin) as (v & Hv & Hpos).
    exists v. split; [exact Hv|]. split; [exact Hpos|].
    unfold kept_match. cbn [fst snd]. now rewrite Hv.
  - destruct Hcases as [-> | (p & Hp & ->)]; [constructor|].
    destruct (kept_of_matches p text Hp) as [Hk _].
    apply Forall_forall. intros r Hr.
    assert (Hs : In (start_time r)
                    (map start_time (chain (kept (findall2 MULTILINE_IGNORECASE p text)))))
      by (now apply in_map).
    rewrite chain_starts in Hs. apply in_map_iff in Hs as (x & <- & Hx).
    exact (proj1 (Forall_forall _ _) Hk x Hx).
  - destruct Hcases as [H | (p & Hp & H)]; [now left|]. right. exists p. split; [exact Hp|].
    rewrite H, chain_length. exact (proj2 (kept_of_matches p text Hp)).
Qed.

End CapturesFacts.

Section OutputFacts.
Import Re.
Local Open Scope nat_scope.
Local Open Scope string_scope.
Local Open Scope list_scope.

(** ** The pieces between the matches of a pattern *)

Section Pieces.
Variable fl : flags.
Variable r : regex.
Variables q0 q : ascii -> bool.
Variable s : string.
Hypothesis never_empty : forall u, consumes fl r u -> u <> ""%string.
Hypothesis unmatched : forall p pv c t,
  try_at fl r p pv (String c t) = None -> q0 c = true -> q c = true.

Lemma try_at_span p pv t m :
  try_at fl r p pv t = Some m ->
  m_start m = p /\ p < pos (m_end m) <= p + String.length t.
Proof.
  intros Hm. pose proof (try_at_in _ _ _ _ _ _ Hm) as Hin.
  destruct (run_all_consumes _ _ _ _ Hin) as (u & Hu & Hp & Hc).
  cbn [rest pos] in Hu, Hp. pose proof (never_empty u Hc) as Hne.
  unfold try_at in Hm. destruct (run fl r _ _); [|discriminate Hm].
  injection Hm as <-. cbn [m_start m_end] in *. split; [reflexivity|].
  rewrite Hu, length_append. destruct u; [contradiction|]. cbn [String.length] in *. lia.
Qed.

Lemma pieces_all_from t : forall k w1 cur p pv,
  s = (w1 ++ cur ++ t)%string -> p = String.length w1 + String.length cur ->
  Py.all_str q0 t = true -> Py.all_str q cur = true ->
  k <= String.length t -> (0 < k -> cur = ""%string) ->
  Forall (fun piece => Py.all_str q piece = true)
         (pieces s (String.length w1 + k) (finditer_from fl r k p pv t)).
Proof.
  induction t as [|c t IH]; intros k w1 cur p pv Hs Hp Hq0 Hq Hk Hcur.
  - cbn [String.length] in Hk. assert (k = 0) by lia. subst k. cbn [finditer_from].
    destruct (try_at fl r p pv "") as [m|] eqn:E.
    + destruct (try_at_span _ _ _ _ E) as [_ Hspan]. cbn [String.length] in Hspan. lia.
    + cbn [pieces]. constructor; [|constructor].
      rewrite Nat.add_0_r, Hs, !length_append. cbn [String.length].
      replace (String.length w1 + (String.length cur + 0) - String.length w1)
        with (String.length cur) by lia.
      rewrite substring_skip, substring_prefix. exact Hq.
  - cbn [Py.all_str] in Hq0. apply andb_true_iff in Hq0 as [Hc Ht].
    assert (Hs' : s = ((w1 ++ cur ++ String c "") ++ "" ++ t)%string).
    { rewrite Hs, !append_assoc. reflexivity. }
    assert (Hl : String.length (w1 ++ cur ++ String c "") = S p).
    { rewrite !length_append. cbn [String.length]. lia. }
    destruct k as [|k]; cbn [finditer_from].
    + destruct (try_at fl r p pv (String c t)) as [m|] eqn:E.
      * destruct (try_at_span _ _ _ _ E) as [Hstart Hspan]. cbn [String.length] in Hspan.
        cbn [pieces]. constructor.
        -- rewrite Hstart, Nat.add_0_r, Hp.
           replace (String.length w1 + String.length cur - String.length w1)
             with (String.length cur) by lia.
           rewrite Hs, substring_skip, substring_prefix. exact Hq.
        -- remember (pos (m_end m) - p - 1) as k' eqn:Ek.
           replace (pos (m_end m)) with
             (String.length (w1 ++ cur ++ String c "") + k') by lia.
           apply (IH k' _ ""%string); try assumption; try reflexivity;
             [cbn [String.length]; lia | lia].
      * rewrite Nat.add_0_r.
        replace (String.length w1) with (String.length w1 + 0) by lia.
        apply (IH 0 w1 (cur ++ String c "")%string).
        -- rewrite Hs, !append_assoc. reflexivity.
        -- rewrite length_append. cbn [String.length]. lia.
        -- exact Ht.
        -- rewrite all_str_app, Hq. cbn [Py.all_str]. rewrite (unmatched _ _ _ _ E Hc).
           reflexivity.
        -- lia.
        -- lia.
    + pose proof (Hcur ltac:(lia)) as ->. cbn [String.length] in Hk.
      replace (String.length w1 + S k)
        with (String.length (w1 ++ "" ++ String c "") + k)
        by (rewrite !length_append; cbn [String.length]; lia).
      apply (IH k _ ""%string); try reflexivity.
      * rewrite Hs, !append_assoc. reflexivity.
      * rewrite !length_append in *. cbn [String.length] in *. lia.
      * exact Ht.
      * lia.
Qed.

Lemma pieces_all :
  Py.all_str q0 s = true ->
  Forall (fun piece => Py.all_str q piece = true) (pieces s 0 (finditer fl r s)).
Proof.
  intros H0. unfold finditer.
  apply (pieces_all_from s 0 ""%string ""%string 0 None); try reflexivity; try assumption; lia.
Qed.

End Pieces.

Lemma join_all (q : ascii -> bool) sep l :
  Py.all_str q sep = true -> Forall (fun x => Py.all_str q x = true) l ->
  Py.all_str q (Py.join sep l) = true.
Proof.
  intros Hsep. induction 1 as [|x l Hx Hl IH]; [reflexivity|].
  destruct l as [|y l]; [exact Hx|].
  rewrite join_cons2, !all_str_app, Hx, Hsep. exact IH.
Qed.

Lemma sub_all fl r q0 q repl s :
  (forall u, consumes fl r u -> u <> ""%string) ->
  (forall p pv c t, try_at fl r p pv (String c t) = None -> q0 c = true -> q c = true) ->
  Py.all_str q repl = true -> Py.all_str q0 s = true ->
  Py.all_str q (sub fl r repl s) = true.
Proof.
  intros Hne Hun Hrepl Hs. unfold sub. apply join_all; [exact Hrepl|].
  now apply (pieces_all fl r q0 q s Hne Hun).
Qed.

(** ** Patterns of one class *)

Lemma plus_never_empty fl cs u : consumes fl (Plus cs) u -> u <> ""%string.
Proof. now intros [H _]. Qed.

Lemma chr_never_empty fl cs u : consumes fl (Chr cs) u -> u <> ""%string.
Proof. intros (c & -> & _). discriminate. Qed.

Lemma greedy_all_nonnil fl cs s : forall p pv cp, greedy_all fl cs p pv cp s <> [].
Proof.
  destruct s as [|c s]; intros p pv cp; cbn [greedy_all]; [discriminate|].
  destruct (test fl cs c); [|discriminate].
  intros H. apply app_eq_nil in H as [_ H]. discriminate H.
Qed.

Lemma plus_unmatched fl cs p pv c t :
  try_at fl (Plus cs) p pv (String c t) = None -> test fl cs c = false.
Proof.
  rewrite try_at_all. cbn [run_all]. unfold one_all. cbn [rest].
  destruct (test fl cs c); [|reflexivity]. cbn [flat_map pos prev caps].
  rewrite app_nil_r.
  cbn [rest].
  destruct (greedy_all fl cs (S p) (Some c) [] t) eqn:E;
    [now apply greedy_all_nonnil in E | discriminate].
Qed.

Lemma chr_unmatched fl cs p pv c t :
  try_at fl (Chr cs) p pv (String c t) = None -> test fl cs c = false.
Proof.
  rewrite try_at_all. cbn [run_all]. unfold one_all. cbn [rest].
  destruct (test fl cs c); [discriminate | reflexivity].
Qed.

Lemma finditer_from_none fl r (q : ascii -> bool) :
  (forall p pv, try_at fl r p pv "" = None) ->
  (forall p pv c t, q c = true -> try_at fl r p pv (String c t) = None) ->
  forall t p pv, Py.all_str q t = true -> finditer_from fl r 0 p pv t = [].
Proof.
  intros Hnil Hcons. induction t as [|c t IH]; intros p pv Hq; cbn [finditer_from].
  - now rewrite Hnil.
  - cbn [Py.all_str] in Hq. apply andb_true_iff in Hq as [Hc Ht].
    rewrite (Hcons _ _ _ _ Hc). now apply IH.
Qed.

Lemma sub_without_match fl cs repl s :
  Py.all_str (fun c => negb (test fl cs c)) s = true ->
  sub fl (Chr cs) repl s = s /\ sub fl (Plus cs) repl s = s.
Proof.
  intros Hs. unfold sub, finditer. split.
  - rewrite (finditer_from_none fl (Chr cs) (fun c => negb (test fl cs c))); try assumption.
    + cbn [pieces Py.join String.concat]. rewrite Nat.sub_0_r. apply substring_all.
    + intros p pv. now rewrite try_at_all.
    + intros p pv c t Hc. apply negb_true_iff in Hc. rewrite try_at_all. cbn [run_all].
      unfold one_all. cbn [rest]. now rewrite Hc.
  - rewrite (finditer_from_none fl (Plus cs) (fun c => negb (test fl cs c))); try assumption.
    + cbn [pieces Py.join String.concat]. rewrite Nat.sub_0_r. apply substring_all.
    + intros p pv. now rewrite try_at_all.
    + intros p pv c t Hc. apply negb_true_iff in Hc. rewrite try_at_all. cbn [run_all].
      unfold one_all. cbn [rest]. now rewrite Hc.
Qed.

(** ** Trimming and cutting keep the characters *)

Lemma all_substring q s : forall n m,
  Py.all_str q s = true -> Py.all_str q (substring n m s) = true.
Proof.
  induction s as [|c s IH]; intros n m H.
  - destruct n, m; reflexivity.
  - cbn [Py.all_str] in H. apply andb_true_iff in H as [Hc Hs].
    destruct n as [|n]; cbn [substring].
    + destruct m as [|m]; [reflexivity|]. cbn [Py.all_str]. rewrite Hc. now apply IH.
    + now apply IH.
Qed.

Lemma length_substring_le s : forall m, String.length (substring 0 m s) <= m.
Proof.
  induction s as [|c s IH]; intros [|m]; cbn [substring String.length]; try lia.
  specialize (IH m). lia.
Qed.

Lemma rstrip_rstrip s : Py.rstrip (Py.rstrip s) = Py.rstrip s.
Proof.
  induction s as [|c s IH]; [reflexivity|]. cbn [Py.rstrip].
  destruct (Py.rstrip s) as [|d r'] eqn:E.
  - destruct (Py.isspace c) eqn:Hc; [reflexivity|]. cbn [Py.rstrip]. now rewrite Hc.
  - change (Py.rstrip (String c (String d r')))
      with (match Py.rstrip (String d r') with
            | EmptyString => if Py.isspace c then EmptyString else String c EmptyString
            | r => String c r
            end).
    now rewrite IH.
Qed.

Lemma rstrip_head c s : Py.isspace c = false -> exists x, Py.rstrip (String c s) = String c x.
Proof.
  intros Hc. cbn [Py.rstrip]. destruct (Py.rstrip s) as [|d r'].
  - rewrite Hc. now exists ""%string.
  - now exists (String d r').
Qed.

Lemma strip_strip s : Py.strip (Py.strip s) = Py.strip s.
Proof.
  unfold Py.strip.
  destruct (lstrip_cases s) as [[-> _] | (c & x & -> & Hc)]; [reflexivity|].
  destruct (rstrip_head c x Hc) as [y Ey].
  rewrite Ey, (lstrip_no_space c y Hc), <- Ey. apply rstrip_rstrip.
Qed.

(** ** The automatic file name *)

Lemma safe_title_chars title :
  Py.all_str name_char (safe_title title) = true /\ String.length (safe_title title) <= 100.
Proof.
  split; [|apply length_substring_le]. unfold safe_title. apply all_substring.
  apply (sub_all NOFLAGS dashes
           (fun c => word_char c || Py.isspace c || Ascii.eqb c "-") name_char).
  - apply plus_never_empty.
  - intros p pv c t E Hc. apply plus_unmatched in E. cbn [test ignorecase NOFLAGS] in E.
    unfold name_char. destruct (word_char c); [reflexivity|]. cbn [orb] in *.
    apply orb_false_iff in E as [E1 E2]. now rewrite E1, E2 in Hc.
  - reflexivity.
  - apply (sub_all NOFLAGS unsafe_char (fun _ => true)).
    + apply chr_never_empty.
    + intros p pv c t E _. apply chr_unmatched in E. cbn [test ignorecase NOFLAGS] in E.
      now apply negb_false_iff in E.
    + reflexivity.
    + clear. induction title as [|c s IH]; [reflexivity | exact IH].
Qed.

Lemma word_char_safe c :
  word_char c = true ->
  negb (test NOFLAGS (CClass (fun c => negb (word_char c || Py.isspace c || Ascii.eqb c "-"))) c)
  = true /\
  negb (test NOFLAGS (CClass (fun c => Ascii.eqb c "-" || Py.isspace c)) c) = true.
Proof. each_char c; vm_compute; intros H; first [discriminate H | split; reflexivity]. Qed.

Lemma safe_title_of_word title :
  Py.all_str word_char title = true -> safe_title title = substring 0 100 title.
Proof.
  intros H. unfold safe_title, unsafe_char, dashes.
  rewrite (proj1 (sub_without_match NOFLAGS _ "" title
                    (all_str_weaken _ _ _ (fun c Hc => proj1 (word_char_safe c Hc)) H))).
  now rewrite (proj2 (sub_without_match NOFLAGS _ "-" title
                    (all_str_weaken _ _ _ (fun c Hc => proj2 (word_char_safe c Hc)) H))).
Qed.

(** X20: for a title of ASCII characters, the file name made for
    [-o auto] is a safe title, an underscore, the time stamp and [.txt];
    the safe title has at most 100 characters, each a letter, a digit, an
    underscore or a hyphen (so no path separator, dot or whitespace), and
    a title of letters, digits and underscores is kept as it is, cut to
    100 characters.  Without metadata the safe title is [transcript]. *)
Theorem auto_name_is_safe (now title : string) (m : metadata) :
  meta_title m = Chapters.Text title -> ascii_only title = true ->
  (exists safe,
     auto_name now (Some m) = Ok (safe ++ "_" ++ now ++ ".txt")%string /\
     Py.all_str name_char safe = true /\
     String.length safe <= 100 /\
     (Py.all_str word_char title = true -> safe = substring 0 100 title)) /\
  auto_name now None = Ok ("transcript_" ++ now ++ ".txt")%string.
Proof.
  intros Ht _. split; [|reflexivity].
  exists (safe_title title). unfold auto_name. rewrite Ht. cbn [bind].
  split; [reflexivity|]. split; [apply safe_title_chars|]. split; [apply safe_title_chars|].
  apply safe_title_of_word.
Qed.

Lemma auto_name_is_safe_witness :
  auto_name "20240131_093000"
            (Some (mkMeta (Chapters.Text "My Video: Part 1/2!") (Chapters.DurationInt 0) None))
  = Ok "My-Video-Part-12_20240131_093000.txt"%string /\
  exists safe,
    auto_name "20240131_093000"
              (Some (mkMeta (Chapters.Text "My Video: Part 1/2!") (Chapters.DurationInt 0) None))
    = Ok (safe ++ "_" ++ "20240131_093000" ++ ".txt")%string /\
    Py.all_str name_char safe = true /\
    String.length safe <= 100 /\
    (Py.all_str word_char "My Video: Part 1/2!" = true
     -> safe = substring 0 100 "My Video: Part 1/2!").
Proof.
  split; [reflexivity|].
  apply (auto_name_is_safe "20240131_093000" "My Video: Part 1/2!"
           (mkMeta (Chapters.Text "My Video: Part 1/2!") (Chapters.DurationInt 0) None));
    reflexivity.
Defined.

(** ** The lines of the formatted transcript *)

Lemma plain_upper c : plain c = true -> plain (Py.upper c) = true.
Proof. each_char c; vm_compute; intros H; first [reflexivity | discriminate H]. Qed.

Lemma plain_not_newline c : plain c = true -> negb (Ascii.eqb c Re.newline) = true.
Proof. each_char c; vm_compute; intros H; first [reflexivity | discriminate H]. Qed.

Lemma nonspace_plain c : negb (Py.isspace c) = true -> plain c = true.
Proof. intros H. unfold plain. now rewrite H. Qed.

Lemma all_str_upper s : Py.all_str plain s = true -> Py.all_str plain (Py.str_upper s) = true.
Proof.
  induction s as [|c s IH]; [reflexivity|]. cbn [Py.all_str Py.str_upper Py.map_str].
  intros H. apply andb_true_iff in H as [Hc Hs]. rewrite (plain_upper c Hc). now apply IH.
Qed.

Lemma spaces_plain s : Py.all_str plain (sub NOFLAGS (Plus space) " " s) = true.
Proof.
  apply (sub_all NOFLAGS (Plus space) (fun _ => true)).
  - apply plus_never_empty.
  - intros p pv c t E _. apply plus_unmatched in E. cbn [test space ignorecase NOFLAGS] in E.
    unfold plain. now rewrite E.
  - reflexivity.
  - induction s as [|c s IH]; [reflexivity | exact IH].
Qed.

Lemma word_plain w : is_word w = true -> Py.all_str plain w = true.
Proof.
  unfold is_word. intros H. apply andb_true_iff in H as [_ H].
  revert H. apply all_str_weaken, nonspace_plain.
Qed.

Lemma Forall_concat {A : Type} (P : A -> Prop) (G : list (list A)) :
  Forall P (List.concat G) -> Forall (Forall P) G.
Proof.
  induction G as [|g G IH]; cbn [List.concat]; intros H; [constructor|].
  apply Forall_app in H as [Hg HG]. constructor; [exact Hg | now apply IH].
Qed.

Lemma joined_groups_plain (G : list (list string)) :
  Forall (fun x => Py.all_str plain x = true) (List.concat G) ->
  Forall (fun x => Py.all_str plain x = true) (map (Py.join " ") G).
Proof.
  intros H. apply Forall_concat in H. apply Forall_map.
  revert H. apply Forall_impl. intros g Hg. now apply join_all.
Qed.

Lemma sentences_plain full_text ss :
  Py.all_str plain full_text = true ->
  SimpleFormatter.sentences_of full_text = Ok ss ->
  Forall (fun x => Py.all_str plain x = true) ss.
Proof.
  intros Hf. unfold SimpleFormatter.sentences_of.
  destruct (_ && _).
  - rewrite resegment_spec. intros E. injection E as <-.
    rewrite reseg_spec_groups. apply joined_groups_plain.
    rewrite reseg_groups_concat. cbn [app].
    pose proof (split_ws_words full_text) as Hw. revert Hw.
    apply Forall_impl. intros w. apply word_plain.
  - intros E. injection E as <-. unfold SimpleFormatter.split_sentences, split.
    apply (pieces_all NOFLAGS SimpleFormatter.sentence_gap plain plain); [| |exact Hf].
    + intros u (u1 & u2 & -> & H1 & H2 & _). cbn [consumes] in H1. subst u1. exact H2.
    + intros p pv c t _ Hc. exact Hc.
Qed.

Lemma taken_plain ss :
  Forall (fun x => Py.all_str plain x = true) ss ->
  Forall (fun x => Py.all_str plain x = true) (taken ss).
Proof.
  intros H. unfold taken. apply Forall_forall. intros x Hx.
  apply filter_In in Hx as [Hx _]. apply in_map_iff in Hx as (y & <- & Hy).
  apply all_strip. revert y Hy. now apply Forall_forall.
Qed.

Lemma paragraphs_plain ss :
  Forall (fun x => Py.all_str plain x = true) ss ->
  Forall (fun x => Py.all_str plain x = true) (SimpleFormatter.paragraphs_of ss).
Proof.
  intros H. apply taken_plain in H. unfold SimpleFormatter.paragraphs_of.
  destruct (para_loop_groups ss [] [] ltac:(constructor) ltac:(cbn; lia))
    as (G & cur & E & _ & _ & Ec).
  cbn [map] in E. rewrite E. cbn [List.concat Datatypes.app] in Ec. rewrite <- Ec in H.
  apply Forall_app in H as [HG Hcur].
  destruct (Chapters.nonempty cur).
  - apply Forall_app. split; [now apply joined_groups_plain|].
    constructor; [now apply join_all | constructor].
  - now apply joined_groups_plain.
Qed.

Lemma capitalize_plain para out :
  Py.all_str plain para = true -> SimpleFormatter.capitalize para = Ok out ->
  Py.all_str plain out = true.
Proof.
  intros H. unfold SimpleFormatter.capitalize.
  destruct (1 <? String.length para)%nat.
  - destruct para as [|c x]; [discriminate|]. cbn [SimpleFormatter.first_char bind].
    intros E. injection E as <-. cbn [Py.all_str] in *.
    apply andb_true_iff in H as [Hc Hx]. rewrite (plain_upper c Hc). cbn [andb].
    apply all_substring. exact Hx.
  - intros E. injection E as <-. now apply all_str_upper.
Qed.

Lemma finish_loop_plain paras : forall acc out,
  Forall (fun x => Py.all_str plain x = true) paras ->
  Forall (fun x => Py.all_str plain x = true) acc ->
  SimpleFormatter.finish_loop acc paras = Ok out ->
  Forall (fun x => Py.all_str plain x = true) out.
Proof.
  induction paras as [|para paras IH]; intros acc out Hp Hacc; cbn [SimpleFormatter.finish_loop].
  - intros E. now injection E as <-.
  - inversion Hp as [|? ? Hpara Hrest]; subst.
    unfold SimpleFormatter.finish_step.
    destruct (Py.truthy (Py.strip para)); cbn [bind]; [|now apply IH].
    destruct (SimpleFormatter.capitalize (Py.strip para)) as [cap|e] eqn:Ec;
      cbn [bind]; [|discriminate].
    pose proof (capitalize_plain _ _ (all_strip _ _ Hpara) Ec) as Hcap.
    destruct (SimpleFormatter.final_char cap) as [c|e]; cbn [bind]; [|discriminate].
    apply IH; [exact Hrest|]. apply Forall_app. split; [exact Hacc|].
    constructor; [|constructor].
    destruct (negb _); [|exact Hcap]. now rewrite all_str_app, Hcap.
Qed.

Lemma formatted_paragraphs_plain segments paras :
  SimpleFormatter.formatted_paragraphs_of segments = Ok paras ->
  Forall (fun x => Py.all_str plain x = true) paras.
Proof.
  unfold SimpleFormatter.formatted_paragraphs_of, SimpleFormatter.full_text_of.
  destruct (SimpleFormatter.collect_loop [] segments) as [all_text|e]; cbn [bind];
    [|discriminate].
  destruct (SimpleFormatter.sentences_of _) as [ss|e] eqn:Es; cbn [bind]; [|discriminate].
  intros E. apply (finish_loop_plain _ [] paras) in E; [exact E | | constructor].
  apply paragraphs_plain. apply (sentences_plain _ _ (spaces_plain _) Es).
Qed.

Lemma plain_lacks_nl x : Py.all_str plain x = true -> lacks Re.newline x = true.
Proof. apply all_str_weaken, plain_not_newline. Qed.

Lemma lines_of_paragraphs paras :
  Forall (fun x => Py.all_str plain x = true) paras ->
  Py.split nl (Py.join SimpleFormatter.blank_line paras) = with_blanks paras.
Proof.
  unfold Py.split. induction 1 as [|c cs Hc Hcs IH]; [reflexivity|].
  apply plain_lacks_nl in Hc. destruct cs as [|c2 cs].
  - cbn [Py.join String.concat with_blanks]. apply (split_nl_last c "" Hc).
  - rewrite blank_join, (split_nl_app c "" _ Hc). cbn [append with_blanks].
    change (Py.split_from nl 0 "" (String Re.newline ?t))
      with (Py.split_from nl 0 "" ("" ++ String Re.newline t)).
    rewrite (split_nl_app "" "" _ eq_refl). cbn [append]. now rewrite IH.
Qed.

(** X21: in the text that [format_transcript] returns, the formatted
    paragraphs are exactly the lines, with one empty line between two
    paragraphs: no paragraph contains a line break, a tab or any other
    whitespace than the space character. *)
Theorem formatted_text_lines (segments : list SimpleFormatter.segment) (out : string) :
  SimpleFormatter.format_transcript segments = Ok out ->
  exists paras,
    SimpleFormatter.formatted_paragraphs_of segments = Ok paras /\
    out = Py.join SimpleFormatter.blank_line paras /\
    Forall (fun para => Py.all_str plain para = true) paras /\
    Py.split nl out = with_blanks paras.
Proof.
  destruct segments as [|seg segments]; cbn [SimpleFormatter.format_transcript].
  - intros E. injection E as <-. exists []. repeat split; constructor.
  - destruct (SimpleFormatter.formatted_paragraphs_of (seg :: segments)) as [paras|e] eqn:Ep;
      cbn [bind]; [|discriminate].
    intros E. injection E as <-. exists paras.
    pose proof (formatted_paragraphs_plain _ _ Ep) as Hp.
    split; [reflexivity|]. split; [reflexivity|]. split; [exact Hp|].
    now apply lines_of_paragraphs.
Qed.

Lemma formatted_text_lines_witness :
  exists paras,
    SimpleFormatter.formatted_paragraphs_of sample_segments = Ok paras /\
    sample_text = Py.join SimpleFormatter.blank_line paras /\
    Forall (fun para => Py.all_str plain para = true) paras /\
    Py.split nl sample_text = with_blanks paras.
Proof. apply (formatted_text_lines sample_segments sample_text). vm_compute. reflexivity. Defined.

(** ** The titles of the chapters of a description *)

Lemma clean_title_tidy t :
  Py.all_str plain (Chapters.clean_title t) = true /\
  Py.strip (Chapters.clean_title t) = Chapters.clean_title t.
Proof.
  unfold Chapters.clean_title. split; [|apply strip_strip].
  apply all_strip, spaces_plain.
Qed.

Lemma kept_titles ms :
  Forall (fun x => exists raw, fst (fst x) = Chapters.clean_title raw) (kept ms).
Proof.
  apply Forall_forall. intros x Hx. unfold kept in Hx.
  apply in_flat_map in Hx as (m & _ & Hx). unfold kept_match in Hx.
  destruct (Timestamp._parse_timestamp _); [|destruct Hx].
  destruct (Py.truthy _); [|destruct Hx].
  destruct Hx as [<- | []]. now exists (snd m).
Qed.

Lemma chain_titles (P : string -> Prop) k :
  Forall (fun x => P (fst (fst x))) k -> Forall (fun r => P (Chapters.title r)) (chain k).
Proof.
  induction 1 as [|[[t s] ts] k Hx Hk IH]; cbn [chain]; constructor; [exact Hx | exact IH].
Qed.

(** X22: the title of every chapter read from a description has been
    cleaned: it contains no line break, no tab and no other whitespace
    than the space character, and it has no whitespace in front of it or
    after it. *)
Theorem description_titles_clean (text : string) :
  Forall (fun r => Py.all_str plain (Chapters.title r) = true /\
                   Py.strip (Chapters.title r) = Chapters.title r)
         (Chapters._parse_chapters_from_text text).
Proof.
  destruct (parse_chapters_chain text) as [ms ->].
  apply (chain_titles (fun t => Py.all_str plain t = true /\ Py.strip t = t)).
  pose proof (kept_titles ms) as H. revert H. apply Forall_impl.
  intros x [raw ->]. apply clean_title_tidy.
Qed.

End OutputFacts.

Section TitlesFacts.
Import Re Timestamp Chapters.
Local Open Scope nat_scope.
Local Open Scope string_scope.
Local Open Scope list_scope.

(** ** Replacing the runs of a class *)

Section Runs.
Variable fl : flags.
Variable cs : cset.
Variable repl : string.
Let q : ascii -> bool := test fl cs.







Variable s : string.



End Runs.

(** ** What [str.split()] sees of a string *)





Section Collapse.
Variable q : ascii -> bool.
Hypothesis q_space : forall c, q c = true -> Py.isspace c = true.


End Collapse.













End TitlesFacts.
